(** * NiftyNet [niftynet/io/image_reader.py]: a shallow embedding

    The reader merges per-modality CSV manifests into one joint table,
    builds one multi-field record per row, and serves records by index
    (explicit, random or sequential) through a list of preprocessing
    layers.  Python objects are modelled as records, [dict]s as
    insertion-ordered association lists, exceptions as the [Raised]
    branch of [outcome], and mutation of [self], of the global random
    generator and of the log as explicit state passing in the monad [M].

    What the reader calls but does not define is kept abstract: image
    decoding ([get_data], [shape], [dtype]), the bodies of the layers,
    numpy's generator and [int] on strings are total functions of the
    classes [Carriers] and [Externals]; an exception raised inside one
    of them would pass through the reader unchanged and is not
    modelled.

    A CSV file is given by what [read_csv] parses from it
    ([csv_content]): a file it rejects, or lines of a subject id and a
    path, with the ids as integers when it types the column [int64]
    (so that [01] and [1] are one id) and as strings when it types it
    [object].  Lines without their two fields, ids outside [int64] and
    id columns of another type (floats, booleans, missing values) are
    not modelled.  Of pandas the reader uses [read_csv], which rejects
    two columns of the same name, and the inner join on the first
    column, which refuses to join an integer column with one of
    strings; the order of the rows of a join with repeated keys is not
    relied on.  Log messages are abbreviated. *)

From Stdlib Require Import ZArith List String Bool Lia SpecFloat.
From Stdlib Require Import DecimalString DecimalZ.
Import ListNotations.
Local Open Scope string_scope.
Local Open Scope list_scope.
Local Open Scope Z_scope.

(** ** Python values, exceptions and dictionaries *)

Inductive exc : Type :=
| ValueError | TypeError | OverflowError | IOError
| RuntimeError | AttributeError | KeyError | IndexError.

Inductive outcome (A : Type) : Type :=
| Returned (a : A)
| Raised (e : exc).
Arguments Returned {A} a.
Arguments Raised {A} e.

(** The values an [idx] argument can take: [None], an integer, a float
    (IEEE binary64, as [spec_float]), a string, or any other object
    that defines none of [__int__], [__index__], [__trunc__]. *)
Inductive pyval : Type :=
| PyNone
| PyInt (z : Z)
| PyFloat (f : spec_float)
| PyStr (s : string)
| PyObject.

Definition is_None (v : pyval) : bool :=
  match v with PyNone => true | _ => false end.

(** [int(f)] for a float: truncation towards zero; [nan] raises
    [ValueError], an infinity raises [OverflowError]. *)
Definition int_of_float (f : spec_float) : outcome Z :=
  match f with
  | S754_zero _ => Returned 0
  | S754_infinity _ => Raised OverflowError
  | S754_nan => Raised ValueError
  | S754_finite s m e =>
      let v := if 0 <=? e then Z.pos m * 2 ^ e else Z.pos m / 2 ^ (- e) in
      Returned (if s then - v else v)
  end.

(** Python [dict]: keys are unique and keep their insertion order. *)
Definition dict (V : Type) : Type := list (string * V).

Fixpoint dict_get {V} (d : dict V) (k : string) : option V :=
  match d with
  | [] => None
  | (k', v) :: d' => if String.eqb k' k then Some v else dict_get d' k
  end.

Fixpoint dict_set {V} (d : dict V) (k : string) (v : V) : dict V :=
  match d with
  | [] => [(k, v)]
  | (k', v') :: d' =>
      if String.eqb k' k then (k', v) :: d' else (k', v') :: dict_set d' k v
  end.

Definition dict_keys {V} (d : dict V) : list string := map fst d.

(** [{k: v for (k, v) in items}] *)
Definition dict_of_items {V} (items : list (string * V)) : dict V :=
  fold_left (fun d kv => dict_set d (fst kv) (snd kv)) items [].

(** [{k: f(v) for (k, v) in d.items()}] *)
Definition dict_map {V W} (f : V -> W) (d : dict V) : dict W :=
  dict_of_items (map (fun kv => (fst kv, f (snd kv))) d).

Definition truthy_list {A} (v : option (list A)) : bool :=
  match v with Some (_ :: _) => true | _ => false end.

Definition truthy_dict {V} (v : option (dict V)) : bool :=
  match v with Some (_ :: _) => true | _ => false end.

(** ** pandas tables

    A [DataFrame] with the default integer row labels.  Only what the
    reader uses is modelled: [shape[0]], [size], [len], [.loc[idx, col]],
    [read_csv] with two named columns and the inner
    [merge] on the first column.  A cell is the text of the parsed
    value, an integer being written in decimal ([render_id]);
    [key_dtype] is the dtype of the first column. *)
Inductive dtype : Type := int64 | object.

Definition dtype_eqb (a b : dtype) : bool :=
  match a, b with
  | int64, int64 | object, object => true
  | _, _ => false
  end.

Record DataFrame : Type := {
  columns : list string;
  key_dtype : dtype;
  rows : list (list string)
}.

Definition shape0 (df : DataFrame) : Z := Z.of_nat (List.length (rows df)).
Definition size (df : DataFrame) : Z :=
  Z.of_nat (List.length (rows df)) * Z.of_nat (List.length (columns df)).

Fixpoint index_of (c : string) (cols : list string) : option nat :=
  match cols with
  | [] => None
  | c' :: cols' =>
      if String.eqb c' c then Some O
      else match index_of c cols' with Some n => Some (S n) | None => None end
  end.

(** [df.loc[idx, col]]: [KeyError] on an unknown row label or column. *)
Definition loc (df : DataFrame) (idx : nat) (col : string) : outcome string :=
  match nth_error (rows df) idx, index_of col (columns df) with
  | Some row, Some j =>
      match nth_error row j with
      | Some cell => Returned cell
      | None => Raised KeyError
      end
  | _, _ => Raised KeyError
  end.

(** [df.iloc[i, 0]]: a negative position counts from the last row;
    [IndexError] when the position is outside the table. *)
Definition iloc0 (df : DataFrame) (i : Z) : outcome string :=
  let n := Z.of_nat (List.length (rows df)) in
  let j := if i <? 0 then i + n else i in
  if (j <? 0) || (n <=? j) then Raised IndexError
  else match nth_error (rows df) (Z.to_nat j) with
       | Some (cell :: _) => Returned cell
       | _ => Raised IndexError
       end.

Definition row_key (row : list string) : string := hd "" row.

(** The subject ids of a table, in row order. *)
Definition subjects (df : DataFrame) : list string := map row_key (rows df).

(** What [read_csv] makes of a two-column file: it rejects the file
    (a parser error, which is a [ValueError]), or it parses lines of a
    subject id and a path.  The ids are integers when every one of them reads as an
    integer and strings otherwise. *)
Inductive csv_content : Type :=
| Unparsable
| IntIds (lines : list (Z * string))
| StrIds (lines : list (string * string)).

(** An integer id as text: its decimal digits, without leading zeros. *)
Definition render_id (z : Z) : string :=
  NilEmpty.string_of_int (Z.to_int z).

Definition content_lines (c : csv_content) : list (string * string) :=
  match c with
  | Unparsable => []
  | IntIds lines => map (fun l => (render_id (fst l), snd l)) lines
  | StrIds lines => lines
  end.

(** The subject ids of the lines, as parsed. *)
Definition content_ids (c : csv_content) : list string :=
  map fst (content_lines c).

(** A column without values is typed [object]. *)
Definition content_dtype (c : csv_content) : dtype :=
  match c with
  | IntIds (_ :: _) => int64
  | _ => object
  end.

(** The subject ids a CSV file lists ([fs] maps a path to the content
    of the file). *)
Definition manifest_ids (fs : string -> option csv_content)
           (path : string) : list string :=
  match fs path with
  | Some c => content_ids c
  | None => []
  end.

(** Every row has one cell per column. *)
Definition rectangular (df : DataFrame) : Prop :=
  Forall (fun row => List.length row = List.length (columns df)) (rows df).

(** The inner join on the first column: every left row paired with
    every right row of the same key (duplicated keys multiply). *)
Definition matching (key : string) (right : list (list string))
  : list (list string) :=
  filter (fun r => String.eqb (row_key r) key) right.

Definition inner_join (left right : DataFrame) : DataFrame :=
  {| columns := columns left ++ tl (columns right);
     key_dtype := key_dtype left;
     rows := flat_map
               (fun l => map (fun r => l ++ tl r)
                             (matching (row_key l) (rows right)))
               (rows left) |}.

Definition has_rows (df : DataFrame) : bool :=
  match rows df with [] => false | _ :: _ => true end.

(** [pandas.merge(left, right, on='subject_id')] where [subject_id] is
    the first column of both.  The key columns are checked first: when
    both tables have rows and one key column is [int64] and the other
    [object], [ValueError]; a table without rows is not checked. *)
Definition merge (left right : DataFrame) : outcome DataFrame :=
  if has_rows left && has_rows right
     && negb (dtype_eqb (key_dtype left) (key_dtype right))
  then Raised ValueError
  else Returned (inner_join left right).

(** The table of the parsed lines of a file, under the column names
    [['subject_id', m]]. *)
Definition csv_frame (modality_name : string) (c : csv_content)
  : DataFrame :=
  {| columns := ["subject_id"; modality_name];
     key_dtype := content_dtype c;
     rows := map (fun l => [fst l; snd l]) (content_lines c) |}.

(** [pandas.read_csv(csv_file, header=None, names=['subject_id', m])]
    on a file of content [c]: [ValueError] when the two names are the
    same (duplicate names are not allowed) and when the file cannot be
    parsed. *)
Definition read_csv (modality_name : string) (c : csv_content)
  : outcome DataFrame :=
  if String.eqb modality_name "subject_id" then Raised ValueError
  else match c with
       | Unparsable => Raised ValueError
       | _ => Returned (csv_frame modality_name c)
       end.

(** ** tensorflow dtypes *)

Inductive tf_dtype : Type := tf_int32 | tf_float32.

Definition NP_TF_DTYPES : dict tf_dtype :=
  [("i", tf_int32); ("u", tf_int32); ("b", tf_int32); ("f", tf_float32)].

Inductive log_event : Type :=
| LogFatal (msg : string)
| LogWarning (msg : string)
| LogInfo (msg : string).

Definition exc_eqb (a b : exc) : bool :=
  match a, b with
  | ValueError, ValueError | TypeError, TypeError
  | OverflowError, OverflowError | IOError, IOError
  | RuntimeError, RuntimeError | AttributeError, AttributeError
  | KeyError, KeyError | IndexError, IndexError => true
  | _, _ => false
  end.

(** ** External collaborators

    Arrays, shapes, masks, the state of numpy's global random generator
    and the internal state of layers are opaque to the reader. *)
Class Carriers : Type := {
  array : Type;
  shape_t : Type;
  mask_t : Type;
  pixdim_t : Type;
  axcodes_t : Type;
  rng_state : Type;
  layer_params : Type;
  layer_model : Type
}.

(** Modelled from the spec: [niftynet.io.image_type.ImageFactory] is
    not part of the sources; an image handle is the bundle of
    properties [create_image] passes to [create_instance], and exposes
    [get_data()], [shape], [dtype] and [interp_order]. *)
Record image `{Carriers} : Type := {
  file_path : list string;
  name : list string;
  interp_order : list Z;
  output_pixdim : list pixdim_t;
  output_axcodes : list axcodes_t
}.

Class Externals `{Carriers} : Type := {
  (** [int(s)] for a string: [None] when it raises [ValueError] *)
  int_of_str : string -> option Z;
  (** [np.random.randint(high)] for [0 < high] *)
  randint : Z -> rng_state -> Z * rng_state;
  get_data : image -> array;
  shape : image -> shape_t;
  (** [image.dtype[0].kind] *)
  dtype_kind : image -> string
}.

Section ImageReader.
Context {C : Carriers} {E : @Externals C}.

(** One section of the configuration ([data_param[modality]]). *)
Record input_section : Type := {
  csv_file : string;
  param_interp_order : Z;
  pixdim : pixdim_t;
  axcodes : axcodes_t
}.

Definition record : Type := dict image.

(** Modelled from the spec: [niftynet.layer.base_layer] is not part of
    the sources.  A stage is plain, data-dependent (fitted by [train]
    on the whole catalog) or randomised ([randomise()] draws new
    parameters from the global generator and stores them).  A
    randomised layer is called with the data and the interpolation
    orders; every other layer with the data and the mask, and returns
    both. *)
Inductive Layer : Type :=
| PlainLayer
    (op : dict array -> option mask_t -> dict array * option mask_t)
| DataDependentLayer
    (model : layer_model)
    (train : option (list record) -> layer_model -> layer_model)
    (op : layer_model -> dict array -> option mask_t
          -> dict array * option mask_t)
| RandomisedLayer
    (params : layer_params)
    (draw : rng_state -> layer_params * rng_state)
    (op : layer_params -> dict array -> dict (list Z) -> dict array).

Record ImageReader : Type := {
  _file_list : option DataFrame;
  _input_sources : option (dict (option (list string)));
  _shapes : option (dict shape_t);
  _dtypes : option (dict tf_dtype);
  _names : list string;
  output_list : option (list record);
  current_id : Z;
  preprocessors : list (option Layer)
}.

(** [ImageReader.__init__] *)
Definition init (names : list string) : ImageReader :=
  {| _file_list := None; _input_sources := None; _shapes := None;
     _dtypes := None; _names := names; output_list := None;
     current_id := -1; preprocessors := [] |}.

(** ** The state the methods act on: the reader object, numpy's global
    generator, the log, and the CSV files on disk (path to content;
    [None] when there is no such file). *)
Record world : Type := {
  self : ImageReader;
  rng : rng_state;
  log : list log_event;
  files : string -> option csv_content
}.

Definition M (A : Type) : Type := world -> outcome A * world.

Definition ret {A} (a : A) : M A := fun w => (Returned a, w).
Definition raise {A} (e : exc) : M A := fun w => (Raised e, w).
Definition bind {A B} (m : M A) (k : A -> M B) : M B :=
  fun w => match m w with
           | (Returned a, w') => k a w'
           | (Raised e, w') => (Raised e, w')
           end.
Definition lift {A} (o : outcome A) : M A := fun w => (o, w).

(** [try: m  except e: h] *)
Definition try_except {A} (m : M A) (e : exc) (h : M A) : M A :=
  fun w => match m w with
           | (Raised e', w') =>
               if exc_eqb e' e then h w' else (Raised e', w')
           | r => r
           end.

Definition get {A} (f : ImageReader -> A) : M A :=
  fun w => (Returned (f (self w)), w).
Definition modify (f : ImageReader -> ImageReader) : M unit :=
  fun w => (Returned tt,
            {| self := f (self w); rng := rng w; log := log w;
               files := files w |}).
Definition emit (ev : log_event) : M unit :=
  fun w => (Returned tt,
            {| self := self w; rng := rng w; log := log w ++ [ev];
               files := files w |}).
Definition with_rng {A} (f : rng_state -> A * rng_state) : M A :=
  fun w => let (a, g) := f (rng w) in
           (Returned a,
            {| self := self w; rng := g; log := log w; files := files w |}).
Definition read_file (path : string)
  : M (option csv_content) :=
  fun w => (Returned (files w path), w).

Local Notation "x <- c ;; k" := (bind c (fun x => k))
  (at level 61, c at next level, right associativity).
Local Notation "c ;;; k" := (bind c (fun _ => k))
  (at level 61, right associativity).
Local Infix "+++" := String.append (at level 60, right associativity).

Definition tf_logging_fatal (msg : string) : M unit := emit (LogFatal msg).
Definition tf_logging_warning (msg : string) : M unit := emit (LogWarning msg).
Definition tf_logging_info (msg : string) : M unit := emit (LogInfo msg).

(** Attribute assignment on [self]. *)
Definition set__file_list (v : option DataFrame) (r : ImageReader) :=
  {| _file_list := v; _input_sources := _input_sources r;
     _shapes := _shapes r; _dtypes := _dtypes r; _names := _names r;
     output_list := output_list r; current_id := current_id r;
     preprocessors := preprocessors r |}.
Definition set__input_sources (v : option (dict (option (list string))))
           (r : ImageReader) :=
  {| _file_list := _file_list r; _input_sources := v;
     _shapes := _shapes r; _dtypes := _dtypes r; _names := _names r;
     output_list := output_list r; current_id := current_id r;
     preprocessors := preprocessors r |}.
Definition set__shapes (v : option (dict shape_t)) (r : ImageReader) :=
  {| _file_list := _file_list r; _input_sources := _input_sources r;
     _shapes := v; _dtypes := _dtypes r; _names := _names r;
     output_list := output_list r; current_id := current_id r;
     preprocessors := preprocessors r |}.
Definition set__dtypes (v : option (dict tf_dtype)) (r : ImageReader) :=
  {| _file_list := _file_list r; _input_sources := _input_sources r;
     _shapes := _shapes r; _dtypes := v; _names := _names r;
     output_list := output_list r; current_id := current_id r;
     preprocessors := preprocessors r |}.
Definition set__names (v : list string) (r : ImageReader) :=
  {| _file_list := _file_list r; _input_sources := _input_sources r;
     _shapes := _shapes r; _dtypes := _dtypes r; _names := v;
     output_list := output_list r; current_id := current_id r;
     preprocessors := preprocessors r |}.
Definition set_output_list (v : option (list record)) (r : ImageReader) :=
  {| _file_list := _file_list r; _input_sources := _input_sources r;
     _shapes := _shapes r; _dtypes := _dtypes r; _names := _names r;
     output_list := v; current_id := current_id r;
     preprocessors := preprocessors r |}.
Definition set_current_id (v : Z) (r : ImageReader) :=
  {| _file_list := _file_list r; _input_sources := _input_sources r;
     _shapes := _shapes r; _dtypes := _dtypes r; _names := _names r;
     output_list := output_list r; current_id := v;
     preprocessors := preprocessors r |}.
Definition set_preprocessors (v : list (option Layer)) (r : ImageReader) :=
  {| _file_list := _file_list r; _input_sources := _input_sources r;
     _shapes := _shapes r; _dtypes := _dtypes r; _names := _names r;
     output_list := output_list r; current_id := current_id r;
     preprocessors := v |}.

(** [d[k]] *)
Definition getitem {V} (d : dict V) (k : string) : outcome V :=
  match dict_get d k with
  | Some v => Returned v
  | None => Raised KeyError
  end.

(** [tuple(f(x) for x in xs)]; iterating [None] raises [TypeError]. *)
Fixpoint map_outcome {A B} (f : A -> outcome B) (xs : list A)
  : outcome (list B) :=
  match xs with
  | [] => Returned []
  | x :: xs' =>
      match f x with
      | Raised e => Raised e
      | Returned y =>
          match map_outcome f xs' with
          | Raised e => Raised e
          | Returned ys => Returned (y :: ys)
          end
      end
  end.

Definition tuple_of {A B} (f : A -> outcome B) (xs : option (list A))
  : outcome (list B) :=
  match xs with
  | None => Raised TypeError
  | Some l => map_outcome f l
  end.

Fixpoint mapM {A B} (f : A -> M B) (xs : list A) : M (list B) :=
  match xs with
  | [] => ret []
  | x :: xs' => y <- f x ;; ys <- mapM f xs' ;; ret (y :: ys)
  end.

(** The property [names]. *)
Definition names : M (list string) := get _names.

(** The property [input_sources]. *)
Definition input_sources : M (dict (option (list string))) :=
  src <- get _input_sources ;;
  match src with
  | Some (kv :: d) => ret (kv :: d)
  | _ => tf_logging_fatal "please initialise the reader first" ;;;
         raise RuntimeError
  end.

(** ** [load_and_merge_csv_files] *)

Definition os_path_isfile (path : string) : M bool :=
  f <- read_file path ;;
  ret (match f with Some _ => true | None => false end).

Definition pandas_read_csv (path modality_name : string) : M DataFrame :=
  f <- read_file path ;;
  match f with
  | Some c => lift (read_csv modality_name c)
  | None => raise IOError
  end.

(** The loop over [data_param], with [_file_list] as accumulator. *)
Fixpoint merge_loop (items : list (string * input_section))
         (_file_list : option DataFrame) : M (option DataFrame) :=
  match items with
  | [] => ret _file_list
  | (modality_name, section) :: rest =>
      let csv_file := csv_file section in
      isfile <- os_path_isfile csv_file ;;
      if negb isfile then
        tf_logging_fatal ("csv file " +++ csv_file +++ " not found.") ;;;
        raise IOError
      else
        csv_list <- pandas_read_csv csv_file modality_name ;;
        match _file_list with
        | None => merge_loop rest (Some csv_list)
        | Some file_list =>
            let n_rows := shape0 file_list in
            file_list <- lift (merge file_list csv_list) ;;
            (if negb (shape0 file_list =? n_rows) then
               tf_logging_warning ("rows not matched in " +++ csv_file)
             else ret tt) ;;;
            merge_loop rest (Some file_list)
        end
  end.

Definition load_and_merge_csv_files (data_param : dict input_section)
  : M DataFrame :=
  _file_list <- merge_loop data_param None ;;
  match _file_list with
  | None => raise AttributeError   (* [None.size] *)
  | Some file_list =>
      if size file_list =? 0 then
        tf_logging_fatal "empty filename lists, please check the csv files." ;;;
        raise IOError
      else ret file_list
  end.

(** ** [create_image] and [filename_to_image_list] *)

Definition image_properties (file_list : DataFrame) (idx : nat)
           (modalities : option (list string))
           (data_param : dict input_section) : outcome image :=
  let attr {A} (f : input_section -> A) (m : string) : outcome A :=
    match getitem data_param m with
    | Returned section => Returned (f section)
    | Raised e => Raised e
    end in
  match tuple_of (loc file_list idx) modalities with
  | Raised e => Raised e
  | Returned file_path =>
  match tuple_of (attr param_interp_order) modalities with
  | Raised e => Raised e
  | Returned interp_order =>
  match tuple_of (attr pixdim) modalities with
  | Raised e => Raised e
  | Returned pixdim =>
  match tuple_of (attr axcodes) modalities with
  | Raised e => Raised e
  | Returned axcodes =>
      Returned {| file_path := file_path;
                  name := match modalities with Some l => l | None => [] end;
                  interp_order := interp_order;
                  output_pixdim := pixdim;
                  output_axcodes := axcodes |}
  end end end end.

Definition create_image (file_list : DataFrame) (idx : nat)
           (modalities : option (list string))
           (data_param : dict input_section) : M image :=
  match image_properties file_list idx modalities data_param with
  | Raised KeyError =>
      tf_logging_fatal "Specified modality names not found in config" ;;;
      raise KeyError
  | o => lift o
  end.

Definition filename_to_image_list (file_list : DataFrame)
           (mod_dict : dict (option (list string)))
           (data_param : dict input_section) : M (list record) :=
  mapM (fun idx =>
          items <- mapM (fun fm =>
                           img <- create_image file_list idx (snd fm)
                                               data_param ;;
                           ret (fst fm, img))
                        mod_dict ;;
          ret (dict_of_items items))
       (seq 0 (List.length (rows file_list))).

(** ** [initialise_reader] *)

(** The inner loop [for source in self._input_sources[name]]. *)
Fixpoint load_sources (name : string) (sources : list string)
         (data_param data_to_load : dict input_section)
  : M (dict input_section) :=
  match sources with
  | [] => ret data_to_load
  | source :: rest =>
      match dict_get data_param source with
      | None =>
          tf_logging_fatal ("reader name [" +++ name +++ "] requires ["
                            +++ source +++ "]") ;;;
          raise ValueError
      | Some section =>
          load_sources name rest data_param
                       (dict_set data_to_load source section)
      end
  end.

(** The outer loop [for name in self._names]. *)
Fixpoint load_names (names : list string)
         (data_param data_to_load : dict input_section)
  : M (dict input_section) :=
  match names with
  | [] => ret data_to_load
  | name :: rest =>
      src <- get _input_sources ;;
      sources <- lift (match src with
                       | None => Raised TypeError
                       | Some d =>
                           match getitem d name with
                           | Returned None => Raised TypeError
                           | Returned (Some l) => Returned l
                           | Raised e => Raised e
                           end
                       end) ;;
      data_to_load <- load_sources name sources data_param data_to_load ;;
      load_names rest data_param data_to_load
  end.

Definition len_output_list : M Z :=
  ol <- get output_list ;;
  match ol with
  | None => raise TypeError   (* [len(None)] *)
  | Some l => ret (Z.of_nat (List.length l))
  end.

Definition initialise_reader (data_param : dict input_section)
           (task_param : dict (list string)) : M unit :=
  ns <- names ;;
  match ns with
  | [] =>
      tf_logging_fatal "Please specify data names" ;;;
      raise ValueError
  | _ :: _ =>
      modify (set__names
                (filter (fun name => truthy_list (dict_get task_param name))
                        ns)) ;;;
      ns <- names ;;
      modify (set__input_sources
                (Some (dict_of_items
                         (map (fun name => (name, dict_get task_param name))
                              ns)))) ;;;
      ns <- get _names ;;
      data_to_load <- load_names ns data_param [] ;;
      file_list <- load_and_merge_csv_files data_to_load ;;
      modify (set__file_list (Some file_list)) ;;;
      src <- get _input_sources ;;
      volume_list <- match src with
                     | Some mod_dict =>
                         filename_to_image_list file_list mod_dict data_param
                     | None => raise AttributeError   (* [None.items()] *)
                     end ;;
      modify (set_output_list (Some volume_list)) ;;;
      ns <- names ;;
      mapM (fun name =>
              src <- input_sources ;;
              _ <- lift (getitem src name) ;;
              _ <- len_output_list ;;
              tf_logging_info ("image reader: loading [" +++ name +++ "]"))
           ns ;;;
      ret tt
  end.

(** ** Preprocessing layers *)

(** [prepare_preprocessors]: [train] mutates a data-dependent layer in
    place. *)
Definition train_layer (ol : option (list record)) (layer : option Layer)
  : option Layer :=
  match layer with
  | Some (DataDependentLayer model train op) =>
      Some (DataDependentLayer (train ol model) train op)
  | other => other
  end.

Definition prepare_preprocessors : M unit :=
  ol <- get output_list ;;
  layers <- get preprocessors ;;
  modify (set_preprocessors (map (train_layer ol) layers)).

(** [add_preprocessing_layers(layers)]: one [Layer] is appended, any
    other argument is a list that extends the pipeline. *)
Definition add_preprocessing_layers (layers : Layer + list (option Layer))
  : M unit :=
  old <- get preprocessors ;;
  modify (set_preprocessors
            (match layers with
             | inl layer => old ++ [Some layer]
             | inr ls => old ++ ls
             end)) ;;;
  prepare_preprocessors.

(** [deepcopy(layer)]: layers are values, a copy is an equal value that
    shares nothing with the original. *)
Definition deepcopy (layer : option Layer) : option Layer := layer.

(** The loop [for layer in preprocessors] of [layer_op], with
    [image_data_dict] and [mask] as accumulators. *)
Fixpoint run_layers (layers : list (option Layer))
         (interp_order_dict : dict (list Z))
         (image_data_dict : dict array) (mask : option mask_t)
  : M (dict array * option mask_t) :=
  match layers with
  | [] => ret (image_data_dict, mask)
  | None :: rest =>
      run_layers rest interp_order_dict image_data_dict mask
  | Some (RandomisedLayer _ draw op) :: rest =>
      params <- with_rng draw ;;
      run_layers rest interp_order_dict
                 (op params image_data_dict interp_order_dict) mask
  | Some (PlainLayer op) :: rest =>
      let (d, m) := op image_data_dict mask in
      run_layers rest interp_order_dict d m
  | Some (DataDependentLayer model _ op) :: rest =>
      let (d, m) := op model image_data_dict mask in
      run_layers rest interp_order_dict d m
  end.

(** ** [layer_op] *)

(** [int(idx)] *)
Definition int (idx : pyval) : outcome Z :=
  match idx with
  | PyNone => Raised TypeError
  | PyInt z => Returned z
  | PyFloat f => int_of_float f
  | PyStr s => match int_of_str s with
               | Some z => Returned z
               | None => Raised ValueError
               end
  | PyObject => Raised TypeError
  end.

(** [np.random.randint(high)]: [ValueError] unless [0 < high]. *)
Definition np_random_randint (high : Z) : M Z :=
  if high <=? 0 then raise ValueError else with_rng (randint high).

Definition access_result : Type :=
  (Z * option (dict array) * option (dict (list Z)))%type.

Definition layer_op (idx : pyval) (shuffle : bool) : M access_result :=
  idx <- (if is_None idx && shuffle then
            n <- len_output_list ;;
            i <- np_random_randint n ;;
            ret (PyInt i)
          else ret idx) ;;
  idx <- (if is_None idx && negb shuffle then
            cur <- get current_id ;;
            modify (set_current_id (cur + 1)) ;;;
            ret (PyInt (cur + 1))
          else ret idx) ;;
  idx <- try_except (lift (int idx)) ValueError (ret (-1)) ;;
  out_of_range <- (if idx <? 0 then ret true
                   else n <- len_output_list ;; ret (n <=? idx)) ;;
  if (out_of_range : bool) then ret (-1, None, None)
  else
    ol <- get output_list ;;
    image_dict <- lift (match ol with
                        | None => Raised TypeError
                        | Some l =>
                            match nth_error l (Z.to_nat idx) with
                            | Some r => Returned r
                            | None => Raised IndexError
                            end
                        end) ;;
    let image_data_dict := dict_map get_data image_dict in
    let interp_order_dict := dict_map interp_order image_dict in
    layers <- get preprocessors ;;
    image_data_dict <-
      match layers with
      | [] => ret image_data_dict
      | _ :: _ =>
          dm <- run_layers (map deepcopy layers) interp_order_dict
                           image_data_dict None ;;
          ret (fst dm)
      end ;;
    ret (idx, Some image_data_dict, Some interp_order_dict).

(** ** The cached properties [shapes] and [tf_dtypes] *)

Definition first_record : M record :=
  ol <- get output_list ;;
  match ol with
  | Some (r :: _) => ret r
  | Some [] => raise IndexError
  | None => raise TypeError
  end.

Definition require_output_list : M unit :=
  ol <- get output_list ;;
  if truthy_list ol then ret tt
  else tf_logging_fatal "please initialise the reader first" ;;;
       raise RuntimeError.

Definition shapes : M (dict shape_t) :=
  require_output_list ;;;
  cached <- get _shapes ;;
  match cached with
  | Some (kv :: d) => ret (kv :: d)
  | _ =>
      first_image <- first_record ;;
      ns <- names ;;
      items <- mapM (fun field =>
                       img <- lift (getitem first_image field) ;;
                       ret (field, shape img))
                    ns ;;
      modify (set__shapes (Some (dict_of_items items))) ;;;
      ret (dict_of_items items)
  end.

(** [infer_tf_dtypes] *)
Definition infer_tf_dtypes (image_array : image) : tf_dtype :=
  match dict_get NP_TF_DTYPES (dtype_kind image_array) with
  | Some t => t
  | None => tf_float32
  end.

Definition tf_dtypes : M (dict tf_dtype) :=
  require_output_list ;;;
  cached <- get _dtypes ;;
  match cached with
  | Some (kv :: d) => ret (kv :: d)
  | _ =>
      first_image <- first_record ;;
      ns <- names ;;
      items <- mapM (fun field =>
                       img <- lift (getitem first_image field) ;;
                       ret (field, infer_tf_dtypes img))
                    ns ;;
      modify (set__dtypes (Some (dict_of_items items))) ;;;
      ret (dict_of_items items)
  end.

(** ** Notions used to state the properties *)

(** The key set of a mapping equals a field-name schema. *)
Definition same_keys {V} (d : dict V) (schema : list string) : Prop :=
  forall field, In field (dict_keys d) <-> In field schema.

(** A reader as [initialise_reader] leaves it: a non-empty field list, a
    non-empty catalog, every record keyed by the field names. *)
Definition initialised (r : ImageReader) : Prop :=
  _names r <> [] /\
  exists l, output_list r = Some l /\ l <> [] /\
            Forall (fun rec : record => same_keys rec (_names r)) l.

(** A stage that returns a mapping with the keys of the one it is given. *)
Definition keeps_keys (layer : option Layer) : Prop :=
  match layer with
  | None => True
  | Some (PlainLayer op) =>
      forall d m, same_keys (fst (op d m)) (dict_keys d)
  | Some (DataDependentLayer model _ op) =>
      forall d m, same_keys (fst (op model d m)) (dict_keys d)
  | Some (RandomisedLayer _ _ op) =>
      forall p d o, same_keys (op p d o) (dict_keys d)
  end.

(** The pipeline as the specification words it: one stage applied to
    the data, the threaded mask and the generator. *)
Definition apply_stage (interp_order_map : dict (list Z))
           (acc : dict array * option mask_t * rng_state)
           (stage : option Layer)
  : dict array * option mask_t * rng_state :=
  let '(data, mask, g) := acc in
  match stage with
  | None => acc
  | Some (RandomisedLayer _ draw op) =>
      let (fresh, g') := draw g in (op fresh data interp_order_map, mask, g')
  | Some (PlainLayer op) =>
      let (data', mask') := op data mask in (data', mask', g)
  | Some (DataDependentLayer model _ op) =>
      let (data', mask') := op model data mask in (data', mask', g)
  end.

Definition apply_pipeline (stages : list (option Layer))
           (interp_order_map : dict (list Z)) (data : dict array)
           (g : rng_state) : dict array * option mask_t * rng_state :=
  fold_left (apply_stage interp_order_map) stages (data, None, g).

Definition set_rng (g : rng_state) (w : world) : world :=
  {| self := self w; rng := g; log := log w; files := files w |}.
Definition set_self (r : ImageReader) (w : world) : world :=
  {| self := r; rng := rng w; log := log w; files := files w |}.
Definition add_log (evs : list log_event) (w : world) : world :=
  {| self := self w; rng := rng w; log := log w ++ evs; files := files w |}.

(** [n] successive calls [reader(idx=None, shuffle=False)]. *)
Fixpoint sequential_calls (n : nat) (w : world)
  : list (outcome access_result) * world :=
  match n with
  | O => ([], w)
  | S n' =>
      let (o, w1) := layer_op PyNone false w in
      let (os, w2) := sequential_calls n' w1 in
      (o :: os, w2)
  end.

Definition resolved_index (o : outcome access_result) : outcome Z :=
  match o with
  | Returned (i, _, _) => Returned i
  | Raised e => Raised e
  end.

(** A sequence of calls [reader(idx, shuffle)]; a caller that catches
    an exception goes on with the reader as the failed call left it. *)
Definition request : Type := (pyval * bool)%type.

Fixpoint run_requests (reqs : list request) (w : world)
  : list (request * outcome access_result) :=
  match reqs with
  | [] => []
  | (idx, shuffle) :: rest =>
      let (o, w1) := layer_op idx shuffle w in
      ((idx, shuffle), o) :: run_requests rest w1
  end.

Definition sequential_mode (req : request) : bool :=
  is_None (fst req) && negb (snd req).

(** The indices served to the sequential-mode calls of a run. *)
Definition sequentially_served (run : list (request * outcome access_result))
  : list (outcome Z) :=
  map (fun ro => resolved_index (snd ro))
      (filter (fun ro => sequential_mode (fst ro)) run).

(** [layer_op] once the index is resolved to the integer [z], in closed
    form ([layer_op_int] below proves it equal to the method). *)
Definition serve (z : Z) (w : world) : outcome access_result * world :=
  if z <? 0 then (Returned (-1, None, None), w)
  else
    match output_list (self w) with
    | None => (Raised TypeError, w)
    | Some l =>
        if Z.of_nat (List.length l) <=? z then (Returned (-1, None, None), w)
        else
          match nth_error l (Z.to_nat z) with
          | None => (Raised IndexError, w)
          | Some rec =>
              let acc := apply_pipeline (preprocessors (self w))
                                        (dict_map interp_order rec)
                                        (dict_map get_data rec) (rng w) in
              (Returned (z, Some (fst (fst acc)),
                         Some (dict_map interp_order rec)),
               set_rng (snd acc) w)
          end
    end.

(** A valid access to record [rec] at index [z]: the record's data goes
    through the pipeline, the interpolation orders are returned as they
    are, and only the generator changes. *)
Definition piped (z : Z) (rec : record) (w : world)
  : outcome access_result * world :=
  let interp := dict_map interp_order rec in
  let acc := apply_pipeline (preprocessors (self w)) interp
                            (dict_map get_data rec) (rng w) in
  (Returned (z, Some (fst (fst acc)), Some interp), set_rng (snd acc) w).

Definition sentinel : access_result := (-1, None, None).

(** [{field: f(rec[field]) for field in fields}] when every field is a
    key of [rec]. *)
Definition from_first_record {V} (f : image -> V) (rec : record)
           (fields : list string) : dict V :=
  dict_of_items
    (flat_map (fun field => match dict_get rec field with
                            | Some img => [(field, f img)]
                            | None => []
                            end) fields).

(** A cached property: it returns a mapping, returns the same mapping
    when asked again, keeps it in [cache] and from then on answers from
    the cache alone; when the cache was empty the mapping is computed
    from record 0. *)
Definition memoized {V} (property : M (dict V))
           (cache : ImageReader -> option (dict V)) (f : image -> V)
           (w : world) : Prop :=
  exists d w1,
    property w = (Returned d, w1) /\
    property w1 = (Returned d, w1) /\
    cache (self w1) = Some d /\
    (forall w2, cache (self w2) = Some d ->
                truthy_list (output_list (self w2)) = true ->
                property w2 = (Returned d, w2)) /\
    (truthy_dict (cache (self w)) = false ->
     exists rec0 rest,
       output_list (self w) = Some (rec0 :: rest) /\
       d = from_first_record f rec0 (_names (self w))).

(** A computation that leaves the reader object as it is. *)
Definition keeps_self {A} (m : M A) : Prop :=
  forall w, self (snd (m w)) = self w.

(** A computation that leaves the field names as they are. *)
Definition keeps_names {A} (m : M A) : Prop :=
  forall w, _names (self (snd (m w))) = _names (self w).

(** The fields [initialise_reader] keeps: those with a non-empty entry
    in the task schema. *)
Definition active_fields (task_param : dict (list string))
           (fields : list string) : list string :=
  filter (fun name => truthy_list (dict_get task_param name)) fields.

(** What a successfully created image holds: the modalities as its
    name, and per modality, in order, the cell of the table row and the
    settings of the configuration section. *)
Definition image_of_row (file_list : DataFrame) (idx : nat)
           (data_param : dict input_section) (img : image) : Prop :=
  Forall2 (fun m p => loc file_list idx m = Returned p)
          (name img) (file_path img) /\
  Forall2 (fun m o => exists section, dict_get data_param m = Some section /\
                                      o = param_interp_order section)
          (name img) (interp_order img) /\
  Forall2 (fun m o => exists section, dict_get data_param m = Some section /\
                                      o = pixdim section)
          (name img) (output_pixdim img) /\
  Forall2 (fun m o => exists section, dict_get data_param m = Some section /\
                                      o = axcodes section)
          (name img) (output_axcodes img).

(** The subject [k] is listed by the manifest of every section of
    [items]. *)
Definition in_every (fs : string -> option csv_content)
           (items : list (string * input_section)) (k : string) : bool :=
  forallb (fun ms => existsb (String.eqb k)
                             (manifest_ids fs (csv_file (snd ms))))
          items.

(** Manifests that [read_csv] and [merge] accept: no section is named
    [subject_id], every file that is there can be parsed, and the id
    columns all have one dtype. *)
Definition plain_manifests (fs : string -> option csv_content)
           (items : list (string * input_section)) : Prop :=
  exists d, forall m section c,
      In (m, section) items -> fs (csv_file section) = Some c ->
      m <> "subject_id" /\ c <> Unparsable /\ content_dtype c = d.

(** No stage of the pipeline is randomised. *)
Definition no_randomised (layers : list (option Layer)) : Prop :=
  Forall (fun layer => match layer with
                       | Some (RandomisedLayer _ _ _) => False
                       | _ => True
                       end) layers.

(** The stages an argument of [add_preprocessing_layers] stands for. *)
Definition stages_of (layers : Layer + list (option Layer))
  : list (option Layer) :=
  match layers with
  | inl layer => [Some layer]
  | inr ls => ls
  end.

(** [get_subject_id] *)
Definition get_subject_id (image_index : Z) : M string :=
  fl <- get _file_list ;;
  match fl with
  | None => raise AttributeError   (* [None.iloc] *)
  | Some file_list => lift (iloc0 file_list image_index)
  end.

(** A table whose rows are keyed, each key once. *)
Definition unique_keys (df : DataFrame) : Prop :=
  Forall (fun row => row <> []) (rows df) /\
  NoDup (map row_key (rows df)).

End ImageReader.

(** ** A concrete configuration, used to run the model *)

Definition demo_carriers : Carriers :=
  {| array := list string; shape_t := nat; mask_t := unit;
     pixdim_t := unit; axcodes_t := unit; rng_state := Z;
     layer_params := Z; layer_model := unit |}.

Definition demo_externals : @Externals demo_carriers :=
  @Build_Externals demo_carriers
    (fun s => if String.eqb s "1" then Some 1 else None)
    (fun (high g : Z) => (g mod high, g + 1))
    (fun img => @file_path demo_carriers img)
    (fun img => List.length (@file_path demo_carriers img))
    (fun img => "f").

#[local] Existing Instance demo_carriers.
#[local] Existing Instance demo_externals.

Definition demo_files (path : string) : option csv_content :=
  if String.eqb path "T1.csv" then
    Some (StrIds [("s1", "s1_T1.nii"); ("s2", "s2_T1.nii")])
  else if String.eqb path "seg.csv" then
    Some (StrIds [("s1", "s1_seg.nii"); ("s2", "s2_seg.nii")])
  else if String.eqb path "dup.csv" then
    Some (StrIds [("s1", "a.nii"); ("s1", "b.nii")])
  else if String.eqb path "one.csv" then
    Some (StrIds [("s1", "c.nii")])
  else None.

Definition demo_section (path : string) : input_section :=
  {| csv_file := path; param_interp_order := 3; pixdim := tt; axcodes := tt |}.

Definition demo_data_param : dict input_section :=
  [("T1", demo_section "T1.csv"); ("seg", demo_section "seg.csv")].

Definition demo_task_param : dict (list string) :=
  [("image", ["T1"]); ("label", ["seg"]); ("weight", [])].

Definition demo_world0 : world :=
  {| self := init ["image"; "label"; "weight"]; rng := 0; log := [];
     files := demo_files |}.

(** The reader after [initialise_reader]. *)
Definition demo_world : world :=
  snd (initialise_reader demo_data_param demo_task_param demo_world0).

(** A plain stage that returns an empty mapping. *)
Definition drop_fields : Layer := PlainLayer (fun _ mask => ([], mask)).

Definition demo_world_dropping : world :=
  snd (add_preprocessing_layers (inl drop_fields) demo_world).

(** A pipeline of a plain stage, a placeholder and a randomised stage,
    all of which return the mapping they are given. *)
Definition demo_pipeline : list (option Layer) :=
  [Some (PlainLayer (fun d mask => (d, mask)));
   None;
   Some (RandomisedLayer 0 (fun g : Z => (g, g + 1)) (fun _ d _ => d))].

Definition demo_world_piped : world :=
  snd (add_preprocessing_layers (inr demo_pipeline) demo_world).

Definition demo_catalog : list record :=
  match output_list (self demo_world) with
  | Some l => l
  | None => []
  end.

(** A reader whose catalog is the empty list. *)
Definition demo_world_empty : world :=
  set_self (set_output_list (Some []) (self demo_world0)) demo_world0.

(** A reader all of whose fields have an empty entry in the schema. *)
Definition demo_world_weight : world :=
  set_self (init ["weight"]) demo_world0.

(** Two manifests, the first of which lists subject [s1] twice. *)
Definition demo_dup_param : dict input_section :=
  [("A", demo_section "dup.csv"); ("B", demo_section "one.csv")].

(** Manifest A lists subjects 1, 2, 3 and manifest B subjects 2, 3, 4. *)
Definition demo_files_ab (path : string) : option csv_content :=
  if String.eqb path "A.csv" then
    Some (IntIds [(1, "a1.nii"); (2, "a2.nii"); (3, "a3.nii")])
  else if String.eqb path "B.csv" then
    Some (IntIds [(2, "b2.nii"); (3, "b3.nii"); (4, "b4.nii")])
  else if String.eqb path "S.csv" then
    Some (StrIds [("s2", "c2.nii")])
  else None.

Definition demo_ab_param : dict input_section :=
  [("A", demo_section "A.csv"); ("B", demo_section "B.csv")].

(** An integer id column and one of strings. *)
Definition demo_mixed_param : dict input_section :=
  [("A", demo_section "A.csv"); ("S", demo_section "S.csv")].

Definition demo_world_ab : world :=
  {| self := init ["image"]; rng := 0; log := []; files := demo_files_ab |}.

(** A configuration without the section [seg] that field [label] needs. *)
Definition demo_data_param_no_seg : dict input_section :=
  [("T1", demo_section "T1.csv")].

(** The joint table of the initialised reader. *)
Definition demo_table : DataFrame :=
  match _file_list (self demo_world) with
  | Some t => t
  | None => {| columns := []; key_dtype := object; rows := [] |}
  end.

(** The initialised reader once [shapes] has been asked for and so
    cached, and the same reader initialised again on the two-manifest
    configuration. *)
Definition demo_world_cached : world := snd (shapes demo_world).

Definition demo_ab_task_param : dict (list string) :=
  [("image", ["A"; "B"])].

Definition demo_world_again : world :=
  snd (initialise_reader
         demo_ab_param demo_ab_task_param
         {| self := self demo_world_cached; rng := rng demo_world_cached;
            log := log demo_world_cached; files := demo_files_ab |}).

(** * Properties *)

(** ** Dictionaries *)

Lemma dict_set_keys {V} (d : dict V) k v x :
  In x (dict_keys (dict_set d k v)) <-> x = k \/ In x (dict_keys d).
Proof.
  induction d as [|[k' v'] d IH]; simpl.
  - intuition.
  - destruct (String.eqb_spec k' k); simpl.
    + subst. intuition.
    + rewrite IH. intuition.
Qed.

Lemma dict_set_not_nil {V} (d : dict V) k v : dict_set d k v <> [].
Proof.
  destruct d as [|[k' v'] d]; simpl; [discriminate|].
  destruct (String.eqb k' k); discriminate.
Qed.

Lemma fold_dict_set_keys {V} (items : list (string * V)) (d0 : dict V) x :
  In x (dict_keys (fold_left (fun d kv => dict_set d (fst kv) (snd kv))
                             items d0))
  <-> In x (dict_keys d0) \/ In x (map fst items).
Proof.
  revert d0. induction items as [|[k v] items IH]; intros d0; simpl.
  - intuition.
  - rewrite IH, dict_set_keys. intuition.
Qed.

Lemma dict_of_items_keys {V} (items : list (string * V)) :
  same_keys (dict_of_items items) (map fst items).
Proof.
  intros x. unfold dict_of_items. rewrite fold_dict_set_keys. simpl.
  intuition.
Qed.

Lemma fold_dict_set_not_nil {V} (items : list (string * V)) (d0 : dict V) :
  d0 <> [] ->
  fold_left (fun d kv => dict_set d (fst kv) (snd kv)) items d0 <> [].
Proof.
  revert d0. induction items as [|kv items IH]; intros d0 H; simpl; auto.
  apply IH, dict_set_not_nil.
Qed.

Lemma dict_of_items_not_nil {V} (items : list (string * V)) :
  items <> [] -> dict_of_items items <> [].
Proof.
  destruct items as [|kv items]; [congruence|]. intros _.
  unfold dict_of_items. simpl. apply fold_dict_set_not_nil. discriminate.
Qed.

Lemma dict_map_keys {V W} (f : V -> W) (d : dict V) :
  same_keys (dict_map f d) (dict_keys d).
Proof.
  intros x. unfold dict_map. rewrite (dict_of_items_keys _ x).
  rewrite map_map. simpl. reflexivity.
Qed.

Lemma dict_get_In {V} (d : dict V) k :
  In k (dict_keys d) -> exists v, dict_get d k = Some v.
Proof.
  induction d as [|[k' v'] d IH]; simpl; [tauto|].
  intros [->|H].
  - rewrite String.eqb_refl. eauto.
  - destruct (String.eqb k' k); eauto.
Qed.

Lemma same_keys_trans {V W} (d : dict V) (d' : dict W) schema :
  same_keys d (dict_keys d') -> same_keys d' schema -> same_keys d schema.
Proof.
  intros H1 H2 x. rewrite (H1 x). apply H2.
Qed.

Section Facts.
Context {C : Carriers} {E : @Externals C}.

Local Notation "x <- c ;; k" := (bind c (fun x => k))
  (at level 61, c at next level, right associativity).

(** ** The monad *)

Lemma bind_Returned {A B} (m : M A) (k : A -> M B) w b w' :
  bind m k w = (Returned b, w') ->
  exists a w1, m w = (Returned a, w1) /\ k a w1 = (Returned b, w').
Proof.
  unfold bind. destruct (m w) as [[a|e] w1]; intros H.
  - eauto.
  - discriminate.
Qed.

(** Unfolds the monadic plumbing. *)
Ltac mrun :=
  cbv beta iota zeta delta
      [bind ret raise lift get modify emit with_rng try_except read_file
       names len_output_list np_random_randint is_None int andb negb
       tf_logging_fatal tf_logging_warning tf_logging_info exc_eqb].

Lemma set_rng_same (w : world) : set_rng (rng w) w = w.
Proof. destruct w; reflexivity. Qed.

(** ** The pipeline loop *)

Lemma run_layers_fold layers interp d m w :
  run_layers layers interp d m w =
  let acc := fold_left (apply_stage interp) layers (d, m, rng w) in
  (Returned (fst (fst acc), snd (fst acc)), set_rng (snd acc) w).
Proof.
  revert d m w. induction layers as [|[layer|] layers IH]; intros d m w.
  - simpl. unfold ret. now rewrite set_rng_same.
  - destruct layer as [op|model train op|params draw op]; simpl.
    + destruct (op d m) as [d' m']. apply IH.
    + destruct (op model d m) as [d' m']. apply IH.
    + unfold bind, with_rng. destruct (draw (rng w)) as [p g'].
      rewrite IH. reflexivity.
  - simpl. apply IH.
Qed.

(** Stages act in list order: a pipeline in two parts is the second
    part run on what the first part leaves. *)
Lemma run_layers_app first second interp d m w :
  run_layers (first ++ second) interp d m w =
  let acc := fold_left (apply_stage interp) first (d, m, rng w) in
  run_layers second interp (fst (fst acc)) (snd (fst acc))
             (set_rng (snd acc) w).
Proof.
  rewrite !run_layers_fold, fold_left_app. cbv zeta. simpl rng.
  destruct (fold_left (apply_stage interp) first (d, m, rng w))
    as [[d1 m1] g1]. reflexivity.
Qed.

Lemma layer_op_int z shuffle w : layer_op (PyInt z) shuffle w = serve z w.
Proof.
  unfold layer_op, serve. mrun.
  destruct (z <? 0); [reflexivity|].
  destruct (output_list (self w)) as [l|] eqn:Hol; [|reflexivity].
  destruct (Z.of_nat (List.length l) <=? z); [reflexivity|].
  rewrite Hol.
  destruct (nth_error l (Z.to_nat z)) as [rec|]; [|reflexivity].
  unfold apply_pipeline.
  destruct (preprocessors (self w)) as [|layer layers] eqn:Hp.
  - simpl. now rewrite set_rng_same.
  - unfold deepcopy. rewrite map_id, run_layers_fold. reflexivity.
Qed.

(** ** Index resolution *)

Lemma layer_op_sequential w :
  layer_op PyNone false w =
  serve (current_id (self w) + 1)
        (set_self (set_current_id (current_id (self w) + 1) (self w)) w).
Proof. rewrite <- (layer_op_int _ false). reflexivity. Qed.

Lemma layer_op_random w l :
  output_list (self w) = Some l ->
  layer_op PyNone true w =
  if Z.of_nat (List.length l) <=? 0 then (Raised ValueError, w)
  else let ig := randint (Z.of_nat (List.length l)) (rng w) in
       serve (fst ig) (set_rng (snd ig) w).
Proof.
  intros Hol. rewrite <- (layer_op_int _ true).
  unfold layer_op. mrun. rewrite Hol.
  destruct (Z.of_nat (List.length l) <=? 0); [reflexivity|].
  destruct (randint (Z.of_nat (List.length l)) (rng w)) as [i g].
  reflexivity.
Qed.

Lemma layer_op_explicit idx shuffle w :
  idx <> PyNone ->
  layer_op idx shuffle w =
  match int idx with
  | Returned z => serve z w
  | Raised ValueError => (Returned (-1, None, None), w)
  | Raised e => (Raised e, w)
  end.
Proof.
  intros Hidx. destruct idx as [|z|f|s|]; try congruence.
  - apply layer_op_int.
  - unfold int. destruct (int_of_float f) as [z|e] eqn:Hf.
    + rewrite <- (layer_op_int _ shuffle). unfold layer_op. mrun.
      rewrite Hf. reflexivity.
    + unfold layer_op. mrun. rewrite Hf. destruct e; reflexivity.
  - unfold int. destruct (int_of_str s) as [z|] eqn:Hs.
    + rewrite <- (layer_op_int _ shuffle). unfold layer_op. mrun.
      rewrite Hs. reflexivity.
    + unfold layer_op. mrun. rewrite Hs. reflexivity.
  - unfold layer_op. mrun. reflexivity.
Qed.

Lemma serve_self z w : self (snd (serve z w)) = self w.
Proof.
  unfold serve. destruct (z <? 0); [reflexivity|].
  destruct (output_list (self w)) as [l|]; [|reflexivity].
  destruct (Z.of_nat (List.length l) <=? z); [reflexivity|].
  destruct (nth_error l (Z.to_nat z)); reflexivity.
Qed.

Lemma serve_out_of_range z w l :
  z < 0 \/ (output_list (self w) = Some l /\ Z.of_nat (List.length l) <= z) ->
  serve z w = (Returned (-1, None, None), w).
Proof.
  unfold serve. intros [Hz|[Hol Hz]].
  - destruct (Z.ltb_spec z 0); [reflexivity|lia].
  - rewrite Hol. destruct (z <? 0); [reflexivity|].
    destruct (Z.leb_spec (Z.of_nat (List.length l)) z); [reflexivity|lia].
Qed.

Lemma serve_valid z w l :
  output_list (self w) = Some l ->
  0 <= z < Z.of_nat (List.length l) ->
  exists rec,
    nth_error l (Z.to_nat z) = Some rec /\
    serve z w =
    let acc := apply_pipeline (preprocessors (self w))
                              (dict_map interp_order rec)
                              (dict_map get_data rec) (rng w) in
    (Returned (z, Some (fst (fst acc)), Some (dict_map interp_order rec)),
     set_rng (snd acc) w).
Proof.
  intros Hol Hz.
  destruct (nth_error l (Z.to_nat z)) as [rec|] eqn:Hnth.
  - exists rec. split; [reflexivity|]. unfold serve. rewrite Hol, Hnth.
    destruct (Z.ltb_spec z 0); [lia|].
    destruct (Z.leb_spec (Z.of_nat (List.length l)) z); [lia|reflexivity].
  - apply nth_error_None in Hnth. lia.
Qed.

Lemma serve_index_self z w w2 :
  self w = self w2 ->
  resolved_index (fst (serve z w)) = resolved_index (fst (serve z w2)).
Proof.
  intros H. unfold serve. rewrite H. destruct (z <? 0); [reflexivity|].
  destruct (output_list (self w2)) as [l|]; [|reflexivity].
  destruct (Z.of_nat (List.length l) <=? z); [reflexivity|].
  destruct (nth_error l (Z.to_nat z)); reflexivity.
Qed.

Lemma serve_piped z w l :
  output_list (self w) = Some l ->
  0 <= z < Z.of_nat (List.length l) ->
  exists rec, nth_error l (Z.to_nat z) = Some rec /\ serve z w = piped z rec w.
Proof. intros Hol Hz. exact (serve_valid z w l Hol Hz). Qed.

(** ** Access by index *)

(** C10: on an empty catalog random-mode access raises (numpy refuses
    to draw from an empty range) where explicit-mode and sequential-mode
    access return the sentinel. *)
Theorem random_access_on_empty_catalog w :
  output_list (self w) = Some [] ->
  layer_op PyNone true w = (Raised ValueError, w) /\
  (forall idx shuffle,
      idx <> PyNone ->
      (exists z, int idx = Returned z) \/ int idx = Raised ValueError ->
      layer_op idx shuffle w = (Returned sentinel, w)) /\
  layer_op PyNone false w =
  (Returned sentinel,
   set_self (set_current_id (current_id (self w) + 1) (self w)) w).
Proof.
  intros Hol. split; [|split].
  - rewrite (layer_op_random w [] Hol). reflexivity.
  - intros idx shuffle Hidx Hint. rewrite (layer_op_explicit _ _ _ Hidx).
    destruct Hint as [[z Hz]|Hv]; [rewrite Hz|rewrite Hv; reflexivity].
    apply (serve_out_of_range z w []).
    destruct (Z.lt_ge_cases z 0); [now left|right]. split; [exact Hol|].
    simpl. lia.
  - rewrite layer_op_sequential.
    apply (serve_out_of_range _ _ []).
    destruct (Z.lt_ge_cases (current_id (self w) + 1) 0); [now left|right].
    split; [exact Hol|simpl; lia].
Qed.

(** C3 (amended): an explicit index that coerces to an integer outside
    [0, N), or whose coercion raises [ValueError], gets the sentinel and
    nothing is raised or changed. *)
Theorem explicit_access_out_of_range idx shuffle w :
  idx <> PyNone ->
  (int idx = Raised ValueError \/
   exists z, int idx = Returned z /\
             (z < 0 \/ exists l, output_list (self w) = Some l /\
                                 Z.of_nat (List.length l) <= z)) ->
  layer_op idx shuffle w = (Returned sentinel, w).
Proof.
  intros Hidx H. rewrite (layer_op_explicit _ _ _ Hidx).
  destruct H as [Hv|[z [Hz Hout]]].
  - rewrite Hv. reflexivity.
  - rewrite Hz. destruct Hout as [Hneg|[l [Hol Hl]]].
    + apply (serve_out_of_range z w []). now left.
    + apply (serve_out_of_range z w l). right. now split.
Qed.

(** C4: on a valid access, in every mode, the record's data is folded
    through the stages of the pipeline in list order by [apply_stage]
    (a [None] stage skipped, a randomised stage applied with parameters
    drawn at that moment and with the interpolation orders, any other
    stage applied to the data and the threaded mask, which starts as
    [None]); the stored pipeline itself is left as it was. *)
Theorem pipeline_applied_in_order w l :
  output_list (self w) = Some l ->
  preprocessors (self w) <> [] ->
  (forall z shuffle,
      0 <= z < Z.of_nat (List.length l) ->
      exists rec, nth_error l (Z.to_nat z) = Some rec /\
                  layer_op (PyInt z) shuffle w = piped z rec w) /\
  (let z := current_id (self w) + 1 in
   0 <= z < Z.of_nat (List.length l) ->
   exists rec, nth_error l (Z.to_nat z) = Some rec /\
               layer_op PyNone false w =
               piped z rec (set_self (set_current_id z (self w)) w)) /\
  (let ig := randint (Z.of_nat (List.length l)) (rng w) in
   0 <= fst ig < Z.of_nat (List.length l) ->
   exists rec, nth_error l (Z.to_nat (fst ig)) = Some rec /\
               layer_op PyNone true w = piped (fst ig) rec (set_rng (snd ig) w)) /\
  (forall z rec w0, preprocessors (self (snd (piped z rec w0)))
                    = preprocessors (self w0)).
Proof.
  intros Hol _. split; [|split; [|split]].
  - intros z shuffle Hz. rewrite layer_op_int. now apply serve_piped.
  - intros z Hz. rewrite layer_op_sequential. now apply serve_piped.
  - intros ig Hz. rewrite (layer_op_random w l Hol).
    destruct (Z.leb_spec (Z.of_nat (List.length l)) 0); [lia|].
    now apply serve_piped.
  - reflexivity.
Qed.

Lemma apply_stage_keys interp stage d m g schema :
  keeps_keys stage ->
  same_keys d schema ->
  same_keys (fst (fst (apply_stage interp (d, m, g) stage))) schema.
Proof.
  intros Hk Hd. destruct stage as [[op|model train op|params draw op]|];
    simpl in *.
  - specialize (Hk d m). destruct (op d m) as [d' m']. simpl in *.
    intros x. rewrite (Hk x). apply Hd.
  - specialize (Hk d m). destruct (op model d m) as [d' m']. simpl in *.
    intros x. rewrite (Hk x). apply Hd.
  - destruct (draw g) as [p g']. simpl. intros x. rewrite (Hk p d interp x).
    apply Hd.
  - exact Hd.
Qed.

Lemma apply_pipeline_keys interp stages schema :
  Forall keeps_keys stages ->
  forall acc, same_keys (fst (fst acc)) schema ->
  same_keys (fst (fst (fold_left (apply_stage interp) stages acc))) schema.
Proof.
  induction 1 as [|stage stages Hk _ IH]; intros acc Hacc; simpl; auto.
  apply IH. destruct acc as [[d m] g]. now apply apply_stage_keys.
Qed.

(** C1 (amended): whatever the pipeline, a valid explicit index is
    served as itself, with both mappings present, the
    interpolation-order mapping keyed by the field names and the reader
    left as it was; the data mapping is keyed by the field names when
    every stage of the pipeline keeps the keys of the mapping it is
    given. *)
Theorem access_valid_index w l z shuffle :
  initialised (self w) ->
  output_list (self w) = Some l ->
  0 <= z < Z.of_nat (List.length l) ->
  exists d o w',
    layer_op (PyInt z) shuffle w = (Returned (z, Some d, Some o), w') /\
    same_keys o (_names (self w)) /\
    self w' = self w /\
    (Forall keeps_keys (preprocessors (self w)) ->
     same_keys d (_names (self w))).
Proof.
  intros [_ [l' [Hol' [_ Hrecs]]]] Hol Hz.
  rewrite Hol in Hol'. injection Hol' as <-.
  rewrite layer_op_int.
  destruct (serve_piped z w l Hol Hz) as [rec [Hnth ->]].
  assert (Hrec : same_keys rec (_names (self w))).
  { rewrite Forall_forall in Hrecs. apply Hrecs.
    eapply nth_error_In, Hnth. }
  unfold piped. do 3 eexists. split; [reflexivity|]. split; [|split].
  - eapply same_keys_trans; [apply dict_map_keys|exact Hrec].
  - reflexivity.
  - intros Hstages.
    unfold apply_pipeline. apply apply_pipeline_keys; [exact Hstages|]. simpl.
    eapply same_keys_trans; [apply dict_map_keys|exact Hrec].
Qed.

(** ** The sequential cursor *)

Lemma layer_op_not_sequential_self idx shuffle w :
  sequential_mode (idx, shuffle) = false ->
  self (snd (layer_op idx shuffle w)) = self w.
Proof.
  unfold sequential_mode. simpl. intros Hmode.
  destruct idx as [|z|f|s|].
  - destruct shuffle; [|discriminate].
    destruct (output_list (self w)) as [l|] eqn:Hol.
    + rewrite (layer_op_random w l Hol).
      destruct (Z.of_nat (List.length l) <=? 0); [reflexivity|].
      simpl. now rewrite serve_self.
    + unfold layer_op. mrun. rewrite Hol. reflexivity.
  - rewrite layer_op_int. apply serve_self.
  - rewrite layer_op_explicit by discriminate.
    destruct (int (PyFloat f)) as [z|[]]; try reflexivity. apply serve_self.
  - rewrite layer_op_explicit by discriminate.
    destruct (int (PyStr s)) as [z|[]]; try reflexivity. apply serve_self.
  - rewrite layer_op_explicit by discriminate. reflexivity.
Qed.

Lemma run_requests_sequential reqs :
  forall w w2,
    self w = self w2 ->
    sequentially_served (run_requests reqs w) =
    sequentially_served (run_requests (filter sequential_mode reqs) w2).
Proof.
  induction reqs as [|[idx shuffle] reqs IH]; intros w w2 Hself;
    [reflexivity|].
  cbn [run_requests filter].
  destruct (layer_op idx shuffle w) as [o w1] eqn:Hrun.
  destruct (sequential_mode (idx, shuffle)) eqn:Hmode.
  - assert (idx = PyNone /\ shuffle = false) as [-> ->].
    { unfold sequential_mode in Hmode. simpl in Hmode.
      destruct idx, shuffle; try discriminate; auto. }
    cbn [run_requests].
    destruct (layer_op PyNone false w2) as [o2 w3] eqn:Hrun2.
    unfold sequentially_served. cbn [filter fst snd]. rewrite Hmode.
    cbn [map snd]. f_equal.
    + rewrite layer_op_sequential in Hrun, Hrun2.
      replace o with (fst (serve (current_id (self w) + 1)
        (set_self (set_current_id (current_id (self w) + 1) (self w)) w)))
        by now rewrite Hrun.
      replace o2 with (fst (serve (current_id (self w2) + 1)
        (set_self (set_current_id (current_id (self w2) + 1) (self w2)) w2)))
        by now rewrite Hrun2.
      rewrite Hself. apply serve_index_self. reflexivity.
    + apply IH.
      rewrite layer_op_sequential in Hrun, Hrun2.
      replace w1 with (snd (serve (current_id (self w) + 1)
        (set_self (set_current_id (current_id (self w) + 1) (self w)) w)))
        by now rewrite Hrun.
      replace w3 with (snd (serve (current_id (self w2) + 1)
        (set_self (set_current_id (current_id (self w2) + 1) (self w2)) w2)))
        by now rewrite Hrun2.
      rewrite !serve_self. simpl. now rewrite Hself.
  - unfold sequentially_served at 1. cbn [filter fst]. rewrite Hmode.
    apply IH.
    pose proof (layer_op_not_sequential_self idx shuffle w Hmode) as H.
    rewrite Hrun in H. simpl in H. congruence.
Qed.

(** C9: explicit-mode and random-mode access leave the reader, and so
    its cursor [current_id], as they found it; removing those accesses
    from a run leaves the indices served to its sequential-mode
    accesses unchanged. *)
Theorem cursor_written_only_sequentially :
  (forall idx shuffle w,
      sequential_mode (idx, shuffle) = false ->
      current_id (self (snd (layer_op idx shuffle w))) = current_id (self w)) /\
  (forall reqs w,
      sequentially_served (run_requests reqs w) =
      sequentially_served (run_requests (filter sequential_mode reqs) w)).
Proof.
  split.
  - intros idx shuffle w Hmode.
    now rewrite layer_op_not_sequential_self.
  - intros reqs w. now apply run_requests_sequential.
Qed.

Lemma sequential_calls_from k :
  forall w l,
    output_list (self w) = Some l ->
    -1 <= current_id (self w) ->
    current_id (self w) + 1 + Z.of_nat k = Z.of_nat (List.length l) ->
    exists served,
      fst (sequential_calls (S k) w) = served ++ [Returned sentinel] /\
      map resolved_index served =
      map (fun j => Returned (current_id (self w) + 1 + Z.of_nat j))
          (seq 0 k).
Proof.
  induction k as [|k IH]; intros w l Hol Hc Hlen.
  - exists []. split; [|reflexivity]. cbn [sequential_calls].
    rewrite layer_op_sequential.
    rewrite (serve_out_of_range _ _ l); [reflexivity|].
    right. split; [exact Hol|lia].
  - cbn [sequential_calls]. rewrite layer_op_sequential.
    set (z := current_id (self w) + 1) in *.
    set (w0 := set_self (set_current_id z (self w)) w).
    destruct (serve_piped z w0 l Hol ltac:(lia)) as [rec [_ Hserve]].
    rewrite Hserve. unfold piped at 1.
    set (w1 := set_rng _ w0).
    destruct (IH w1 l Hol ltac:(simpl; lia) ltac:(simpl; fold z; lia))
      as [served [Hrun Hidx]].
    cbn [sequential_calls] in Hrun.
    destruct (layer_op PyNone false w1) as [o1 w2].
    destruct (sequential_calls k w2) as [os w3].
    cbn [fst] in Hrun |- *.
    eexists (_ :: served). split.
    + cbn [app]. f_equal. exact Hrun.
    + cbn [map seq resolved_index]. f_equal.
      * f_equal. lia.
      * rewrite Hidx. rewrite <- seq_shift, map_map.
        apply map_ext. intros j. simpl (current_id _). fold z. f_equal. lia.
Qed.

(** C2: on a reader whose cursor is still at its initial value -1, over
    a catalog of N records, N+1 sequential-mode calls return the indices
    0, 1, ..., N-1 in that order and then the sentinel. *)
Theorem sequential_access_order w l :
  current_id (self w) = -1 ->
  output_list (self w) = Some l ->
  exists served,
    fst (sequential_calls (S (List.length l)) w)
    = served ++ [Returned sentinel] /\
    map resolved_index served
    = map (fun j => Returned (Z.of_nat j)) (seq 0 (List.length l)).
Proof.
  intros Hc Hol.
  destruct (sequential_calls_from (List.length l) w l Hol) as [served [H1 H2]];
    [lia|lia|].
  exists served. split; [exact H1|]. rewrite H2. apply map_ext.
  intros j. f_equal. lia.
Qed.

(** ** The inner join *)

Lemma matching_absent key right :
  ~ In key (map row_key right) -> matching key right = [].
Proof.
  induction right as [|r right IH]; simpl; intros Hnot; [reflexivity|].
  destruct (String.eqb_spec (row_key r) key) as [Heq|_].
  - exfalso. apply Hnot. now left.
  - apply IH. intros Hin. apply Hnot. now right.
Qed.

Lemma matching_unique key right :
  NoDup (map row_key right) ->
  matching key right = [] \/
  exists r, matching key right = [r] /\ In r right /\ row_key r = key.
Proof.
  induction right as [|r right IH]; simpl; intros Hnd; [now left|].
  inversion Hnd as [|k ks Hnotin Hnd']; subst.
  destruct (String.eqb_spec (row_key r) key) as [Heq|Hneq].
  - right. exists r. subst key. rewrite (matching_absent _ _ Hnotin). auto.
  - destruct (IH Hnd') as [->|[r' [-> [Hin Hk]]]]; [now left|].
    right. exists r'. auto.
Qed.

Lemma merge_keys left right :
  Forall (fun row => row <> []) left ->
  NoDup (map row_key right) ->
  map row_key
      (flat_map (fun l => map (fun r => l ++ tl r) (matching (row_key l) right))
                left)
  = filter (fun k => existsb (String.eqb k) (map row_key right))
           (map row_key left).
Proof.
  intros Hne Hnd. induction Hne as [|l left Hl _ IH]; [reflexivity|].
  cbn [flat_map map filter]. rewrite map_app, IH.
  destruct (matching_unique (row_key l) right Hnd) as [Hm|[r [Hm [Hin Hk]]]];
    rewrite Hm; cbn [map app].
  - destruct (existsb (String.eqb (row_key l)) (map row_key right)) eqn:Hex;
      [|reflexivity].
    apply existsb_exists in Hex. destruct Hex as [k [Hkin Hkeq]].
    apply String.eqb_eq in Hkeq. subst k.
    apply in_map_iff in Hkin. destruct Hkin as [r [Hr Hrin]].
    assert (In r (matching (row_key l) right)) as Habs.
    { apply filter_In. split; [exact Hrin|]. now apply String.eqb_eq. }
    rewrite Hm in Habs. destruct Habs.
  - assert (existsb (String.eqb (row_key l)) (map row_key right) = true)
      as ->.
    { apply existsb_exists. exists (row_key r). split.
      - now apply in_map.
      - apply String.eqb_eq. now rewrite Hk. }
    f_equal. destruct l; [congruence|reflexivity].
Qed.

Lemma merge_nonempty_rows left right :
  Forall (fun row => row <> []) (rows left) ->
  Forall (fun row => row <> []) (rows (inner_join left right)).
Proof.
  intros Hne. apply Forall_forall. intros row Hin. simpl in Hin.
  apply in_flat_map in Hin. destruct Hin as [l [Hl Hrow]].
  apply in_map_iff in Hrow. destruct Hrow as [r [<- _]].
  rewrite Forall_forall in Hne. specialize (Hne l Hl).
  destruct l; [congruence|discriminate].
Qed.

Lemma merge_unique_keys left right :
  unique_keys left -> unique_keys right ->
  unique_keys (inner_join left right) /\
  shape0 (inner_join left right) <= shape0 left /\
  shape0 (inner_join left right) <= shape0 right.
Proof.
  intros [Hne Hnd] [_ Hnd'].
  pose proof (merge_keys (rows left) (rows right) Hne Hnd') as Hkeys.
  assert (Hnd_m : NoDup (map row_key (rows (inner_join left right)))).
  { simpl. rewrite Hkeys. now apply NoDup_filter. }
  assert (Hlen : forall T, List.length (map row_key (rows T))
                           = List.length (rows T))
    by (intros; apply length_map).
  split; [|split].
  - split; [now apply merge_nonempty_rows|exact Hnd_m].
  - unfold shape0. rewrite <- (Hlen (inner_join left right)), <- (Hlen left).
    simpl (rows (inner_join left right)). rewrite Hkeys.
    pose proof (filter_length_le
                  (fun k => existsb (String.eqb k) (map row_key (rows right)))
                  (map row_key (rows left))). lia.
  - unfold shape0. rewrite <- (Hlen (inner_join left right)), <- (Hlen right).
    apply inj_le. apply NoDup_incl_length; [exact Hnd_m|].
    simpl (rows (inner_join left right)). rewrite Hkeys. intros k Hk.
    apply filter_In in Hk. destruct Hk as [_ Hex].
    apply existsb_exists in Hex. destruct Hex as [k' [Hin Heq]].
    apply String.eqb_eq in Heq. now subst.
Qed.

Lemma csv_frame_unique_keys m c :
  NoDup (content_ids c) -> unique_keys (csv_frame m c).
Proof.
  unfold content_ids. intros Hnd. split; simpl.
  - apply Forall_forall. intros row Hin. apply in_map_iff in Hin.
    destruct Hin as [l [<- _]]. discriminate.
  - rewrite map_map. simpl. exact Hnd.
Qed.

Lemma csv_frame_shape0 m c :
  shape0 (csv_frame m c) = Z.of_nat (List.length (content_lines c)).
Proof. unfold shape0. simpl. now rewrite length_map. Qed.

(** Two integers that are written the same are the same. *)
Lemma render_id_inj a b : render_id a = render_id b -> a = b.
Proof.
  unfold render_id. intros H.
  apply (f_equal NilEmpty.int_of_string) in H.
  rewrite !NilEmpty.isi in H. injection H as H.
  apply (f_equal Z.of_int) in H. now rewrite !DecimalZ.of_to in H.
Qed.

(** Integer ids are repeated as text only when they are as
    integers. *)
Lemma int_ids_unique lines :
  NoDup (map fst lines) -> NoDup (content_ids (IntIds lines)).
Proof.
  unfold content_ids. simpl. rewrite map_map. simpl.
  induction lines as [|[z path] lines IH]; simpl; intros Hnd.
  - constructor.
  - inversion Hnd as [|? ? Hz Hrest]; subst. constructor; [|now apply IH].
    intros Hin. apply Hz. apply in_map_iff in Hin.
    destruct Hin as [[z' path'] [Heq Hin]]. simpl in Heq.
    apply render_id_inj in Heq. subst z'.
    apply in_map_iff. now exists (z, path').
Qed.

(** ** [read_csv] and [merge] *)

Lemma read_csv_Returned m c t :
  read_csv m c = Returned t ->
  t = csv_frame m c /\ m <> "subject_id" /\ c <> Unparsable.
Proof.
  unfold read_csv. destruct (String.eqb_spec m "subject_id"); [discriminate|].
  destruct c; [discriminate| |]; intros H; injection H as <-;
    repeat split; auto; discriminate.
Qed.

Lemma read_csv_Raised {m c e} : read_csv m c = Raised e -> e = ValueError.
Proof.
  unfold read_csv. destruct (String.eqb m "subject_id");
    [intros H; now injection H|].
  destruct c; [intros H; now injection H|discriminate|discriminate].
Qed.

Lemma read_csv_plain m c :
  m <> "subject_id" -> c <> Unparsable ->
  read_csv m c = Returned (csv_frame m c).
Proof.
  intros Hm Hc. unfold read_csv.
  destruct (String.eqb_spec m "subject_id"); [contradiction|].
  destruct c; [contradiction|reflexivity|reflexivity].
Qed.

Lemma merge_Returned {l r t} : merge l r = Returned t -> t = inner_join l r.
Proof.
  unfold merge. destruct (_ && _); [discriminate|].
  intros H. now injection H.
Qed.

Lemma merge_Raised {l r e} : merge l r = Raised e -> e = ValueError.
Proof.
  unfold merge. destruct (_ && _); [|discriminate].
  intros H. now injection H.
Qed.

Lemma dtype_eqb_refl d : dtype_eqb d d = true.
Proof. now destruct d. Qed.

Lemma dtype_eqb_neq a b : a <> b -> dtype_eqb a b = false.
Proof. destruct a, b; intros H; try reflexivity; now destruct H. Qed.

Lemma merge_same_dtype l r :
  key_dtype l = key_dtype r -> merge l r = Returned (inner_join l r).
Proof.
  intros H. unfold merge. rewrite H, dtype_eqb_refl.
  now rewrite andb_false_r.
Qed.

(** ** [load_and_merge_csv_files] *)

Local Infix "+++" := String.append (at level 60, right associativity).

Lemma merge_loop_step m section rest acc w :
  merge_loop ((m, section) :: rest) acc w =
  match files w (csv_file section) with
  | None =>
      (Raised IOError,
       add_log [LogFatal ("csv file " +++ csv_file section +++ " not found.")]
               w)
  | Some c =>
      match read_csv m c with
      | Raised e => (Raised e, w)
      | Returned csv_list =>
          match acc with
          | None => merge_loop rest (Some csv_list) w
          | Some file_list =>
              match merge file_list csv_list with
              | Raised e => (Raised e, w)
              | Returned joint =>
                  merge_loop rest (Some joint)
                    (if negb (shape0 joint =? shape0 file_list)
                     then add_log [LogWarning ("rows not matched in "
                                               +++ csv_file section)] w
                     else w)
              end
          end
      end
  end.
Proof.
  cbn [merge_loop]. unfold os_path_isfile, pandas_read_csv. mrun.
  destruct (files w (csv_file section)) as [c|] eqn:Hf; [|reflexivity].
  cbv beta iota. rewrite Hf.
  destruct (read_csv m c) as [csv_list|e]; [|reflexivity].
  destruct acc as [file_list|]; [|reflexivity].
  destruct (merge file_list csv_list) as [joint|e]; [|reflexivity].
  destruct (shape0 joint =? shape0 file_list); reflexivity.
Qed.

(** One step of the loop that returns has read the manifest and, past
    the first manifest, joined it. *)
Lemma merge_loop_step_Returned m section rest acc w t w' :
  merge_loop ((m, section) :: rest) acc w = (Returned t, w') ->
  exists c w1,
    files w (csv_file section) = Some c /\
    m <> "subject_id" /\ c <> Unparsable /\
    files w1 = files w /\ self w1 = self w /\ rng w1 = rng w /\
    merge_loop rest
      (Some (match acc with
             | None => csv_frame m c
             | Some file_list => inner_join file_list (csv_frame m c)
             end)) w1 = (Returned t, w') /\
    (acc = None -> w1 = w).
Proof.
  rewrite merge_loop_step. intros Hrun.
  destruct (files w (csv_file section)) as [c|]; [|discriminate].
  destruct (read_csv m c) as [csv_list|e] eqn:Hcsv; [|discriminate].
  apply read_csv_Returned in Hcsv. destruct Hcsv as [-> [Hm Hc]].
  destruct acc as [file_list|].
  - destruct (merge file_list (csv_frame m c)) as [joint|e] eqn:Hj;
      [|discriminate].
    apply merge_Returned in Hj. subst joint.
    eexists c, _. split; [reflexivity|]. split; [exact Hm|].
    split; [exact Hc|].
    split; [|split; [|split; [|split; [exact Hrun|discriminate]]]];
      destruct (negb _); reflexivity.
  - exists c, w. repeat split; auto.
Qed.

Lemma merge_loop_rows items :
  forall acc w t w',
    (forall m section c,
        In (m, section) items ->
        files w (csv_file section) = Some c -> NoDup (content_ids c)) ->
    (forall a, acc = Some a -> unique_keys a) ->
    merge_loop items acc w = (Returned (Some t), w') ->
    unique_keys t /\
    (forall a, acc = Some a -> shape0 t <= shape0 a) /\
    (forall m section c,
        In (m, section) items ->
        files w (csv_file section) = Some c ->
        shape0 t <= Z.of_nat (List.length (content_lines c))).
Proof.
  induction items as [|[m section] rest IH]; intros acc w t w' Hfiles Hacc Hrun.
  - simpl in Hrun. injection Hrun as -> _. split; [now apply Hacc|].
    split; [|intros ? ? ? []]. intros a Ha. injection Ha as <-. lia.
  - apply merge_loop_step_Returned in Hrun.
    destruct Hrun as [c [w1 [Hf [_ [_ [Hw1 [_ [_ [Hrun _]]]]]]]]].
    assert (Hnd : NoDup (content_ids c))
      by (eapply Hfiles; [left; reflexivity|exact Hf]).
    pose proof (csv_frame_unique_keys m c Hnd) as Hcsv.
    destruct acc as [file_list|].
    + destruct (merge_unique_keys file_list (csv_frame m c)
                  (Hacc _ eq_refl) Hcsv) as [Hok [Hleft Hright]].
      destruct (IH (Some (inner_join file_list (csv_frame m c))) w1 t w')
        as [Ht [Hle Hrest]]; [| |exact Hrun|].
      * intros m' s' l' Hin Hl'. rewrite Hw1 in Hl'.
        eapply Hfiles; [right; exact Hin|exact Hl'].
      * intros a Ha. injection Ha as <-. exact Hok.
      * specialize (Hle _ eq_refl). split; [exact Ht|]. split.
        -- intros a Ha. injection Ha as <-. lia.
        -- intros m' s' l' [Heq|Hin] Hl'.
           ++ injection Heq as <- <-. rewrite Hf in Hl'. injection Hl' as <-.
              rewrite csv_frame_shape0 in Hright. lia.
           ++ apply (Hrest m' s' l' Hin). now rewrite Hw1.
    + destruct (IH (Some (csv_frame m c)) w1 t w')
        as [Ht [Hle Hrest]]; [| |exact Hrun|].
      * intros m' s' l' Hin Hl'. rewrite Hw1 in Hl'.
        eapply Hfiles; [right; exact Hin|exact Hl'].
      * intros a Ha. injection Ha as <-. exact Hcsv.
      * specialize (Hle _ eq_refl). split; [exact Ht|]. split.
        -- intros a Ha. discriminate.
        -- intros m' s' l' [Heq|Hin] Hl'.
           ++ injection Heq as <- <-. rewrite Hf in Hl'. injection Hl' as <-.
              rewrite csv_frame_shape0 in Hle. lia.
           ++ apply (Hrest m' s' l' Hin). now rewrite Hw1.
Qed.

Lemma load_and_merge_Returned data_param w t w' :
  load_and_merge_csv_files data_param w = (Returned t, w') ->
  merge_loop data_param None w = (Returned (Some t), w') /\ size t <> 0.
Proof.
  unfold load_and_merge_csv_files. mrun.
  destruct (merge_loop data_param None w) as [[[file_list|]|e] w1];
    try discriminate.
  destruct (Z.eqb_spec (size file_list) 0); [discriminate|].
  intros H. injection H as <- <-. auto.
Qed.

(** C5 (amended): when no manifest repeats a subject id, the ids taken
    as [read_csv] parses them, the joint table has at most as many rows
    as each manifest has lines; a join that loses rows logs a warning
    and the loop goes on with the smaller table. *)
Theorem merge_row_count data_param w :
  (forall m section c,
      In (m, section) data_param ->
      files w (csv_file section) = Some c -> NoDup (content_ids c)) ->
  (forall t w',
      load_and_merge_csv_files data_param w = (Returned t, w') ->
      forall m section c,
        In (m, section) data_param ->
        files w (csv_file section) = Some c ->
        shape0 t <= Z.of_nat (List.length (content_lines c))) /\
  (forall m section c rest file_list csv_list joint w0,
      files w0 (csv_file section) = Some c ->
      NoDup (content_ids c) ->
      unique_keys file_list ->
      read_csv m c = Returned csv_list ->
      merge file_list csv_list = Returned joint ->
      shape0 joint <= shape0 file_list /\
      merge_loop ((m, section) :: rest) (Some file_list) w0 =
      merge_loop rest (Some joint)
        (if shape0 joint <? shape0 file_list
         then add_log [LogWarning ("rows not matched in "
                                   +++ csv_file section)] w0
         else w0)).
Proof.
  intros Hfiles. split.
  - intros t w' Hrun m section c Hin Hf.
    apply load_and_merge_Returned in Hrun. destruct Hrun as [Hrun _].
    destruct (merge_loop_rows data_param None w t w' Hfiles) as [_ [_ H]];
      [discriminate|exact Hrun|].
    now apply (H m section c).
  - intros m section c rest file_list csv_list joint w0 Hf Hnd Hok Hcsv Hj.
    destruct (read_csv_Returned _ _ _ Hcsv) as [-> _].
    pose proof (merge_Returned Hj) as ->.
    destruct (merge_unique_keys file_list (csv_frame m c) Hok
                (csv_frame_unique_keys m c Hnd)) as [_ [Hle _]].
    split; [exact Hle|].
    rewrite merge_loop_step, Hf, Hcsv, Hj.
    replace (negb (shape0 (inner_join file_list (csv_frame m c))
                   =? shape0 file_list))
      with (shape0 (inner_join file_list (csv_frame m c))
            <? shape0 file_list); [reflexivity|].
    destruct (Z.ltb_spec (shape0 (inner_join file_list (csv_frame m c)))
                         (shape0 file_list)),
             (Z.eqb_spec (shape0 (inner_join file_list (csv_frame m c)))
                         (shape0 file_list)); simpl; lia.
Qed.

(** C6 (the failing case): with no manifest at all the merge raises
    [AttributeError], neither an I/O error nor a table. *)
Theorem merge_of_no_manifest w :
  load_and_merge_csv_files [] w = (Raised AttributeError, w).
Proof. reflexivity. Qed.

(** With plain manifests, all of dtype [d], the loop raises the I/O
    error of a missing file or returns. *)
Lemma merge_loop_plain items d :
  forall acc w,
    (forall m section c,
        In (m, section) items -> files w (csv_file section) = Some c ->
        m <> "subject_id" /\ c <> Unparsable /\ content_dtype c = d) ->
    (forall a, acc = Some a -> key_dtype a = d) ->
    ((exists m section, In (m, section) items /\
                        files w (csv_file section) = None) /\
     fst (merge_loop items acc w) = Raised IOError) \/
    ((forall m section, In (m, section) items ->
                        files w (csv_file section) <> None) /\
     exists t w1,
       merge_loop items acc w = (Returned t, w1) /\
       (t = None -> acc = None /\ items = [])).
Proof.
  induction items as [|[m section] rest IH]; intros acc w Hplain Hacc.
  - right. split; [intros ? ? []|]. exists acc, w. simpl. unfold ret. auto.
  - rewrite merge_loop_step.
    destruct (files w (csv_file section)) as [c|] eqn:Hfs.
    2:{ left. split; [|reflexivity]. exists m, section. split; [now left|auto]. }
    destruct (Hplain m section c (or_introl eq_refl) Hfs) as [Hm [Hc Hd]].
    rewrite (read_csv_plain m c Hm Hc).
    assert (Hstep : exists a' w0,
               match acc with
               | Some file_list =>
                   match merge file_list (csv_frame m c) with
                   | Returned joint =>
                       merge_loop rest (Some joint)
                         (if negb (shape0 joint =? shape0 file_list)
                          then add_log [LogWarning ("rows not matched in "
                                                    +++ csv_file section)] w
                          else w)
                   | Raised e => (Raised e, w)
                   end
               | None => merge_loop rest (Some (csv_frame m c)) w
               end = merge_loop rest (Some a') w0 /\
               files w0 = files w /\ key_dtype a' = d).
    { destruct acc as [file_list|].
      - rewrite merge_same_dtype
          by (rewrite (Hacc _ eq_refl); symmetry; exact Hd).
        eexists _, _. split; [reflexivity|].
        split; [destruct (negb _); reflexivity|]. simpl. now apply Hacc.
      - eexists _, _. split; [reflexivity|]. split; [reflexivity|exact Hd]. }
    destruct Hstep as [a' [w0 [-> [Hf0 Hd']]]].
    destruct (IH (Some a') w0) as [[[m' [s' [Hin Hnone]]] Hrun]
                                  |[Hall [t [w1 [Hrun Hnone]]]]].
    + intros m' s' c' Hin Hc'. rewrite Hf0 in Hc'.
      apply (Hplain m' s' c'); [now right|exact Hc'].
    + intros a Ha. injection Ha as <-. exact Hd'.
    + left. split; [|exact Hrun]. exists m', s'. rewrite <- Hf0.
      split; [now right|exact Hnone].
    + right. split.
      * intros m' s' [Heq|Hin].
        -- injection Heq as <- <-. congruence.
        -- rewrite <- Hf0. now apply (Hall m' s').
      * exists t, w1. split; [exact Hrun|]. intros Ht.
        apply Hnone in Ht. destruct Ht. discriminate.
Qed.

(** With every file there, a section named [subject_id] makes the loop
    raise [ValueError]: at that section, unless it did before. *)
Lemma merge_loop_subject_id items section0 :
  forall acc w,
    (forall m section, In (m, section) items ->
                       files w (csv_file section) <> None) ->
    In ("subject_id", section0) items ->
    fst (merge_loop items acc w) = Raised ValueError.
Proof.
  induction items as [|[m section] rest IH]; intros acc w Hall Hin.
  - destruct Hin.
  - rewrite merge_loop_step.
    destruct (files w (csv_file section)) as [c|] eqn:Hfs;
      [|exfalso; eapply Hall; [left; reflexivity|exact Hfs]].
    destruct (read_csv m c) as [csv_list|e] eqn:Hcsv;
      [|now rewrite (read_csv_Raised Hcsv)].
    apply read_csv_Returned in Hcsv. destruct Hcsv as [-> [Hm _]].
    assert (Hrest : In ("subject_id", section0) rest).
    { destruct Hin as [Heq|Hin]; [|exact Hin].
      injection Heq as -> _. now destruct Hm. }
    destruct acc as [file_list|].
    + destruct (merge file_list (csv_frame m c)) as [joint|e] eqn:Hj;
        [|now rewrite (merge_Raised Hj)].
      apply IH; [|exact Hrest]. intros m' s' Hin'.
      destruct (negb _); apply (Hall m' s'); now right.
    + apply IH; [|exact Hrest]. intros m' s' Hin'.
      apply (Hall m' s'). now right.
Qed.

(** X5: for at least one manifest, all plain, the merge behaves as
    documented: an I/O error when a CSV file is missing or the joint
    table is empty, the joint table otherwise.  Whatever the manifests,
    it raises [ValueError] when every file is there and a section is
    named [subject_id], and when the first two manifests have lines and
    id columns of different dtypes. *)
Lemma merge_of_some_manifests data_param w :
  data_param <> [] ->
  (plain_manifests (files w) data_param ->
   (exists m section, In (m, section) data_param /\
                      files w (csv_file section) = None) ->
   fst (load_and_merge_csv_files data_param w) = Raised IOError) /\
  (plain_manifests (files w) data_param ->
   (forall m section, In (m, section) data_param ->
                      files w (csv_file section) <> None) ->
   exists joint w1,
     merge_loop data_param None w = (Returned (Some joint), w1) /\
     fst (load_and_merge_csv_files data_param w) =
     if size joint =? 0 then Raised IOError else Returned joint) /\
  ((forall m section, In (m, section) data_param ->
                      files w (csv_file section) <> None) ->
   (exists section, In ("subject_id", section) data_param) ->
   fst (load_and_merge_csv_files data_param w) = Raised ValueError) /\
  (forall a sa ca b sb cb rest,
      data_param = (a, sa) :: (b, sb) :: rest ->
      files w (csv_file sa) = Some ca -> files w (csv_file sb) = Some cb ->
      content_lines ca <> [] -> content_lines cb <> [] ->
      content_dtype ca <> content_dtype cb ->
      load_and_merge_csv_files data_param w = (Raised ValueError, w)).
Proof.
  intros Hne. split; [|split; [|split]].
  - intros [d Hplain] [m [section [Hin Hnone]]].
    destruct (merge_loop_plain data_param d None w Hplain)
      as [[_ H]|[Hall _]]; [discriminate| |].
    + unfold load_and_merge_csv_files. mrun.
      destruct (merge_loop data_param None w) as [[t|e] w1]; simpl in H;
        [discriminate|]. injection H as ->. reflexivity.
    + now destruct (Hall m section Hin).
  - intros [d Hplain] Hall.
    destruct (merge_loop_plain data_param d None w Hplain)
      as [[[m [section [Hin Hnone]]] _]|[_ [t [w1 [Hrun Hnone]]]]];
      [discriminate| |].
    + now destruct (Hall m section Hin).
    + destruct t as [joint|]; [|destruct (Hnone eq_refl); congruence].
      exists joint, w1. split; [exact Hrun|].
      unfold load_and_merge_csv_files. mrun. rewrite Hrun.
      destruct (size joint =? 0); reflexivity.
  - intros Hall [section0 Hin].
    pose proof (merge_loop_subject_id data_param section0 None w Hall Hin)
      as H.
    unfold load_and_merge_csv_files. mrun.
    destruct (merge_loop data_param None w) as [[t|e] w1]; simpl in H;
      [discriminate|]. injection H as ->. reflexivity.
  - intros a sa ca b sb cb rest -> Hfa Hfb Hla Hlb Hd.
    assert (Hloop : merge_loop ((a, sa) :: (b, sb) :: rest) None w
                    = (Raised ValueError, w)).
    { rewrite merge_loop_step, Hfa.
      destruct (read_csv a ca) as [csv_a|e] eqn:Ha;
        [|now rewrite (read_csv_Raised Ha)].
      apply read_csv_Returned in Ha. destruct Ha as [-> _].
      rewrite merge_loop_step, Hfb.
      destruct (read_csv b cb) as [csv_b|e] eqn:Hb;
        [|now rewrite (read_csv_Raised Hb)].
      apply read_csv_Returned in Hb. destruct Hb as [-> _].
      unfold merge, has_rows. cbn [csv_frame rows key_dtype].
      rewrite (dtype_eqb_neq _ _ Hd).
      destruct (content_lines ca); [now destruct Hla|].
      destruct (content_lines cb); [now destruct Hlb|]. reflexivity. }
    unfold load_and_merge_csv_files. mrun. rewrite Hloop. reflexivity.
Qed.

(** ** Computations that do not touch the reader *)

Lemma keeps_self_ret {A} (a : A) : keeps_self (ret a).
Proof. intros w. reflexivity. Qed.

Lemma keeps_self_raise {A} e : keeps_self (raise e : M A).
Proof. intros w. reflexivity. Qed.

Lemma keeps_self_lift {A} (o : outcome A) : keeps_self (lift o).
Proof. intros w. reflexivity. Qed.

Lemma keeps_self_emit ev : keeps_self (emit ev).
Proof. intros w. reflexivity. Qed.

Lemma keeps_self_get {A} (f : ImageReader -> A) : keeps_self (get f).
Proof. intros w. reflexivity. Qed.

Lemma keeps_self_read_file path : keeps_self (read_file path).
Proof. intros w. reflexivity. Qed.

Lemma keeps_self_bind {A B} (m : M A) (k : A -> M B) :
  keeps_self m -> (forall a, keeps_self (k a)) -> keeps_self (bind m k).
Proof.
  intros Hm Hk w. unfold bind. specialize (Hm w).
  destruct (m w) as [[a|e] w1]; simpl in *.
  - now rewrite Hk.
  - exact Hm.
Qed.

Lemma keeps_self_mapM {A B} (f : A -> M B) xs :
  (forall x, keeps_self (f x)) -> keeps_self (mapM f xs).
Proof.
  intros Hf. induction xs as [|x xs IH]; simpl.
  - apply keeps_self_ret.
  - apply keeps_self_bind; [apply Hf|]. intros y.
    apply keeps_self_bind; [exact IH|]. intros ys. apply keeps_self_ret.
Qed.

Create HintDb frame.
#[local] Hint Resolve keeps_self_ret keeps_self_raise keeps_self_lift
  keeps_self_emit keeps_self_get keeps_self_read_file : frame.

Ltac frame :=
  repeat (first
    [ apply keeps_self_bind; [|intros ?]
    | apply keeps_self_mapM; intros ?
    | progress auto with frame
    | match goal with
      | |- keeps_self (match ?x with _ => _ end) => destruct x
      | |- keeps_self (if ?x then _ else _) => destruct x
      end ]).

Lemma keeps_self_merge_loop items : forall acc, keeps_self (merge_loop items acc).
Proof.
  induction items as [|[m section] rest IH]; intros acc; simpl.
  - apply keeps_self_ret.
  - unfold os_path_isfile, pandas_read_csv, tf_logging_fatal,
      tf_logging_warning. frame.
Qed.

Lemma keeps_self_load_and_merge data_param :
  keeps_self (load_and_merge_csv_files data_param).
Proof.
  unfold load_and_merge_csv_files, tf_logging_fatal.
  apply keeps_self_bind; [apply keeps_self_merge_loop|]. intros acc. frame.
Qed.

Lemma keeps_self_load_sources name sources data_param :
  forall acc, keeps_self (load_sources name sources data_param acc).
Proof.
  induction sources as [|source rest IH]; intros acc; simpl.
  - apply keeps_self_ret.
  - unfold tf_logging_fatal. frame.
Qed.

Lemma keeps_self_load_names ns data_param :
  forall acc, keeps_self (load_names ns data_param acc).
Proof.
  induction ns as [|n rest IH]; intros acc; simpl.
  - apply keeps_self_ret.
  - frame. apply keeps_self_load_sources.
Qed.

Lemma keeps_self_create_image file_list idx modalities data_param :
  keeps_self (create_image file_list idx modalities data_param).
Proof. unfold create_image, tf_logging_fatal. frame. Qed.

Lemma keeps_self_filename_to_image_list file_list mod_dict data_param :
  keeps_self (filename_to_image_list file_list mod_dict data_param).
Proof.
  unfold filename_to_image_list. frame. apply keeps_self_create_image.
Qed.

Lemma keeps_self_input_sources : keeps_self input_sources.
Proof. unfold input_sources, tf_logging_fatal. frame. Qed.

Lemma keeps_self_len_output_list : keeps_self len_output_list.
Proof. unfold len_output_list. frame. Qed.

Lemma keeps_self_names_property : keeps_self names.
Proof. unfold names. frame. Qed.

Lemma keeps_self_fatal msg : keeps_self (tf_logging_fatal msg).
Proof. intros w. reflexivity. Qed.

Lemma keeps_self_warning msg : keeps_self (tf_logging_warning msg).
Proof. intros w. reflexivity. Qed.

Lemma keeps_self_info msg : keeps_self (tf_logging_info msg).
Proof. intros w. reflexivity. Qed.

#[local] Hint Resolve keeps_self_merge_loop keeps_self_load_and_merge
  keeps_self_load_sources keeps_self_load_names keeps_self_create_image
  keeps_self_filename_to_image_list keeps_self_input_sources
  keeps_self_len_output_list keeps_self_names_property
  keeps_self_fatal keeps_self_warning keeps_self_info : frame.

(** ** [initialise_reader] *)

Lemma keeps_self_names {A} (m : M A) : keeps_self m -> keeps_names m.
Proof. intros H w. now rewrite H. Qed.

Lemma keeps_names_bind {A B} (m : M A) (k : A -> M B) :
  keeps_names m -> (forall a, keeps_names (k a)) -> keeps_names (bind m k).
Proof.
  intros Hm Hk w. unfold bind. specialize (Hm w).
  destruct (m w) as [[a|e] w1]; simpl in *.
  - now rewrite Hk.
  - exact Hm.
Qed.

Lemma keeps_names_modify f :
  (forall r, _names (f r) = _names r) -> keeps_names (modify f).
Proof. intros H w. simpl. apply H. Qed.

Lemma initialise_reader_names data_param task_param w :
  _names (self w) <> [] ->
  _names (self (snd (initialise_reader data_param task_param w)))
  = active_fields task_param (_names (self w)).
Proof.
  intros Hne. unfold initialise_reader.
  unfold bind at 1. unfold names at 1, get at 1. cbv beta iota.
  destruct (_names (self w)) as [|n ns] eqn:Hn; [congruence|].
  unfold bind at 1. unfold modify at 1. cbv beta iota.
  match goal with
  | |- _names (self (snd (?m ?w0))) = _ =>
      transitivity (_names (self w0)); [|reflexivity];
      generalize w0; change (keeps_names m)
  end.
  repeat (first
    [ apply keeps_names_bind; [|intros ?]
    | apply keeps_names_modify; reflexivity
    | apply keeps_self_names; frame ]).
Qed.

Lemma active_fields_In task_param fields field :
  In field (active_fields task_param fields) <->
  In field fields /\
  exists sources, dict_get task_param field = Some sources /\ sources <> [].
Proof.
  unfold active_fields. rewrite filter_In. split; intros [Hin H]; split; auto.
  - destruct (dict_get task_param field) as [[|s l]|]; try discriminate.
    exists (s :: l). split; [reflexivity|discriminate].
  - destruct H as [[|s l] [-> Hl]]; [congruence|reflexivity].
Qed.

Lemma initialise_reader_no_active data_param task_param w :
  active_fields task_param (_names (self w)) = [] ->
  fst (initialise_reader data_param task_param w)
  = Raised (match _names (self w) with
            | [] => ValueError
            | _ :: _ => AttributeError
            end).
Proof.
  intros Hact. unfold initialise_reader.
  unfold bind at 1. unfold names at 1, get at 1. cbv beta iota.
  destruct (_names (self w)) as [|n ns] eqn:Hn; [reflexivity|].
  fold (active_fields task_param (n :: ns)). rewrite Hact.
  reflexivity.
Qed.

Ltac binv H :=
  let a := fresh "a" in
  let w1 := fresh "w" in
  let H1 := fresh "H" in
  apply bind_Returned in H; destruct H as (a & w1 & H1 & H).

Lemma keeps_self_run {A} (m : M A) w o w' :
  keeps_self m -> m w = (o, w') -> self w' = self w.
Proof. intros Hm Hrun. specialize (Hm w). now rewrite Hrun in Hm. Qed.

Lemma mapM_Returned {A B} (f : A -> M B) xs :
  forall w ys w',
    mapM f xs w = (Returned ys, w') ->
    Forall2 (fun x y => exists w1 w2, f x w1 = (Returned y, w2)) xs ys.
Proof.
  induction xs as [|x xs IH]; intros w ys w' Hrun; simpl in Hrun.
  - injection Hrun as <- _. constructor.
  - binv Hrun. binv Hrun. injection Hrun as <- _.
    constructor; [eauto|]. eapply IH; eassumption.
Qed.

Lemma filename_to_image_list_records file_list mod_dict data_param w vl w' :
  filename_to_image_list file_list mod_dict data_param w = (Returned vl, w') ->
  List.length vl = List.length (rows file_list) /\
  Forall (fun rec : record => same_keys rec (dict_keys mod_dict)) vl.
Proof.
  intros Hrun. apply mapM_Returned in Hrun. split.
  - apply Forall2_length in Hrun. now rewrite length_seq in Hrun.
  - apply Forall_forall. intros rec Hin.
    assert (exists idx w1 w2 items,
               mapM (fun fm => bind (create_image file_list idx (snd fm)
                                                  data_param)
                                    (fun img => ret (fst fm, img)))
                    mod_dict w1 = (Returned items, w2) /\
               rec = dict_of_items items) as (idx & w1 & w2 & items & Hm & ->).
    { clear -Hrun Hin. induction Hrun as [|idx rec' xs ys Hhd _ IH];
        [destruct Hin|].
      destruct Hin as [<-|Hin]; [|now apply IH].
      destruct Hhd as (w1 & w2 & Hhd). binv Hhd. injection Hhd as <- _.
      eauto 6. }
    apply mapM_Returned in Hm.
    assert (map fst items = map fst mod_dict) as Hkeys.
    { clear -Hm. induction Hm as [|fm item xs ys Hhd _ IH]; [reflexivity|].
      simpl. rewrite IH. f_equal.
      destruct Hhd as (w1 & w2 & Hhd). binv Hhd. now injection Hhd as <- _. }
    intros x. rewrite (dict_of_items_keys items x), Hkeys. reflexivity.
Qed.

Lemma load_names_nil data_param acc w :
  load_names [] data_param acc w = (Returned acc, w).
Proof. reflexivity. Qed.

Lemma initialise_reader_initialised data_param task_param w w' :
  initialise_reader data_param task_param w = (Returned tt, w') ->
  initialised (self w') /\
  _names (self w') = active_fields task_param (_names (self w)).
Proof.
  intros Hrun. unfold initialise_reader in Hrun.
  binv Hrun. unfold names, get in H. injection H as <- <-.
  destruct (_names (self w)) as [|n ns] eqn:Hn; [discriminate|].
  fold (active_fields task_param (n :: ns)) in Hrun.
  set (act := active_fields task_param (n :: ns)) in *.
  binv Hrun. unfold modify in H. injection H as _ <-.
  binv Hrun. unfold get in H. injection H as <- <-.
  binv Hrun. unfold modify in H. injection H as _ <-.
  binv Hrun. unfold get in H. injection H as <- <-.
  cbn [self _names set__names set__input_sources] in Hrun.
  binv Hrun. rename H into Hload, w0 into w1.
  apply (keeps_self_run _ _ _ _ (keeps_self_load_names _ _ _)) in Hload as Hs1.
  binv Hrun. rename H into Hmerge, w0 into w2.
  apply (keeps_self_run _ _ _ _ (keeps_self_load_and_merge _)) in Hmerge as Hs2.
  binv Hrun. unfold modify in H. injection H as _ <-.
  binv Hrun. unfold get in H. injection H as <- <-.
  cbn [self _input_sources set__file_list] in Hrun.
  rewrite Hs2, Hs1 in Hrun. cbn [self _input_sources set__input_sources] in Hrun.
  binv Hrun. rename H into Hbuild, w0 into w3.
  apply (keeps_self_run _ _ _ _ (keeps_self_filename_to_image_list _ _ _))
    in Hbuild as Hs3.
  binv Hrun. unfold modify in H. injection H as _ <-.
  binv Hrun. unfold names, get in H. injection H as <- <-.
  binv Hrun. rename H into Hinfo. injection Hrun as <-.
  apply keeps_self_run in Hinfo as Hs4; [|frame].
  simpl in Hs1, Hs3, Hs4.
  assert (Hnames : _names (self w0) = act).
  { rewrite Hs4. simpl. rewrite Hs3. reflexivity. }
  split; [|exact Hnames]. unfold initialised. rewrite Hnames. split.
  - intros Hact. rewrite Hact in Hload.
    rewrite load_names_nil in Hload. injection Hload as <- <-.
    discriminate Hmerge.
  - eexists. split; [rewrite Hs4; reflexivity|].
    apply load_and_merge_Returned in Hmerge. destruct Hmerge as [_ Hsize].
    apply filename_to_image_list_records in Hbuild.
    destruct Hbuild as [Hlen Hkeys]. split.
    + intros ->. simpl in Hlen. unfold size in Hsize.
      rewrite <- Hlen in Hsize. simpl in Hsize. lia.
    + eapply Forall_impl; [|exact Hkeys]. intros rec Hrec x.
      rewrite (Hrec x), (dict_of_items_keys _ x), map_map. simpl.
      now rewrite map_id.
Qed.

(** C7: [initialise_reader] keeps exactly the fields that have a
    non-empty entry in the task schema, and fails when none is left:
    with [ValueError] when no field was given at all, and otherwise in
    [load_and_merge_csv_files], which is handed no manifest. *)
Theorem empty_active_field_set_is_fatal data_param task_param w :
  let active := active_fields task_param (_names (self w)) in
  (forall field,
      In field active <->
      In field (_names (self w)) /\
      exists sources,
        dict_get task_param field = Some sources /\ sources <> []) /\
  (_names (self w) <> [] ->
   _names (self (snd (initialise_reader data_param task_param w))) = active) /\
  (active = [] ->
   fst (initialise_reader data_param task_param w)
   = Raised (match _names (self w) with
             | [] => ValueError
             | _ :: _ => AttributeError
             end)).
Proof.
  intros active. split; [|split].
  - intros field. apply active_fields_In.
  - apply initialise_reader_names.
  - apply initialise_reader_no_active.
Qed.

(** ** [initialised] is kept by the operations of the reader *)

Lemma layer_op_self idx shuffle w :
  self (snd (layer_op idx shuffle w)) = self w \/
  self (snd (layer_op idx shuffle w))
  = set_current_id (current_id (self w) + 1) (self w).
Proof.
  destruct (sequential_mode (idx, shuffle)) eqn:Hmode.
  - right. unfold sequential_mode in Hmode. simpl in Hmode.
    destruct idx, shuffle; try discriminate.
    rewrite layer_op_sequential, serve_self. reflexivity.
  - left. now apply layer_op_not_sequential_self.
Qed.

Lemma layer_op_initialised idx shuffle w :
  initialised (self w) -> initialised (self (snd (layer_op idx shuffle w))).
Proof.
  intros Hinit. destruct (layer_op_self idx shuffle w) as [-> | ->];
    exact Hinit.
Qed.

Lemma add_preprocessing_layers_initialised layers w :
  initialised (self w) ->
  fst (add_preprocessing_layers layers w) = Returned tt /\
  initialised (self (snd (add_preprocessing_layers layers w))).
Proof. intros Hinit. split; [reflexivity|exact Hinit]. Qed.

(** ** The cached properties *)

Lemma bind_eq {A B} (m : M A) (k : A -> M B) w a w1 :
  m w = (Returned a, w1) -> bind m k w = k a w1.
Proof. intros H. unfold bind. now rewrite H. Qed.

Lemma mapM_getitem {V} (f : image -> V) (rec : record) fields w :
  (forall field, In field fields -> In field (dict_keys rec)) ->
  mapM (fun field => img <- lift (getitem rec field) ;; ret (field, f img))
       fields w
  = (Returned (flat_map (fun field => match dict_get rec field with
                                      | Some img => [(field, f img)]
                                      | None => []
                                      end) fields), w).
Proof.
  induction fields as [|field fields IH]; intros Hin; [reflexivity|].
  cbn [mapM flat_map].
  destruct (dict_get_In rec field (Hin field (or_introl eq_refl)))
    as [img Himg].
  rewrite (bind_eq _ _ w (field, f img) w).
  - rewrite (bind_eq _ _ w _ w (IH (fun x Hx => Hin x (or_intror Hx)))).
    rewrite Himg. reflexivity.
  - unfold bind, lift, getitem. rewrite Himg. reflexivity.
Qed.

Lemma from_first_record_not_nil {V} (f : image -> V) (rec : record) fields :
  fields <> [] ->
  (forall field, In field fields -> In field (dict_keys rec)) ->
  from_first_record f rec fields <> [].
Proof.
  intros Hne Hin. apply dict_of_items_not_nil.
  destruct fields as [|field fields]; [congruence|]. simpl.
  destruct (dict_get_In rec field (Hin field (or_introl eq_refl)))
    as [img ->]. discriminate.
Qed.

Lemma initialised_first_record r :
  initialised r ->
  exists rec0 rest,
    output_list r = Some (rec0 :: rest) /\
    _names r <> [] /\
    (forall field, In field (_names r) -> In field (dict_keys rec0)).
Proof.
  intros [Hne [l [Hol [Hl Hrecs]]]]. destruct l as [|rec0 rest]; [congruence|].
  exists rec0, rest. split; [exact Hol|]. split; [exact Hne|].
  inversion Hrecs as [|? ? Hrec _]; subst. intros field. apply Hrec.
Qed.

Lemma shapes_uninitialised w :
  truthy_list (output_list (self w)) = false ->
  fst (shapes w) = Raised RuntimeError /\
  fst (tf_dtypes w) = Raised RuntimeError.
Proof.
  intros H. unfold shapes, tf_dtypes, require_output_list. mrun.
  rewrite H. split; reflexivity.
Qed.

Lemma shapes_cached w d :
  truthy_list (output_list (self w)) = true ->
  _shapes (self w) = Some d -> d <> [] ->
  shapes w = (Returned d, w).
Proof.
  intros Hol Hc Hd. unfold shapes, require_output_list. mrun.
  rewrite Hol. cbv beta iota. rewrite Hc.
  destruct d; [congruence|reflexivity].
Qed.

Lemma tf_dtypes_cached w d :
  truthy_list (output_list (self w)) = true ->
  _dtypes (self w) = Some d -> d <> [] ->
  tf_dtypes w = (Returned d, w).
Proof.
  intros Hol Hc Hd. unfold tf_dtypes, require_output_list. mrun.
  rewrite Hol. cbv beta iota. rewrite Hc.
  destruct d; [congruence|reflexivity].
Qed.

Lemma shapes_fresh w rec0 rest :
  output_list (self w) = Some (rec0 :: rest) ->
  (forall field, In field (_names (self w)) -> In field (dict_keys rec0)) ->
  truthy_dict (_shapes (self w)) = false ->
  shapes w =
  let d := from_first_record shape rec0 (_names (self w)) in
  (Returned d, set_self (set__shapes (Some d) (self w)) w).
Proof.
  intros Hol Hin Hc. unfold shapes, require_output_list, first_record.
  unfold bind at 1. unfold bind at 1. unfold get at 1. rewrite Hol.
  cbn [truthy_list]. unfold ret at 1. unfold bind at 1. unfold get at 1.
  assert (forall (k : M (dict shape_t)) w0,
             match _shapes (self w) with
             | Some (kv :: d) => ret (kv :: d)
             | _ => k
             end w0 = k w0) as ->.
  { intros k w0. destruct (_shapes (self w)) as [[|kv d]|];
      try reflexivity. discriminate. }
  unfold bind at 1. unfold bind at 1. unfold get at 1. rewrite Hol.
  unfold ret at 1. unfold bind at 1. unfold names, get at 1.
  unfold bind at 1. rewrite (mapM_getitem shape rec0 _ w Hin).
  reflexivity.
Qed.

Lemma tf_dtypes_fresh w rec0 rest :
  output_list (self w) = Some (rec0 :: rest) ->
  (forall field, In field (_names (self w)) -> In field (dict_keys rec0)) ->
  truthy_dict (_dtypes (self w)) = false ->
  tf_dtypes w =
  let d := from_first_record infer_tf_dtypes rec0 (_names (self w)) in
  (Returned d, set_self (set__dtypes (Some d) (self w)) w).
Proof.
  intros Hol Hin Hc. unfold tf_dtypes, require_output_list, first_record.
  unfold bind at 1. unfold bind at 1. unfold get at 1. rewrite Hol.
  cbn [truthy_list]. unfold ret at 1. unfold bind at 1. unfold get at 1.
  assert (forall (k : M (dict tf_dtype)) w0,
             match _dtypes (self w) with
             | Some (kv :: d) => ret (kv :: d)
             | _ => k
             end w0 = k w0) as ->.
  { intros k w0. destruct (_dtypes (self w)) as [[|kv d]|];
      try reflexivity. discriminate. }
  unfold bind at 1. unfold bind at 1. unfold get at 1. rewrite Hol.
  unfold ret at 1. unfold bind at 1. unfold names, get at 1.
  unfold bind at 1. rewrite (mapM_getitem infer_tf_dtypes rec0 _ w Hin).
  reflexivity.
Qed.

(** C8: [shapes] and [tf_dtypes] raise [RuntimeError] while the catalog
    is missing or empty; on an initialised reader each returns the same
    mapping on two successive calls, computed from record 0 when the
    cache is empty, stored, and from then on read from the cache alone. *)
Theorem shapes_and_dtypes_cached w :
  (truthy_list (output_list (self w)) = false ->
   fst (shapes w) = Raised RuntimeError /\
   fst (tf_dtypes w) = Raised RuntimeError) /\
  (initialised (self w) ->
   memoized shapes _shapes shape w /\
   memoized tf_dtypes _dtypes infer_tf_dtypes w).
Proof.
  split; [apply shapes_uninitialised|]. intros Hinit.
  destruct (initialised_first_record _ Hinit)
    as (rec0 & rest & Hol & Hne & Hin).
  assert (Htruthy : truthy_list (output_list (self w)) = true)
    by now rewrite Hol.
  split.
  - destruct (_shapes (self w)) as [[|kv d]|] eqn:Hc.
    2:{ exists (kv :: d), w.
        assert (Hrun : shapes w = (Returned (kv :: d), w))
          by (apply shapes_cached; [assumption|assumption|discriminate]).
        repeat split; try assumption.
        - intros w2 Hc2 Hol2. apply shapes_cached; [assumption|assumption|discriminate].
        - rewrite Hc. discriminate. }
    all: pose proof (from_first_record_not_nil shape rec0 _ Hne Hin) as Hd;
      pose proof (shapes_fresh w rec0 rest Hol Hin) as Hrun;
      rewrite Hc in Hrun; specialize (Hrun eq_refl); cbv zeta in Hrun;
      eexists; eexists; split; [exact Hrun|]; split;
      [apply shapes_cached; [simpl; now rewrite Hol|reflexivity|exact Hd]|];
      split; [reflexivity|]; split;
      [intros w2 Hc2 Hol2; now apply shapes_cached|];
      intros _; exists rec0, rest; split; [exact Hol|reflexivity].
  - destruct (_dtypes (self w)) as [[|kv d]|] eqn:Hc.
    2:{ exists (kv :: d), w.
        assert (Hrun : tf_dtypes w = (Returned (kv :: d), w))
          by (apply tf_dtypes_cached; [assumption|assumption|discriminate]).
        repeat split; try assumption.
        - intros w2 Hc2 Hol2. apply tf_dtypes_cached; [assumption|assumption|discriminate].
        - rewrite Hc. discriminate. }
    all: pose proof (from_first_record_not_nil infer_tf_dtypes rec0 _ Hne Hin)
        as Hd;
      pose proof (tf_dtypes_fresh w rec0 rest Hol Hin) as Hrun;
      rewrite Hc in Hrun; specialize (Hrun eq_refl); cbv zeta in Hrun;
      eexists; eexists; split; [exact Hrun|]; split;
      [apply tf_dtypes_cached; [simpl; now rewrite Hol|reflexivity|exact Hd]|];
      split; [reflexivity|]; split;
      [intros w2 Hc2 Hol2; now apply tf_dtypes_cached|];
      intros _; exists rec0, rest; split; [exact Hol|reflexivity].
Qed.


(** ** Further properties of the reader *)

(** X1: [infer_tf_dtypes]: the integer, unsigned and boolean kinds map to
    [tf.int32]; every other kind, known or not, maps to [tf.float32]. *)
Theorem infer_tf_dtypes_kinds (img : image) :
  (In (dtype_kind img) ["i"; "u"; "b"] -> infer_tf_dtypes img = tf_int32) /\
  (~ In (dtype_kind img) ["i"; "u"; "b"] -> infer_tf_dtypes img = tf_float32).
Proof.
  unfold infer_tf_dtypes, NP_TF_DTYPES. cbn [dict_get].
  destruct (String.eqb_spec "i" (dtype_kind img)) as [Hi|Hi].
  { split; [reflexivity|]. intros H. exfalso. apply H. now left. }
  destruct (String.eqb_spec "u" (dtype_kind img)) as [Hu|Hu].
  { split; [reflexivity|]. intros H. exfalso. apply H. right. now left. }
  destruct (String.eqb_spec "b" (dtype_kind img)) as [Hb|Hb].
  { split; [reflexivity|]. intros H. exfalso. apply H. right. right. now left. }
  split.
  - intros [H|[H|[H|[]]]]; congruence.
  - intros _. destruct (String.eqb "f" (dtype_kind img)); reflexivity.
Qed.

(** ** [create_image] *)

Lemma map_outcome_Returned {A B} (f : A -> outcome B) xs ys :
  map_outcome f xs = Returned ys <-> Forall2 (fun x y => f x = Returned y) xs ys.
Proof.
  revert ys. induction xs as [|x xs IH]; intros ys; simpl.
  - split; intros H; [injection H as <-; constructor|now inversion H].
  - destruct (f x) as [y|e] eqn:Hx.
    + destruct (map_outcome f xs) as [ys'|e].
      * split; intros H.
        -- injection H as <-. constructor; [exact Hx|now apply IH].
        -- inversion H as [|? y' ? ys'' Hy Hrest]; subst.
           apply IH in Hrest. congruence.
      * split; intros H; [discriminate|].
        inversion H as [|? y' ? ys'' Hy Hrest]; subst.
        apply IH in Hrest. discriminate.
    + split; intros H; [discriminate|].
      inversion H as [|? y' ? ys'' Hy Hrest]; subst. congruence.
Qed.

Lemma map_outcome_Raised {A B} (f : A -> outcome B) xs e :
  map_outcome f xs = Raised e -> exists x, In x xs /\ f x = Raised e.
Proof.
  induction xs as [|x xs IH]; simpl; [discriminate|].
  destruct (f x) as [y|e'] eqn:Hx.
  - destruct (map_outcome f xs) as [ys|e'']; [discriminate|].
    intros H. injection H as ->. destruct (IH eq_refl) as [x' [Hin Hx']].
    eauto.
  - intros H. injection H as ->. eauto.
Qed.

Lemma map_outcome_total {A B} (f : A -> outcome B) xs :
  (forall x, In x xs -> exists y, f x = Returned y) ->
  exists ys, map_outcome f xs = Returned ys.
Proof.
  intros Hall. destruct (map_outcome f xs) as [ys|e] eqn:Hrun; [eauto|].
  apply map_outcome_Raised in Hrun. destruct Hrun as [x [Hin Hx]].
  destruct (Hall x Hin) as [y Hy]. congruence.
Qed.

Lemma loc_Raised df idx col e : loc df idx col = Raised e -> e = KeyError.
Proof.
  unfold loc. destruct (nth_error (rows df) idx) as [row|];
    [|intros H; now injection H].
  destruct (index_of col (columns df)) as [j|]; [|intros H; now injection H].
  destruct (nth_error row j); [discriminate|intros H; now injection H].
Qed.

Lemma getitem_Raised {V} (d : dict V) k e :
  getitem d k = Raised e -> e = KeyError.
Proof.
  unfold getitem. destruct (dict_get d k); [discriminate|].
  intros H. now injection H.
Qed.

Lemma attr_Returned {A} (f : input_section -> A) data_param ms os :
  Forall2 (fun m o =>
             match getitem data_param m with
             | Returned section => Returned (f section)
             | Raised e => Raised e
             end = Returned o) ms os ->
  Forall2 (fun m o => exists section, dict_get data_param m = Some section /\
                                      o = f section) ms os.
Proof.
  apply Forall2_impl. intros m o. unfold getitem.
  destruct (dict_get data_param m) as [section|]; [|discriminate].
  intros H. injection H as <-. eauto.
Qed.

Lemma image_properties_Returned file_list idx modalities data_param img :
  image_properties file_list idx modalities data_param = Returned img ->
  modalities = Some (name img) /\ image_of_row file_list idx data_param img.
Proof.
  unfold image_properties. destruct modalities as [l|]; [|discriminate].
  cbn [tuple_of].
  destruct (map_outcome (loc file_list idx) l) as [ps|] eqn:H1; [|discriminate].
  destruct (map_outcome _ l) as [os|] eqn:H2 in |- *; [|discriminate].
  destruct (map_outcome _ l) as [pds|] eqn:H3 in |- *; [|discriminate].
  destruct (map_outcome _ l) as [acs|] eqn:H4 in |- *; [|discriminate].
  intros H. injection H as <-. cbn [name file_path interp_order output_pixdim
                                    output_axcodes].
  split; [reflexivity|]. unfold image_of_row. cbn.
  apply map_outcome_Returned in H1, H2, H3, H4.
  repeat split; [exact H1| | |]; now apply attr_Returned.
Qed.

Lemma image_properties_Raised file_list idx l data_param e :
  image_properties file_list idx (Some l) data_param = Raised e ->
  e = KeyError.
Proof.
  unfold image_properties. cbn [tuple_of].
  assert (Hattr : forall A (f : input_section -> A) e',
             map_outcome (fun m => match getitem data_param m with
                                   | Returned section => Returned (f section)
                                   | Raised e => Raised e
                                   end) l = Raised e' -> e' = KeyError).
  { intros A f e' H. apply map_outcome_Raised in H.
    destruct H as [m [_ Hm]].
    destruct (getitem data_param m) eqn:Hg; [discriminate|].
    injection Hm as <-. eapply getitem_Raised, Hg. }
  destruct (map_outcome (loc file_list idx) l) as [ps|e1] eqn:H1.
  2:{ intros H. injection H as <-. apply map_outcome_Raised in H1.
      destruct H1 as [m [_ Hm]]. eapply loc_Raised, Hm. }
  destruct (map_outcome _ l) as [os|e2] eqn:H2 in |- *.
  2:{ intros H. injection H as <-. eapply Hattr, H2. }
  destruct (map_outcome _ l) as [pds|e3] eqn:H3 in |- *.
  2:{ intros H. injection H as <-. eapply Hattr, H3. }
  destruct (map_outcome _ l) as [acs|e4] eqn:H4 in |- *; [discriminate|].
  intros H. injection H as <-. eapply Hattr, H4.
Qed.

Lemma create_image_inv file_list idx modalities data_param w img w' :
  create_image file_list idx modalities data_param w = (Returned img, w') ->
  w' = w /\ modalities = Some (name img) /\
  image_of_row file_list idx data_param img.
Proof.
  unfold create_image.
  destruct (image_properties file_list idx modalities data_param)
    as [img'|e] eqn:Hp.
  - unfold lift. intros H. injection H as <- <-. split; [reflexivity|].
    now apply image_properties_Returned.
  - destruct e; unfold lift; discriminate.
Qed.

(** X2: [create_image] on success changes nothing and returns an image
    named by its modalities that holds, modality by modality, the file
    path of the requested row and the section's interpolation order,
    pixel spacing and axis codes. *)
Theorem create_image_Returned file_list idx modalities data_param w img w' :
  create_image file_list idx modalities data_param w = (Returned img, w') ->
  w' = w /\ modalities = Some (name img) /\
  image_of_row file_list idx data_param img.
Proof. exact (create_image_inv file_list idx modalities data_param w img w'). Qed.

Lemma index_of_Some c cols j :
  index_of c cols = Some j -> (j < List.length cols)%nat /\ nth_error cols j = Some c.
Proof.
  revert j. induction cols as [|c' cols IH]; intros j; simpl; [discriminate|].
  destruct (String.eqb_spec c' c) as [->|_].
  - intros H. injection H as <-. split; [lia|reflexivity].
  - destruct (index_of c cols) as [n|]; [|discriminate].
    intros H. injection H as <-. destruct (IH n eq_refl). split; [lia|easy].
Qed.

Lemma index_of_In c cols : In c cols -> exists j, index_of c cols = Some j.
Proof.
  induction cols as [|c' cols IH]; simpl; [tauto|].
  destruct (String.eqb_spec c' c) as [->|Hne]; [eauto|].
  intros [H|H]; [congruence|]. destruct (IH H) as [j ->]. eauto.
Qed.

Lemma index_of_None c cols : index_of c cols = None -> ~ In c cols.
Proof.
  intros H Hin. destruct (index_of_In c cols Hin). congruence.
Qed.

(** X3: [create_image] raises [KeyError], after a fatal log entry, as soon
    as one modality of the field is no section of the configuration or
    no column of the table. *)
Theorem create_image_missing_modality file_list idx l data_param w :
  (exists m, In m l /\ (dict_get data_param m = None \/
                        index_of m (columns file_list) = None)) ->
  create_image file_list idx (Some l) data_param w
  = (Raised KeyError,
     add_log [LogFatal "Specified modality names not found in config"] w).
Proof.
  intros [m [Hin Hmiss]]. unfold create_image.
  destruct (image_properties file_list idx (Some l) data_param)
    as [img|e] eqn:Hp.
  - exfalso. apply image_properties_Returned in Hp.
    destruct Hp as [Hname [Hloc [Hsec _]]]. injection Hname as Hname.
    rewrite <- Hname in Hloc, Hsec. destruct Hmiss as [Hm|Hm].
    + clear -Hin Hm Hsec. induction Hsec as [|m' o ms os Hhd _ IH];
        [destruct Hin|].
      destruct Hin as [->|Hin]; [|now apply IH].
      destruct Hhd as [section [Hs _]]. congruence.
    + clear -Hin Hm Hloc. induction Hloc as [|m' o ms os Hhd _ IH];
        [destruct Hin|].
      destruct Hin as [->|Hin]; [|now apply IH].
      unfold loc in Hhd. rewrite Hm in Hhd.
      destruct (nth_error (rows file_list) idx); discriminate.
  - apply image_properties_Raised in Hp. subst e. reflexivity.
Qed.

Lemma create_image_succeeds file_list idx row l data_param w :
  nth_error (rows file_list) idx = Some row ->
  List.length row = List.length (columns file_list) ->
  (forall m, In m l -> In m (columns file_list) /\
                       dict_get data_param m <> None) ->
  exists img, create_image file_list idx (Some l) data_param w
              = (Returned img, w).
Proof.
  intros Hrow Hlen Hall. unfold create_image, image_properties.
  cbn [tuple_of].
  destruct (map_outcome_total (loc file_list idx) l) as [ps ->].
  { intros m Hin. destruct (Hall m Hin) as [Hcol _].
    destruct (index_of_In _ _ Hcol) as [j Hj]. unfold loc.
    rewrite Hrow, Hj. apply index_of_Some in Hj. destruct Hj as [Hlt _].
    destruct (nth_error row j) as [cell|] eqn:Hcell; [eauto|].
    apply nth_error_None in Hcell. lia. }
  assert (Hattr : forall A (f : input_section -> A),
             exists os,
               map_outcome (fun m => match getitem data_param m with
                                     | Returned section => Returned (f section)
                                     | Raised e => Raised e
                                     end) l = Returned os).
  { intros A f. apply map_outcome_total. intros m Hin.
    destruct (Hall m Hin) as [_ Hsec]. unfold getitem.
    destruct (dict_get data_param m); [eauto|congruence]. }
  destruct (Hattr _ param_interp_order) as [os ->].
  destruct (Hattr _ pixdim) as [pds ->].
  destruct (Hattr _ axcodes) as [acs ->].
  eexists. reflexivity.
Qed.

(** ** [filename_to_image_list] *)

Lemma dict_get_set {V} (d : dict V) k v k' :
  dict_get (dict_set d k v) k' =
  if String.eqb k k' then Some v else dict_get d k'.
Proof.
  induction d as [|[k0 v0] d IH]; simpl.
  - reflexivity.
  - destruct (String.eqb_spec k0 k) as [->|Hne]; simpl.
    + destruct (String.eqb k k'); reflexivity.
    + rewrite IH. destruct (String.eqb_spec k0 k') as [->|_]; [|reflexivity].
      destruct (String.eqb_spec k k'); [congruence|reflexivity].
Qed.

Lemma fold_dict_set_get_In {V} (items : list (string * V)) :
  forall d0 k v,
    dict_get (fold_left (fun d kv => dict_set d (fst kv) (snd kv)) items d0) k
    = Some v ->
    dict_get d0 k = Some v \/ In (k, v) items.
Proof.
  induction items as [|[k1 v1] items IH]; intros d0 k v H; simpl in *.
  - now left.
  - destruct (IH _ _ _ H) as [Hd|Hin]; [|right; now right].
    rewrite dict_get_set in Hd. simpl in Hd.
    destruct (String.eqb_spec k1 k) as [->|_]; [|now left].
    injection Hd as ->. right. now left.
Qed.

Lemma dict_of_items_get_In {V} (items : list (string * V)) k v :
  dict_get (dict_of_items items) k = Some v -> In (k, v) items.
Proof.
  intros H. apply fold_dict_set_get_In in H. destruct H as [H|H];
    [discriminate|exact H].
Qed.

Lemma mapM_Returned_world {A B} (f : A -> M B) xs :
  (forall x w y w', f x w = (Returned y, w') -> w' = w) ->
  forall w ys w', mapM f xs w = (Returned ys, w') ->
                  w' = w /\ Forall2 (fun x y => f x w = (Returned y, w)) xs ys.
Proof.
  intros Hf. induction xs as [|x xs IH]; intros w ys w' Hrun; simpl in Hrun.
  - injection Hrun as <- <-. split; [reflexivity|constructor].
  - binv Hrun. binv Hrun. injection Hrun as <- <-.
    pose proof (Hf _ _ _ _ H) as ->.
    destruct (IH _ _ _ H0) as [-> Hrest]. split; [reflexivity|].
    constructor; assumption.
Qed.

Lemma mapM_total {A B} (f : A -> M B) xs w :
  (forall x, In x xs -> exists y, f x w = (Returned y, w)) ->
  exists ys, mapM f xs w = (Returned ys, w).
Proof.
  induction xs as [|x xs IH]; intros Hall; simpl.
  - exists []. reflexivity.
  - destruct (Hall x (or_introl eq_refl)) as [y Hy].
    destruct IH as [ys Hys]; [intros x' Hx'; apply Hall; now right|].
    exists (y :: ys). rewrite (bind_eq _ _ _ _ _ Hy).
    rewrite (bind_eq _ _ _ _ _ Hys). reflexivity.
Qed.

Lemma Forall2_nth_error_r {A B} (R : A -> B -> Prop) xs ys :
  Forall2 R xs ys ->
  forall i y, nth_error ys i = Some y ->
              exists x, nth_error xs i = Some x /\ R x y.
Proof.
  induction 1 as [|x y xs ys Hxy _ IH]; intros i y' Hi.
  - destruct i; discriminate.
  - destruct i as [|i]; simpl in *.
    + injection Hi as <-. eauto.
    + now apply IH.
Qed.

Lemma nth_error_seq_inv len : forall start i x,
  nth_error (seq start len) i = Some x -> x = (start + i)%nat.
Proof.
  induction len as [|len IH]; intros start i x H; simpl in H.
  - destruct i; discriminate.
  - destruct i as [|i]; simpl in H.
    + injection H as <-. lia.
    + apply IH in H. lia.
Qed.

Lemma record_of_row file_list idx mod_dict data_param w rec w' :
  bind (mapM (fun fm => bind (create_image file_list idx (snd fm) data_param)
                             (fun img => ret (fst fm, img)))
             mod_dict)
       (fun items => ret (dict_of_items items)) w = (Returned rec, w') ->
  w' = w /\
  same_keys rec (dict_keys mod_dict) /\
  forall field img,
    dict_get rec field = Some img ->
    In (field, Some (name img)) mod_dict /\
    image_of_row file_list idx data_param img.
Proof.
  intros Hrun. binv Hrun. injection Hrun as <- <-.
  apply mapM_Returned_world in H.
  2:{ intros fm w1 y w2 Hy. binv Hy. injection Hy as _ <-.
      now apply create_image_inv in H0. }
  destruct H as [-> Hitems]. split; [reflexivity|].
  assert (Hfacts : Forall2 (fun fm item =>
                              fst item = fst fm /\
                              snd fm = Some (name (snd item)) /\
                              image_of_row file_list idx data_param (snd item))
                           mod_dict a).
  { eapply Forall2_impl; [|exact Hitems]. intros fm item Hy. binv Hy.
    injection Hy as <- _. apply create_image_inv in H.
    destruct H as [_ [Hname Himg]]. auto. }
  split.
  - intros x. rewrite (dict_of_items_keys a x). unfold dict_keys.
    replace (map fst a) with (map fst mod_dict); [reflexivity|].
    clear -Hfacts. induction Hfacts as [|fm item xs ys [Hf _] _ IH];
      [reflexivity|]. simpl. now rewrite IH, Hf.
  - intros field img Hget. apply dict_of_items_get_In in Hget.
    clear -Hfacts Hget. induction Hfacts as [|fm item xs ys Hhd _ IH];
      [destruct Hget|].
    destruct Hget as [->|Hin].
    + destruct Hhd as [Hf [Hn Himg]]. simpl in *. split; [|exact Himg].
      left. destruct fm as [f ms]. simpl in *. now subst.
    + destruct (IH Hin) as [H1 H2]. split; [now right|exact H2].
Qed.

Lemma filename_to_image_list_inv
        file_list mod_dict data_param w vl w' :
  filename_to_image_list file_list mod_dict data_param w = (Returned vl, w') ->
  w' = w /\
  List.length vl = List.length (rows file_list) /\
  forall i rec,
    nth_error vl i = Some rec ->
    same_keys rec (dict_keys mod_dict) /\
    forall field img,
      dict_get rec field = Some img ->
      In (field, Some (name img)) mod_dict /\
      image_of_row file_list i data_param img.
Proof.
  intros Hrun. unfold filename_to_image_list in Hrun.
  apply mapM_Returned_world in Hrun.
  2:{ intros idx w1 rec w2 Hrec. now apply record_of_row in Hrec. }
  destruct Hrun as [-> Hrecs]. split; [reflexivity|]. split.
  - apply Forall2_length in Hrecs. now rewrite length_seq in Hrecs.
  - intros i rec Hi.
    destruct (Forall2_nth_error_r _ _ _ Hrecs i rec Hi) as [idx [Hidx Hrec]].
    apply nth_error_seq_inv in Hidx. simpl in Hidx. subst idx.
    apply record_of_row in Hrec. tauto.
Qed.

(** X4: [filename_to_image_list] on success changes nothing and returns one
    record per row of the table, in row order: record [i] is keyed by
    the fields of [mod_dict] and each of its images is built from row
    [i] for the modalities [mod_dict] gives its field. *)
Theorem filename_to_image_list_Returned
        file_list mod_dict data_param w vl w' :
  filename_to_image_list file_list mod_dict data_param w = (Returned vl, w') ->
  w' = w /\
  List.length vl = List.length (rows file_list) /\
  forall i rec,
    nth_error vl i = Some rec ->
    same_keys rec (dict_keys mod_dict) /\
    forall field img,
      dict_get rec field = Some img ->
      In (field, Some (name img)) mod_dict /\
      image_of_row file_list i data_param img.
Proof. exact (filename_to_image_list_inv file_list mod_dict data_param w vl w'). Qed.

Lemma filename_to_image_list_succeeds file_list mod_dict data_param w :
  rectangular file_list ->
  (forall field ms,
      In (field, ms) mod_dict ->
      exists l, ms = Some l /\
                forall m, In m l -> In m (columns file_list) /\
                                    dict_get data_param m <> None) ->
  exists vl, filename_to_image_list file_list mod_dict data_param w
             = (Returned vl, w).
Proof.
  intros Hrect Hmods. unfold filename_to_image_list.
  apply mapM_total. intros idx Hidx. apply in_seq in Hidx.
  destruct (nth_error (rows file_list) idx) as [row|] eqn:Hrow.
  2:{ apply nth_error_None in Hrow. lia. }
  assert (Hlen : List.length row = List.length (columns file_list)).
  { unfold rectangular in Hrect. rewrite Forall_forall in Hrect.
    apply Hrect. eapply nth_error_In, Hrow. }
  destruct (mapM_total
              (fun fm => bind (create_image file_list idx (snd fm) data_param)
                              (fun img => ret (fst fm, img)))
              mod_dict w) as [items Hitems].
  { intros [field ms] Hin. destruct (Hmods field ms Hin) as [l [-> Hl]].
    destruct (create_image_succeeds file_list idx row l data_param w
                Hrow Hlen Hl) as [img Himg].
    exists (field, img). simpl. now rewrite (bind_eq _ _ _ _ _ Himg). }
  exists (dict_of_items items). now rewrite (bind_eq _ _ _ _ _ Hitems).
Qed.

(** ** The joint table *)

Lemma merge_rectangular left m c :
  rectangular left -> rectangular (inner_join left (csv_frame m c)).
Proof.
  unfold rectangular. rewrite !Forall_forall. intros Hl row Hin.
  simpl in Hin. apply in_flat_map in Hin. destruct Hin as [l [Hlin Hrow]].
  apply in_map_iff in Hrow. destruct Hrow as [r [<- Hr]].
  apply filter_In in Hr. destruct Hr as [Hr _].
  apply in_map_iff in Hr. destruct Hr as [line [<- _]].
  simpl. rewrite !length_app. simpl. now rewrite (Hl l Hlin).
Qed.

Lemma csv_frame_rectangular m c : rectangular (csv_frame m c).
Proof.
  unfold rectangular. rewrite Forall_forall. intros row Hin. simpl in Hin.
  apply in_map_iff in Hin. destruct Hin as [line [<- _]]. reflexivity.
Qed.

Lemma merge_loop_shape items :
  forall acc w t w',
    merge_loop items acc w = (Returned (Some t), w') ->
    self w' = self w /\ files w' = files w /\
    match acc with
    | Some a =>
        rectangular a ->
        columns t = columns a ++ map fst items /\ rectangular t
    | None =>
        columns t = "subject_id" :: map fst items /\ rectangular t
    end.
Proof.
  induction items as [|[m section] rest IH]; intros acc w t w' Hrun.
  - simpl in Hrun. injection Hrun as -> <-. split; [reflexivity|].
    split; [reflexivity|]. intros Ha. simpl. now rewrite app_nil_r.
  - apply merge_loop_step_Returned in Hrun.
    destruct Hrun as [c [w1 [_ [_ [_ [Hf [Hs [_ [Hrun _]]]]]]]]].
    destruct (IH _ _ _ _ Hrun) as [Hs' [Hf' Hshape]].
    split; [congruence|]. split; [congruence|].
    destruct acc as [a|].
    + intros Ha.
      destruct (Hshape (merge_rectangular a m c Ha)) as [Hc Hr].
      split; [|exact Hr]. rewrite Hc. simpl. now rewrite <- app_assoc.
    + destruct (Hshape (csv_frame_rectangular m c)) as [Hc Hr].
      split; [|exact Hr]. rewrite Hc. reflexivity.
Qed.

Lemma joint_table_facts data_param w t w' :
  load_and_merge_csv_files data_param w = (Returned t, w') ->
  columns t = "subject_id" :: dict_keys data_param /\
  rectangular t /\ rows t <> [] /\
  self w' = self w /\ files w' = files w.
Proof.
  intros Hrun. apply load_and_merge_Returned in Hrun.
  destruct Hrun as [Hrun Hsize].
  destruct (merge_loop_shape _ _ _ _ _ Hrun) as [Hs [Hf [Hc Hr]]].
  repeat split; try assumption.
  intros Hrows. apply Hsize. unfold size. now rewrite Hrows.
Qed.

(** X6: the table [load_and_merge_csv_files] returns is never empty, has the
    column [subject_id] followed by one column per manifest in the order
    of [data_param], and one cell per column in every row; the reader
    and the files are left as they were. *)
Theorem joint_table_shape data_param w t w' :
  load_and_merge_csv_files data_param w = (Returned t, w') ->
  columns t = "subject_id" :: dict_keys data_param /\
  rectangular t /\ rows t <> [] /\
  self w' = self w /\ files w' = files w.
Proof. exact (joint_table_facts data_param w t w'). Qed.

Lemma filter_filter {A} (f g : A -> bool) l :
  filter f (filter g l) = filter (fun x => g x && f x) l.
Proof.
  induction l as [|x l IH]; simpl; [reflexivity|].
  destruct (g x); simpl; [destruct (f x)|]; now rewrite IH.
Qed.

Lemma merge_subjects left right :
  Forall (fun row => row <> []) (rows left) ->
  NoDup (subjects right) ->
  subjects (inner_join left right)
  = filter (fun k => existsb (String.eqb k) (subjects right)) (subjects left).
Proof. intros Hne Hnd. exact (merge_keys (rows left) (rows right) Hne Hnd). Qed.

Lemma csv_frame_subjects m c : subjects (csv_frame m c) = content_ids c.
Proof. unfold subjects, content_ids. simpl. now rewrite map_map. Qed.

Lemma merge_loop_subjects items :
  forall a w t w',
    (forall m section c,
        In (m, section) items ->
        files w (csv_file section) = Some c -> NoDup (content_ids c)) ->
    unique_keys a ->
    merge_loop items (Some a) w = (Returned (Some t), w') ->
    subjects t = filter (in_every (files w) items) (subjects a).
Proof.
  induction items as [|[m section] rest IH]; intros a w t w' Hfiles Ha Hrun.
  - simpl in Hrun. injection Hrun as -> _. simpl.
    induction (subjects t) as [|k ks IHk]; simpl; congruence.
  - apply merge_loop_step_Returned in Hrun.
    destruct Hrun as [c [w1 [Hf [_ [_ [Hw1 [_ [_ [Hrun _]]]]]]]]].
    assert (Hnd : NoDup (content_ids c))
      by (eapply Hfiles; [left; reflexivity|exact Hf]).
    pose proof (csv_frame_unique_keys m c Hnd) as Hcsv.
    destruct (merge_unique_keys a (csv_frame m c) Ha Hcsv) as [Hok _].
    rewrite (IH (inner_join a (csv_frame m c)) w1 t w');
      [| |exact Hok|exact Hrun].
    2:{ intros m' s' l' Hin Hl'. rewrite Hw1 in Hl'.
        eapply Hfiles; [right; exact Hin|exact Hl']. }
    rewrite Hw1. destruct Ha as [Hne Hnda].
    rewrite (merge_subjects a _ Hne (proj2 Hcsv)), filter_filter.
    apply filter_ext. intros k. cbn [in_every forallb snd].
    unfold manifest_ids at 1. rewrite Hf, csv_frame_subjects. reflexivity.
Qed.

(** X7: when no manifest repeats a subject id, the ids taken as
    [read_csv] parses them, the joint table lists the subjects of the
    first manifest that every other manifest lists too, in the order of
    the first manifest. *)
Theorem joint_table_subjects m0 section0 rest w t w' :
  (forall m section c,
      In (m, section) ((m0, section0) :: rest) ->
      files w (csv_file section) = Some c -> NoDup (content_ids c)) ->
  load_and_merge_csv_files ((m0, section0) :: rest) w = (Returned t, w') ->
  subjects t
  = filter (in_every (files w) rest)
           (manifest_ids (files w) (csv_file section0)).
Proof.
  intros Hfiles Hrun. apply load_and_merge_Returned in Hrun.
  destruct Hrun as [Hrun _]. apply merge_loop_step_Returned in Hrun.
  destruct Hrun as [c [w1 [Hf [_ [_ [_ [_ [_ [Hrun Hw1]]]]]]]]].
  rewrite (Hw1 eq_refl) in Hrun. unfold manifest_ids. rewrite Hf.
  rewrite (merge_loop_subjects rest (csv_frame m0 c) w t w');
    [| | |exact Hrun].
  - now rewrite csv_frame_subjects.
  - intros m' s' l' Hin Hl'. eapply Hfiles; [right; exact Hin|exact Hl'].
  - apply csv_frame_unique_keys.
    eapply Hfiles; [left; reflexivity|exact Hf].
Qed.

(** ** The configuration sections [initialise_reader] loads *)

Lemma load_sources_cases name sources data_param :
  forall acc w,
    (exists dtl,
        load_sources name sources data_param acc w = (Returned dtl, w) /\
        (forall s, In s sources -> dict_get data_param s <> None) /\
        (forall k, In k (dict_keys dtl) <->
                   In k (dict_keys acc) \/ In k sources) /\
        (forall k section, dict_get dtl k = Some section ->
                           dict_get acc k = Some section \/
                           dict_get data_param k = Some section)) \/
    (exists w',
        load_sources name sources data_param acc w = (Raised ValueError, w') /\
        self w' = self w /\ files w' = files w /\
        exists s, In s sources /\ dict_get data_param s = None).
Proof.
  induction sources as [|source rest IH]; intros acc w.
  - left. exists acc. simpl. unfold ret. split; [reflexivity|].
    split; [intros s []|]. split; [intros k; tauto|auto].
  - cbn [load_sources].
    destruct (dict_get data_param source) as [section|] eqn:Hs.
    + destruct (IH (dict_set acc source section) w)
        as [[dtl [Hrun [Hall [Hkeys Hvals]]]]|[w' [Hrun [Hself [Hf [s [Hin Hmiss]]]]]]].
      * left. exists dtl. split; [exact Hrun|]. split; [|split].
        -- intros s [<-|Hin]; [congruence|now apply Hall].
        -- intros k. rewrite Hkeys, dict_set_keys. simpl. intuition.
        -- intros k sec Hk. destruct (Hvals k sec Hk) as [Hacc|Hdp];
             [|now right].
           rewrite dict_get_set in Hacc.
           destruct (String.eqb_spec source k) as [<-|_]; [|now left].
           right. congruence.
      * right. exists w'. split; [exact Hrun|]. split; [exact Hself|].
        split; [exact Hf|]. exists s. split; [now right|exact Hmiss].
    + right. eexists. split; [reflexivity|]. split; [reflexivity|].
      split; [reflexivity|]. exists source. split; [now left|exact Hs].
Qed.

Lemma load_names_cases ns data_param src :
  forall acc w,
    _input_sources (self w) = Some src ->
    (forall n, In n ns -> exists l, dict_get src n = Some (Some l)) ->
    (exists dtl,
        load_names ns data_param acc w = (Returned dtl, w) /\
        (forall n l s, In n ns -> dict_get src n = Some (Some l) -> In s l ->
                       In s (dict_keys dtl) /\ dict_get data_param s <> None) /\
        (forall k, In k (dict_keys acc) -> In k (dict_keys dtl)) /\
        (forall k, In k (dict_keys dtl) ->
                   In k (dict_keys acc) \/
                   exists n l, In n ns /\ dict_get src n = Some (Some l) /\
                               In k l) /\
        (forall k section, dict_get dtl k = Some section ->
                           dict_get acc k = Some section \/
                           dict_get data_param k = Some section)) \/
    (exists w',
        load_names ns data_param acc w = (Raised ValueError, w') /\
        self w' = self w /\ files w' = files w /\
        exists n l s, In n ns /\ dict_get src n = Some (Some l) /\ In s l /\
                      dict_get data_param s = None).
Proof.
  induction ns as [|n rest IH]; intros acc w Hsrc Hall.
  - left. exists acc. split; [reflexivity|]. split; [intros ? ? ? []|].
    split; [auto|]. split; auto.
  - cbn [load_names].
    destruct (Hall n (or_introl eq_refl)) as [l Hl].
    assert (Hstep : forall k : list string -> M (dict input_section),
               bind (get _input_sources)
                    (fun src0 =>
                       bind (lift (match src0 with
                                   | None => Raised TypeError
                                   | Some d =>
                                       match getitem d n with
                                       | Returned None => Raised TypeError
                                       | Returned (Some l) => Returned l
                                       | Raised e => Raised e
                                       end
                                   end)) k) w = k l w).
    { intros k. unfold bind at 1. unfold get. rewrite Hsrc.
      unfold bind, lift, getitem. now rewrite Hl. }
    rewrite Hstep.
    destruct (load_sources_cases n l data_param acc w)
      as [[dtl1 [Hrun1 [Hall1 [Hkeys1 Hvals1]]]]
         |[w' [Hrun1 [Hself [Hf [s [Hin Hmiss]]]]]]].
    + rewrite (bind_eq _ _ _ _ _ Hrun1).
      destruct (IH dtl1 w Hsrc (fun n' Hn' => Hall n' (or_intror Hn')))
        as [[dtl [Hrun [Hin [Hinc [Hback Hvals]]]]]
           |[w' [Hrun [Hself [Hf [n' [l' [s [Hn' [Hl' [Hs Hmiss]]]]]]]]]]].
      * left. exists dtl. split; [exact Hrun|]. split; [|split; [|split]].
        -- intros n' l' s [<-|Hn'] Hl' Hs.
           ++ rewrite Hl in Hl'. injection Hl' as <-.
              split; [|now apply Hall1]. apply Hinc, Hkeys1. now right.
           ++ now apply (Hin n' l' s).
        -- intros k Hk. apply Hinc, Hkeys1. now left.
        -- intros k Hk. destruct (Hback k Hk) as [Hk1|[n' [l' [Hn' [Hl' Hkl]]]]].
           ++ apply Hkeys1 in Hk1. destruct Hk1 as [Hk1|Hk1]; [now left|].
              right. exists n, l. split; [now left|auto].
           ++ right. exists n', l'. split; [now right|auto].
        -- intros k sec Hk. destruct (Hvals k sec Hk) as [H1|H1]; [|now right].
           apply Hvals1, H1.
      * right. exists w'. split; [exact Hrun|]. split; [exact Hself|].
        split; [exact Hf|]. exists n', l', s. split; [now right|auto].
    + right. exists w'. unfold bind at 1. rewrite Hrun1.
      split; [reflexivity|]. split; [exact Hself|]. split; [exact Hf|].
      exists n, l, s. split; [now left|auto].
Qed.

Lemma fold_dict_set_map_get {V} (g : string -> V) ks k :
  forall d0,
    In k ks \/ dict_get d0 k = Some (g k) ->
    dict_get (fold_left (fun d kv => dict_set d (fst kv) (snd kv))
                        (map (fun k => (k, g k)) ks) d0) k = Some (g k).
Proof.
  induction ks as [|k1 ks IH]; intros d0 H; simpl.
  - destruct H as [[]|H]. exact H.
  - apply IH. destruct (string_dec k1 k) as [->|Hne].
    + right. rewrite dict_get_set, String.eqb_refl. reflexivity.
    + destruct H as [[H|H]|H]; [congruence|now left|].
      right. rewrite dict_get_set.
      destruct (String.eqb_spec k1 k); [congruence|exact H].
Qed.

Lemma dict_of_items_map_get {V} (g : string -> V) ks k :
  In k ks -> dict_get (dict_of_items (map (fun k => (k, g k)) ks)) k = Some (g k).
Proof. intros H. apply fold_dict_set_map_get. now left. Qed.

Lemma active_fields_sources task_param fields n :
  In n (active_fields task_param fields) ->
  exists s l, dict_get task_param n = Some (s :: l).
Proof.
  intros H. apply active_fields_In in H. destruct H as [_ [[|s l] [H Hne]]];
    [congruence|eauto].
Qed.

(** ** Every outcome of [initialise_reader] *)

Lemma bind_Raised {A B} (m : M A) (k : A -> M B) w e w1 :
  m w = (Raised e, w1) -> bind m k w = (Raised e, w1).
Proof. intros H. unfold bind. now rewrite H. Qed.

Lemma merge_loop_rng items :
  forall acc w, rng (snd (merge_loop items acc w)) = rng w.
Proof.
  induction items as [|[m section] rest IH]; intros acc w; [reflexivity|].
  rewrite merge_loop_step.
  destruct (files w (csv_file section)) as [c|]; [|reflexivity].
  destruct (read_csv m c) as [csv_list|e]; [|reflexivity].
  destruct acc as [a|]; [|apply IH].
  destruct (merge a csv_list) as [joint|e]; [|reflexivity].
  rewrite IH. destruct (negb _); reflexivity.
Qed.

Lemma load_and_merge_rng data_param w :
  rng (snd (load_and_merge_csv_files data_param w)) = rng w.
Proof.
  unfold load_and_merge_csv_files. mrun.
  pose proof (merge_loop_rng data_param None w) as H.
  destruct (merge_loop data_param None w) as [[[fl|]|e] w1]; simpl in *;
    try exact H.
  destruct (size fl =? 0); exact H.
Qed.

Lemma merge_loop_Raised items :
  forall acc w e w', merge_loop items acc w = (Raised e, w') ->
                     e = IOError \/ e = ValueError.
Proof.
  induction items as [|[m section] rest IH]; intros acc w e w' Hrun.
  - discriminate.
  - rewrite merge_loop_step in Hrun.
    destruct (files w (csv_file section)) as [c|];
      [|injection Hrun as <- _; now left].
    destruct (read_csv m c) as [csv_list|e0] eqn:Hcsv.
    2:{ injection Hrun as <- _. right. exact (read_csv_Raised Hcsv). }
    destruct acc as [a|]; [|eapply IH; exact Hrun].
    destruct (merge a csv_list) as [joint|e0] eqn:Hj;
      [eapply IH; exact Hrun|].
    injection Hrun as <- _. right. exact (merge_Raised Hj).
Qed.

Lemma merge_loop_None items :
  forall acc w w', merge_loop items acc w = (Returned None, w') ->
                   acc = None /\ items = [].
Proof.
  induction items as [|[m section] rest IH]; intros acc w w' Hrun.
  - simpl in Hrun. injection Hrun as -> _. auto.
  - apply merge_loop_step_Returned in Hrun.
    destruct Hrun as [c [w1 [_ [_ [_ [_ [_ [_ [Hrun _]]]]]]]]].
    apply IH in Hrun. destruct Hrun. discriminate.
Qed.

Lemma load_and_merge_Raised data_param w e w' :
  load_and_merge_csv_files data_param w = (Raised e, w') ->
  e = IOError \/ e = ValueError \/ (e = AttributeError /\ data_param = []).
Proof.
  unfold load_and_merge_csv_files. mrun.
  destruct (merge_loop data_param None w) as [[[fl|]|e1] w1] eqn:Hrun.
  - destruct (size fl =? 0); [|discriminate].
    intros H. injection H as <- _. now left.
  - intros H. injection H as <- _. right. right. split; [reflexivity|].
    now apply merge_loop_None in Hrun.
  - intros H. injection H as <- _.
    destruct (merge_loop_Raised _ _ _ _ _ Hrun); auto.
Qed.

(** The [ValueError] of the merge is pandas' own: plain manifests do not
    raise it. *)
Lemma load_and_merge_plain data_param w w' :
  plain_manifests (files w) data_param ->
  load_and_merge_csv_files data_param w <> (Raised ValueError, w').
Proof.
  intros [d Hplain]. unfold load_and_merge_csv_files. mrun.
  destruct (merge_loop_plain data_param d None w Hplain)
    as [[_ H]|[_ [t [w1 [H _]]]]]; [discriminate| |].
  - destruct (merge_loop data_param None w) as [[t|e] w1]; simpl in H;
      [discriminate|]. injection H as ->. discriminate.
  - rewrite H. destruct t as [fl|]; [|discriminate].
    destruct (size fl =? 0); discriminate.
Qed.

Lemma mapM_total_inv {A B} (P : world -> Prop) (f : A -> M B) xs :
  (forall x w, In x xs -> P w -> exists y w', f x w = (Returned y, w') /\ P w') ->
  forall w, P w -> exists ys w', mapM f xs w = (Returned ys, w') /\ P w'.
Proof.
  induction xs as [|x xs IH]; intros Hf w Hw.
  - exists [], w. split; [reflexivity|exact Hw].
  - destruct (Hf x w (or_introl eq_refl) Hw) as [y [w1 [Hy Hw1]]].
    destruct (IH (fun x' w' Hx' => Hf x' w' (or_intror Hx')) w1 Hw1)
      as [ys [w2 [Hys Hw2]]].
    exists (y :: ys), w2. split; [|exact Hw2]. simpl.
    rewrite (bind_eq _ _ _ _ _ Hy), (bind_eq _ _ _ _ _ Hys). reflexivity.
Qed.

Lemma dict_set_In {V} (d : dict V) k v kv :
  In kv (dict_set d k v) -> In kv d \/ kv = (k, v).
Proof.
  induction d as [|[k0 v0] d IH]; simpl.
  - intros [<-|[]]. now right.
  - destruct (String.eqb_spec k0 k) as [->|_]; simpl.
    + intros [<-|H]; [now right|left; now right].
    + intros [<-|H]; [left; now left|].
      destruct (IH H) as [H1|H1]; [left; now right|now right].
Qed.

Lemma fold_dict_set_In {V} (items : list (string * V)) :
  forall d0 kv,
    In kv (fold_left (fun d kv => dict_set d (fst kv) (snd kv)) items d0) ->
    In kv d0 \/ In kv items.
Proof.
  induction items as [|[k v] items IH]; intros d0 kv H; simpl in *.
  - now left.
  - destruct (IH _ _ H) as [H1|H1]; [|right; now right].
    apply dict_set_In in H1. destruct H1 as [H1| ->]; [now left|].
    right. now left.
Qed.

Lemma dict_of_items_In {V} (items : list (string * V)) kv :
  In kv (dict_of_items items) -> In kv items.
Proof.
  intros H. apply fold_dict_set_In in H. destruct H as [[]|H]. exact H.
Qed.

Lemma initialise_reader_run data_param task_param w n ns :
  _names (self w) = n :: ns ->
  let act := active_fields task_param (n :: ns) in
  let src := dict_of_items (map (fun name => (name, dict_get task_param name))
                                act) in
  let r1 := set__input_sources (Some src) (set__names act (self w)) in
  (exists w',
      initialise_reader data_param task_param w = (Raised ValueError, w') /\
      self w' = r1 /\
      exists field l s,
        In field act /\ dict_get task_param field = Some l /\ In s l /\
        dict_get data_param s = None) \/
  (exists dtl,
      load_names act data_param [] (set_self r1 w)
      = (Returned dtl, set_self r1 w) /\
      (forall field l s,
          In field act -> dict_get task_param field = Some l -> In s l ->
          In s (dict_keys dtl) /\ dict_get data_param s <> None) /\
      (forall k, In k (dict_keys dtl) ->
                 exists field l, In field act /\
                                 dict_get task_param field = Some l /\
                                 In k l) /\
      (forall k section, dict_get dtl k = Some section ->
                         dict_get data_param k = Some section) /\
      ((exists e w',
           load_and_merge_csv_files dtl (set_self r1 w) = (Raised e, w') /\
           initialise_reader data_param task_param w = (Raised e, w') /\
           self w' = r1) \/
       (exists fl w2 vl w',
           load_and_merge_csv_files dtl (set_self r1 w) = (Returned fl, w2) /\
           filename_to_image_list
             fl src data_param
             (set_self (set__file_list (Some fl) r1) w2)
           = (Returned vl, set_self (set__file_list (Some fl) r1) w2) /\
           initialise_reader data_param task_param w = (Returned tt, w') /\
           self w' = set_output_list (Some vl) (set__file_list (Some fl) r1) /\
           rng w' = rng w /\ files w' = files w))).
Proof.
  intros Hn act src r1.
  assert (Hinit : initialise_reader data_param task_param w =
                  bind (load_names act data_param [])
                       (fun data_to_load =>
      bind (load_and_merge_csv_files data_to_load) (fun file_list =>
      bind (modify (set__file_list (Some file_list))) (fun _ =>
      bind (get _input_sources) (fun src0 =>
      bind (match src0 with
            | Some mod_dict =>
                filename_to_image_list file_list mod_dict data_param
            | None => raise AttributeError
            end) (fun volume_list =>
      bind (modify (set_output_list (Some volume_list))) (fun _ =>
      bind names (fun ns0 =>
      bind (mapM (fun name =>
                    bind input_sources (fun src1 =>
                    bind (lift (getitem src1 name)) (fun _ =>
                    bind len_output_list (fun _ =>
                    tf_logging_info ("image reader: loading [" +++ name
                                     +++ "]")))))
                 ns0) (fun _ => ret tt))))))))
                       (set_self r1 w)).
  { unfold initialise_reader. unfold bind at 1. unfold names at 1, get at 1.
    cbv beta iota. rewrite Hn. reflexivity. }
  assert (Hsrc : forall field, In field act ->
                               exists s l, dict_get src field = Some (Some (s :: l))
                                           /\ dict_get task_param field = Some (s :: l)).
  { intros field Hf. destruct (active_fields_sources _ _ _ Hf) as [s [l Hl]].
    exists s, l. split; [|exact Hl]. subst src.
    rewrite (dict_of_items_map_get (dict_get task_param) act field Hf).
    now rewrite Hl. }
  destruct (load_names_cases act data_param src [] (set_self r1 w) eq_refl)
    as [[dtl [Hload [Hin [_ [Hback Hvals]]]]]
       |[w' [Hload [Hself [_ [field [l [s [Hf [Hl [Hs Hmiss]]]]]]]]]]].
  { intros field Hf. destruct (Hsrc field Hf) as [s [l [H _]]]. eauto. }
  - right. exists dtl. split; [exact Hload|].
    assert (Hsame : forall field l, In field act ->
                      (dict_get src field = Some (Some l) <->
                       dict_get task_param field = Some l)).
    { intros field l Hf. destruct (Hsrc field Hf) as [s [l' [H1 H2]]].
      rewrite H1, H2. split; intros H; injection H as <-; reflexivity. }
    split; [|split; [|split]].
    + intros field l s Hf Hl Hs. apply (Hin field l s Hf); [|exact Hs].
      now apply Hsame.
    + intros k Hk. destruct (Hback k Hk) as [[]|[field [l [Hf [Hl Hkl]]]]].
      exists field, l. split; [exact Hf|]. split; [|exact Hkl].
      now apply Hsame.
    + intros k section Hk. destruct (Hvals k section Hk) as [H|H];
        [discriminate|exact H].
    + rewrite Hinit, (bind_eq _ _ _ _ _ Hload).
      destruct (load_and_merge_csv_files dtl (set_self r1 w))
        as [[fl|e] w2] eqn:Hmerge.
      * right.
        destruct (joint_table_facts _ _ _ _ Hmerge)
          as [Hcols [Hrect [Hrows [Hs2 Hf2]]]].
        pose proof (load_and_merge_rng dtl (set_self r1 w)) as Hg2.
        rewrite Hmerge in Hg2. simpl in Hs2, Hf2, Hg2.
        set (w3 := set_self (set__file_list (Some fl) r1) w2).
        destruct (filename_to_image_list_succeeds fl src data_param w3 Hrect)
          as [vl Hbuild].
        { intros field ms Hfm.
          assert (Hfield : In field act).
          { apply (in_map fst) in Hfm.
            apply (proj1 (dict_of_items_keys _ field)) in Hfm.
            rewrite map_map, map_id in Hfm. exact Hfm. }
          destruct (Hsrc field Hfield) as [s [l [H1 H2]]].
          assert (ms = Some (s :: l)) as ->.
          { apply dict_of_items_In in Hfm.
            apply in_map_iff in Hfm. destruct Hfm as [f' [Heq _]].
            injection Heq as -> <-. exact H2. }
          exists (s :: l). split; [reflexivity|]. intros m Hm.
          destruct (Hin field (s :: l) m Hfield H1 Hm) as [Hk Hdp].
          split; [|exact Hdp]. rewrite Hcols. now right. }
        set (w4 := set_self (set_output_list (Some vl)
                                             (set__file_list (Some fl) r1)) w2).
        destruct (mapM_total_inv
                    (fun w0 => self w0 = self w4 /\ rng w0 = rng w4
                               /\ files w0 = files w4)
                    (fun name =>
                       bind input_sources (fun src1 =>
                       bind (lift (getitem src1 name)) (fun _ =>
                       bind len_output_list (fun _ =>
                       tf_logging_info ("image reader: loading [" +++ name
                                        +++ "]")))))
                    act) with (w := w4) as [ys [w5 [Hloop [Hs5 [Hg5 Hf5]]]]].
        { intros name w0 Hname [Hs0 [Hg0 Hf0]].
          destruct (Hsrc name Hname) as [s [l [H1 _]]].
          assert (Hne : src <> []).
          { intros Hnil. rewrite Hnil in H1. discriminate. }
          eexists. eexists. split.
          - unfold input_sources, len_output_list, getitem. mrun.
            rewrite Hs0. simpl. fold src.
            destruct src as [|kv src'] eqn:Hsrc'; [congruence|].
            cbv beta iota. rewrite H1. cbv beta iota. rewrite Hs0. simpl.
            reflexivity.
          - simpl. auto. }
        { auto. }
        exists fl, w2, vl, w5. split; [reflexivity|]. split.
        { subst w3. exact Hbuild. }
        split.
        { rewrite (bind_eq _ _ _ _ _ Hmerge).
          erewrite bind_eq by reflexivity.
          erewrite bind_eq by reflexivity. simpl (_input_sources _).
          rewrite Hs2. simpl (_input_sources _).
          fold src. fold w3. rewrite (bind_eq _ _ _ _ _ Hbuild).
          erewrite bind_eq by reflexivity.
          erewrite bind_eq by reflexivity.
          exact (bind_eq _ (fun _ => ret tt) _ _ _ Hloop). }
        split; [rewrite Hs5; reflexivity|]. split.
        { rewrite Hg5. simpl. exact Hg2. }
        { rewrite Hf5. simpl. exact Hf2. }
      * left. exists e, w2. split; [reflexivity|].
        split; [now apply bind_Raised|].
        pose proof (keeps_self_load_and_merge dtl (set_self r1 w)) as Hk.
        rewrite Hmerge in Hk. exact Hk.
  - left. exists w'. split.
    + rewrite Hinit. now apply bind_Raised.
    + split; [exact Hself|].
      destruct (Hsrc field Hf) as [s0 [l0 [H1 H2]]].
      exists field, l, s. rewrite H1 in Hl. injection Hl as <-. auto.
Qed.

Lemma dict_get_Some_In {V} (d : dict V) k v :
  dict_get d k = Some v -> In (k, v) d.
Proof.
  induction d as [|[k' v'] d IH]; simpl; [discriminate|].
  destruct (String.eqb_spec k' k) as [->|_].
  - intros H. injection H as ->. now left.
  - intros H. right. now apply IH.
Qed.

Lemma load_sources_entries name sources data_param :
  forall acc w dtl w',
    load_sources name sources data_param acc w = (Returned dtl, w') ->
    forall kv, In kv dtl -> In kv acc \/ In kv data_param.
Proof.
  induction sources as [|source rest IH]; intros acc w dtl w' Hrun kv Hin.
  - simpl in Hrun. injection Hrun as -> _. now left.
  - cbn [load_sources] in Hrun.
    destruct (dict_get data_param source) as [section|] eqn:Hs;
      [|discriminate].
    destruct (IH _ _ _ _ Hrun kv Hin) as [H|H]; [|now right].
    apply dict_set_In in H. destruct H as [H| ->]; [now left|].
    right. now apply dict_get_Some_In.
Qed.

Lemma load_names_entries ns data_param :
  forall acc w dtl w',
    load_names ns data_param acc w = (Returned dtl, w') ->
    forall kv, In kv dtl -> In kv acc \/ In kv data_param.
Proof.
  induction ns as [|n rest IH]; intros acc w dtl w' Hrun kv Hin.
  - simpl in Hrun. injection Hrun as -> _. now left.
  - cbn [load_names] in Hrun. binv Hrun. binv Hrun. binv Hrun.
    destruct (IH _ _ _ _ Hrun kv Hin) as [Hk|Hk]; [|now right].
    eapply load_sources_entries; eassumption.
Qed.

(** X8: [initialise_reader] returns, or raises [ValueError], [IOError] or
    [AttributeError]; building the records never fails, since every
    modality it looks up was checked against the configuration and is a
    column of the joint table.  It raises [ValueError] when no field
    name was given or an active field names a section that the
    configuration does not have; any other [ValueError] is one that
    pandas raises on the manifests, and there is none when the
    manifests are plain.  It raises [AttributeError] exactly when field
    names were given but none is active. *)
Theorem initialise_reader_outcomes data_param task_param w :
  let run := fst (initialise_reader data_param task_param w) in
  let act := active_fields task_param (_names (self w)) in
  let unknown_section :=
    exists field l s,
      In field act /\ dict_get task_param field = Some l /\ In s l /\
      dict_get data_param s = None in
  (run = Returned tt \/ run = Raised ValueError \/
   run = Raised IOError \/ run = Raised AttributeError) /\
  (_names (self w) = [] \/ unknown_section -> run = Raised ValueError) /\
  (run = Raised ValueError -> plain_manifests (files w) data_param ->
   _names (self w) = [] \/ unknown_section) /\
  (run = Raised AttributeError <-> _names (self w) <> [] /\ act = []).
Proof.
  intros run act unknown_section. subst run act unknown_section.
  destruct (_names (self w)) as [|n ns] eqn:Hn.
  { assert (Hrun : fst (initialise_reader data_param task_param w)
                   = Raised ValueError).
    { unfold initialise_reader. unfold bind at 1. unfold names at 1, get at 1.
      cbv beta iota. rewrite Hn. reflexivity. }
    rewrite Hrun. split; [auto|]. split; [auto|]. split; [auto|].
    split; [discriminate|]. intros [H _]. congruence. }
  destruct (initialise_reader_run data_param task_param w n ns Hn)
    as [[w' [Hrun [_ Hmiss]]]
       |[dtl [Hload [Hin [Hback [_ Hrest]]]]]].
  - rewrite Hrun. cbn [fst]. split; [auto|]. split; [auto|].
    split; [intros _ _; right; exact Hmiss|].
    split; [discriminate|]. intros [_ Hact].
    destruct Hmiss as [field [_ [_ [Hf _]]]]. rewrite Hact in Hf.
    destruct Hf.
  - assert (Hnomiss : ~ exists field l s,
                 In field (active_fields task_param (n :: ns)) /\
                 dict_get task_param field = Some l /\ In s l /\
                 dict_get data_param s = None).
    { intros [field [l [s [Hf [Hl [Hs Hnone]]]]]].
      destruct (Hin field l s Hf Hl Hs) as [_ H]. congruence. }
    assert (Hempty : dtl = [] <-> active_fields task_param (n :: ns) = []).
    { split.
      - intros ->.
        destruct (active_fields task_param (n :: ns)) as [|field fs] eqn:Ha;
          [reflexivity|exfalso].
        destruct (active_fields_sources task_param (n :: ns) field)
          as [s [l Hl]]; [rewrite Ha; now left|].
        destruct (Hin field (s :: l) s) as [Hk _];
          [now left|exact Hl|now left|destruct Hk].
      - intros Ha. destruct dtl as [|[k section] dtl']; [reflexivity|exfalso].
        destruct (Hback k) as [field [_ [Hf _]]]; [now left|].
        rewrite Ha in Hf. destruct Hf. }
    assert (Hplain : plain_manifests (files w) data_param ->
                     plain_manifests (files w) dtl).
    { intros [d Hd]. exists d. intros m section c Hm. apply Hd.
      destruct (load_names_entries _ _ _ _ _ _ Hload _ Hm) as [[]|H].
      exact H. }
    assert (Hmerged : forall o w2,
               load_and_merge_csv_files dtl (set_self
                 (set__input_sources
                    (Some (dict_of_items
                             (map (fun name => (name, dict_get task_param name))
                                  (active_fields task_param (n :: ns)))))
                    (set__names (active_fields task_param (n :: ns)) (self w)))
                 w) = (o, w2) ->
               (o = Raised AttributeError <->
                active_fields task_param (n :: ns) = []) /\
               (o = Raised ValueError ->
                ~ plain_manifests (files w) data_param)).
    { intros o w2 Hmerge. split.
      - rewrite <- Hempty. split.
        + intros ->. apply load_and_merge_Raised in Hmerge.
          destruct Hmerge as [H|[H|[_ H]]]; [discriminate|discriminate|exact H].
        + intros ->. now injection Hmerge as <- _.
      - intros -> Hp. apply Hplain in Hp.
        exact (load_and_merge_plain dtl (set_self _ w) _ Hp Hmerge). }
    destruct Hrest as [[e [w' [Hmerge [Hrun _]]]]
                      |[fl [w2 [vl [w' [Hmerge [_ [Hrun _]]]]]]]];
      rewrite Hrun; cbn [fst];
      destruct (Hmerged _ _ Hmerge) as [Hattr Hvalue].
    + pose proof (load_and_merge_Raised _ _ _ _ Hmerge) as Hcase.
      split; [destruct Hcase as [->|[->|[-> _]]]; auto|].
      split; [intros [H|H]; [discriminate|now destruct Hnomiss]|].
      split.
      * intros H Hp. injection H as ->. now destruct (Hvalue eq_refl).
      * split.
        -- intros H. split; [discriminate|]. injection H as ->.
           now apply Hattr.
        -- intros [_ Ha]. apply Hattr in Ha. now injection Ha as ->.
    + split; [auto|].
      split; [intros [H|H]; [discriminate|now destruct Hnomiss]|].
      split; [discriminate|].
      split; [discriminate|]. intros [_ Ha]. apply Hattr in Ha.
      discriminate.
Qed.

Lemma initialise_reader_Returned data_param task_param w w' :
  initialise_reader data_param task_param w = (Returned tt, w') ->
  let act := active_fields task_param (_names (self w)) in
  let src := dict_of_items (map (fun name => (name, dict_get task_param name))
                                act) in
  exists fl vl w2,
    filename_to_image_list fl src data_param w2 = (Returned vl, w2) /\
    rows fl <> [] /\ Forall (fun row => row <> []) (rows fl) /\
    self w' = set_output_list
                (Some vl)
                (set__file_list
                   (Some fl)
                   (set__input_sources (Some src)
                                       (set__names act (self w)))) /\
    rng w' = rng w /\ files w' = files w.
Proof.
  intros Hrun act src. subst act src.
  destruct (_names (self w)) as [|n ns] eqn:Hn.
  { unfold initialise_reader in Hrun. unfold bind at 1 in Hrun.
    unfold names at 1, get at 1 in Hrun. cbv beta iota in Hrun.
    rewrite Hn in Hrun. discriminate. }
  destruct (initialise_reader_run data_param task_param w n ns Hn)
    as [[w1 [Hrun1 _]]|[dtl [_ [_ [_ [_ Hrest]]]]]]; [congruence|].
  destruct Hrest as [[e [w1 [_ [Hrun1 _]]]]
                    |[fl [w2 [vl [w1 [Hmerge [Hbuild [Hrun1 [Hs [Hg Hf]]]]]]]]]];
    [congruence|].
  rewrite Hrun in Hrun1. injection Hrun1 as <-.
  destruct (joint_table_facts _ _ _ _ Hmerge) as [Hcols [Hrect [Hrows _]]].
  exists fl, vl, (set_self
                   (set__file_list
                      (Some fl)
                      (set__input_sources
                         (Some (dict_of_items
                                  (map (fun name =>
                                          (name, dict_get task_param name))
                                       (active_fields task_param (n :: ns)))))
                         (set__names (active_fields task_param (n :: ns))
                                     (self w)))) w2).
  split; [exact Hbuild|]. split; [exact Hrows|]. split; [|auto].
  unfold rectangular in Hrect. eapply Forall_impl; [|exact Hrect].
  intros row Hlen ->. rewrite Hcols in Hlen. discriminate.
Qed.

(** X9: a successful [initialise_reader] leaves a catalog with one record
    per row of the joint table, in row order: record [i] is keyed by
    the active fields, and the image of each field is named by the
    field's entry in the task schema and holds the file paths of row
    [i] and the settings of the configuration, modality by modality. *)
Theorem initialise_reader_catalog data_param task_param w w' :
  initialise_reader data_param task_param w = (Returned tt, w') ->
  let act := active_fields task_param (_names (self w)) in
  exists fl vl,
    _file_list (self w') = Some fl /\
    output_list (self w') = Some vl /\
    _names (self w') = act /\
    vl <> [] /\ List.length vl = List.length (rows fl) /\
    forall i rec,
      nth_error vl i = Some rec ->
      same_keys rec act /\
      forall field img,
        dict_get rec field = Some img ->
        dict_get task_param field = Some (name img) /\
        image_of_row fl i data_param img.
Proof.
  intros Hrun act.
  destruct (initialise_reader_Returned _ _ _ _ Hrun)
    as [fl [vl [w2 [Hbuild [Hrows [_ [Hs _]]]]]]].
  apply filename_to_image_list_inv in Hbuild.
  destruct Hbuild as [_ [Hlen Hrecs]].
  exists fl, vl. rewrite Hs. split; [reflexivity|]. split; [reflexivity|].
  split; [reflexivity|]. split; [|split; [exact Hlen|]].
  - intros ->. simpl in Hlen. destruct (rows fl); [congruence|discriminate].
  - intros i rec Hi. destruct (Hrecs i rec Hi) as [Hkeys Himgs]. split.
    + intros x. rewrite (Hkeys x), (dict_of_items_keys _ x), map_map.
      simpl. now rewrite map_id.
    + intros field img Hget. destruct (Himgs field img Hget) as [Hin Hrow].
      split; [|exact Hrow]. apply dict_of_items_In in Hin.
      apply in_map_iff in Hin. destruct Hin as [f' [Heq _]].
      now injection Heq as -> <-.
Qed.

Lemma initialise_reader_frame data_param task_param w w' :
  initialise_reader data_param task_param w = (Returned tt, w') ->
  current_id (self w') = current_id (self w) /\
  preprocessors (self w') = preprocessors (self w) /\
  _shapes (self w') = _shapes (self w) /\
  _dtypes (self w') = _dtypes (self w) /\
  rng w' = rng w /\ files w' = files w.
Proof.
  intros Hrun.
  destruct (initialise_reader_Returned _ _ _ _ Hrun)
    as [fl [vl [w2 [_ [_ [_ [Hs [Hg Hf]]]]]]]].
  rewrite Hs. repeat split; assumption.
Qed.

(** X10: [initialise_reader] never resets what earlier use left behind: on
    success the sequential cursor, the pipeline and the cached shapes
    and dtypes are as before, and neither the random generator nor the
    files have been touched. *)
Theorem initialise_reader_keeps data_param task_param w w' :
  initialise_reader data_param task_param w = (Returned tt, w') ->
  current_id (self w') = current_id (self w) /\
  preprocessors (self w') = preprocessors (self w) /\
  _shapes (self w') = _shapes (self w) /\
  _dtypes (self w') = _dtypes (self w) /\
  rng w' = rng w /\ files w' = files w.
Proof. exact (initialise_reader_frame data_param task_param w w'). Qed.

(** ** [get_subject_id] *)

Lemma iloc0_cases fl i :
  Forall (fun row => row <> []) (rows fl) ->
  let N := Z.of_nat (List.length (rows fl)) in
  (0 <= i < N ->
   exists row, nth_error (rows fl) (Z.to_nat i) = Some row /\
               iloc0 fl i = Returned (row_key row)) /\
  (- N <= i < 0 -> iloc0 fl i = iloc0 fl (N + i)) /\
  (i < - N \/ N <= i -> iloc0 fl i = Raised IndexError).
Proof.
  intros Hne N. unfold iloc0. cbv zeta. fold N. split; [|split].
  - intros Hi.
    assert (H0 : (i <? 0) = false) by (apply Z.ltb_ge; lia).
    assert (H1 : (N <=? i) = false) by (apply Z.leb_gt; lia).
    rewrite H0. cbv iota. rewrite H0, H1. cbn [orb].
    destruct (nth_error (rows fl) (Z.to_nat i)) as [row|] eqn:Hrow.
    + exists row. split; [reflexivity|].
      rewrite Forall_forall in Hne. specialize (Hne row (nth_error_In _ _ Hrow)).
      destruct row; [congruence|reflexivity].
    + apply nth_error_None in Hrow. lia.
  - intros Hi.
    assert (H0 : (i <? 0) = true) by (apply Z.ltb_lt; lia).
    assert (H1 : (N + i <? 0) = false) by (apply Z.ltb_ge; lia).
    rewrite H0, H1. cbv iota. rewrite H1.
    replace (i + N) with (N + i) by lia. rewrite H1. reflexivity.
  - intros [Hi|Hi].
    + assert (H0 : (i <? 0) = true) by (apply Z.ltb_lt; lia).
      assert (H1 : (i + N <? 0) = true) by (apply Z.ltb_lt; lia).
      rewrite H0. cbv iota. rewrite H1. reflexivity.
    + assert (H0 : (i <? 0) = false) by (apply Z.ltb_ge; lia).
      assert (H1 : (N <=? i) = true) by (apply Z.leb_le; lia).
      rewrite H0. cbv iota. rewrite H0, H1. reflexivity.
Qed.

Lemma get_subject_id_run w i :
  match _file_list (self w) with
  | None => get_subject_id i w = (Raised AttributeError, w)
  | Some fl =>
      Forall (fun row => row <> []) (rows fl) ->
      let N := Z.of_nat (List.length (rows fl)) in
      (0 <= i < N ->
       exists row, nth_error (rows fl) (Z.to_nat i) = Some row /\
                   get_subject_id i w = (Returned (row_key row), w)) /\
      (- N <= i < 0 -> get_subject_id i w = get_subject_id (N + i) w) /\
      (i < - N \/ N <= i -> get_subject_id i w = (Raised IndexError, w))
  end.
Proof.
  destruct (_file_list (self w)) as [fl|] eqn:Hfl.
  - intros Hne N.
    assert (Hrun : forall j, get_subject_id j w = (iloc0 fl j, w)).
    { intros j. unfold get_subject_id. mrun. rewrite Hfl. reflexivity. }
    destruct (iloc0_cases fl i Hne) as [H1 [H2 H3]]. fold N in H1, H2, H3.
    rewrite !Hrun. split; [|split].
    + intros Hi. destruct (H1 Hi) as [row [Hrow ->]]. eauto.
    + intros Hi. now rewrite (H2 Hi).
    + intros Hi. now rewrite (H3 Hi).
  - unfold get_subject_id. mrun. rewrite Hfl. reflexivity.
Qed.

(** X12: [get_subject_id] raises [AttributeError] before initialisation.  On
    a table whose rows have cells it returns the subject id of row [i]
    for [0 <= i < N], answers a position [-N <= i < 0] like [N + i],
    and raises [IndexError] for every other position; it changes
    nothing. *)
Theorem get_subject_id_cases w i :
  match _file_list (self w) with
  | None => get_subject_id i w = (Raised AttributeError, w)
  | Some fl =>
      Forall (fun row => row <> []) (rows fl) ->
      let N := Z.of_nat (List.length (rows fl)) in
      (0 <= i < N ->
       exists row, nth_error (rows fl) (Z.to_nat i) = Some row /\
                   get_subject_id i w = (Returned (row_key row), w)) /\
      (- N <= i < 0 -> get_subject_id i w = get_subject_id (N + i) w) /\
      (i < - N \/ N <= i -> get_subject_id i w = (Raised IndexError, w))
  end.
Proof. exact (get_subject_id_run w i). Qed.

(** X13: after a successful [initialise_reader], [get_subject_id(i)] for a
    valid catalog index [i] is the subject id of the table row from
    which record [i] was built. *)
Theorem get_subject_id_of_record data_param task_param w w' :
  initialise_reader data_param task_param w = (Returned tt, w') ->
  exists fl vl,
    _file_list (self w') = Some fl /\ output_list (self w') = Some vl /\
    forall i rec,
      nth_error vl i = Some rec ->
      exists row,
        nth_error (rows fl) i = Some row /\
        get_subject_id (Z.of_nat i) w' = (Returned (row_key row), w') /\
        forall field img,
          dict_get rec field = Some img ->
          image_of_row fl i data_param img.
Proof.
  intros Hrun.
  destruct (initialise_reader_Returned _ _ _ _ Hrun)
    as [fl [vl [w2 [Hbuild [_ [Hne [Hs _]]]]]]].
  apply filename_to_image_list_inv in Hbuild.
  destruct Hbuild as [_ [Hlen Hrecs]].
  exists fl, vl. rewrite Hs. split; [reflexivity|]. split; [reflexivity|].
  intros i rec Hi.
  assert (Hlt : (i < List.length (rows fl))%nat).
  { rewrite <- Hlen. apply nth_error_Some. congruence. }
  pose proof (get_subject_id_run w' (Z.of_nat i)) as Hget.
  rewrite Hs in Hget. cbn [_file_list set_output_list set__file_list] in Hget.
  destruct (Hget Hne) as [Hvalid _].
  destruct Hvalid as [row [Hrow Hid]]; [lia|].
  rewrite Nat2Z.id in Hrow. exists row. split; [exact Hrow|].
  split; [exact Hid|]. intros field img Himg.
  destruct (Hrecs i rec Hi) as [_ Himgs]. now apply (Himgs field img).
Qed.

(** ** More on access *)

Lemma serve_log_files z w :
  log (snd (serve z w)) = log w /\ files (snd (serve z w)) = files w.
Proof.
  unfold serve. destruct (z <? 0); [auto|].
  destruct (output_list (self w)) as [l|]; [|auto].
  destruct (Z.of_nat (List.length l) <=? z); [auto|].
  destruct (nth_error l (Z.to_nat z)); auto.
Qed.

Lemma set_current_id_same r : set_current_id (current_id r) r = r.
Proof. destruct r; reflexivity. Qed.

(** X14: an access, in any mode and whatever its outcome, changes nothing of
    the reader but the sequential cursor (the catalog, the field names,
    the stored pipeline and the caches stay), and writes neither to the
    log nor to the files. *)
Theorem access_changes_only_cursor idx shuffle w :
  let w' := snd (layer_op idx shuffle w) in
  self w' = set_current_id (current_id (self w')) (self w) /\
  log w' = log w /\ files w' = files w.
Proof.
  cbv zeta.
  destruct (sequential_mode (idx, shuffle)) eqn:Hmode.
  - unfold sequential_mode in Hmode. simpl in Hmode.
    destruct idx, shuffle; try discriminate.
    rewrite layer_op_sequential, serve_self.
    destruct (serve_log_files (current_id (self w) + 1)
                (set_self (set_current_id (current_id (self w) + 1) (self w)) w))
      as [-> ->].
    split; [|split; reflexivity]. simpl. destruct (self w); reflexivity.
  - rewrite (layer_op_not_sequential_self _ _ _ Hmode), set_current_id_same.
    split; [reflexivity|].
    destruct idx as [|z|f|s|].
    + destruct shuffle; [|discriminate].
      destruct (output_list (self w)) as [l|] eqn:Hol.
      * rewrite (layer_op_random w l Hol).
        destruct (Z.of_nat (List.length l) <=? 0); [auto|].
        cbv zeta.
        exact (serve_log_files
                 _ (set_rng (snd (randint (Z.of_nat (List.length l)) (rng w)))
                            w)).
      * unfold layer_op. mrun. rewrite Hol. auto.
    + rewrite layer_op_int. apply serve_log_files.
    + rewrite layer_op_explicit by discriminate.
      destruct (int (PyFloat f)) as [z|[]]; auto. apply serve_log_files.
    + rewrite layer_op_explicit by discriminate.
      destruct (int (PyStr s)) as [z|[]]; auto. apply serve_log_files.
    + rewrite layer_op_explicit by discriminate. auto.
Qed.

Lemma sequential_calls_exhausted k :
  forall w l,
    output_list (self w) = Some l ->
    -1 <= current_id (self w) ->
    Z.of_nat (List.length l) <= current_id (self w) + 1 ->
    fst (sequential_calls k w) = repeat (Returned sentinel) k /\
    current_id (self (snd (sequential_calls k w)))
    = current_id (self w) + Z.of_nat k.
Proof.
  induction k as [|k IH]; intros w l Hol Hc Hlen.
  - simpl. split; [reflexivity|lia].
  - cbn [sequential_calls]. rewrite layer_op_sequential.
    rewrite (serve_out_of_range _ _ l) by (right; split; [exact Hol|lia]).
    set (w1 := set_self _ w).
    destruct (IH w1 l Hol ltac:(simpl; lia) ltac:(simpl; lia)) as [H1 H2].
    destruct (sequential_calls k w1) as [os w2]. simpl in *.
    split; [now rewrite H1|]. rewrite H2. lia.
Qed.

(** X15: once the sequential cursor has reached the last record, every
    further sequential call returns the sentinel and still advances the
    cursor by one: the cursor never wraps and never stops. *)
Theorem sequential_access_exhausted w l k :
  output_list (self w) = Some l ->
  -1 <= current_id (self w) ->
  Z.of_nat (List.length l) <= current_id (self w) + 1 ->
  fst (sequential_calls k w) = repeat (Returned sentinel) k /\
  current_id (self (snd (sequential_calls k w)))
  = current_id (self w) + Z.of_nat k.
Proof. apply sequential_calls_exhausted. Qed.

(** X16: before [initialise_reader] (no catalog) random-mode access raises
    [TypeError]; sequential-mode access raises [TypeError] too, but has
    already advanced the cursor; an explicit index is answered with the
    sentinel when negative and with [TypeError] otherwise. *)
Theorem access_before_initialise w :
  output_list (self w) = None ->
  layer_op PyNone true w = (Raised TypeError, w) /\
  (0 <= current_id (self w) + 1 ->
   layer_op PyNone false w
   = (Raised TypeError,
      set_self (set_current_id (current_id (self w) + 1) (self w)) w)) /\
  (forall z shuffle,
      layer_op (PyInt z) shuffle w
      = (if z <? 0 then Returned sentinel else Raised TypeError, w)).
Proof.
  intros Hol. split; [|split].
  - unfold layer_op. mrun. rewrite Hol. reflexivity.
  - intros Hc. rewrite layer_op_sequential. unfold serve. simpl.
    rewrite Hol. destruct (Z.ltb_spec (current_id (self w) + 1) 0); [lia|].
    reflexivity.
  - intros z shuffle. rewrite layer_op_int. unfold serve. rewrite Hol.
    destruct (z <? 0); reflexivity.
Qed.

(** X17: when an index is given, the access depends on it only through
    [int(idx)], and the [shuffle] flag is ignored. *)
Theorem explicit_access_by_value idx z shuffle shuffle' w :
  idx <> PyNone ->
  int idx = Returned z ->
  layer_op idx shuffle w = layer_op (PyInt z) shuffle' w.
Proof.
  intros Hidx Hint. rewrite (layer_op_explicit _ _ _ Hidx), Hint.
  now rewrite layer_op_int.
Qed.

Lemma apply_pipeline_no_randomised interp layers :
  no_randomised layers ->
  forall acc, snd (fold_left (apply_stage interp) layers acc) = snd acc.
Proof.
  induction 1 as [|layer layers Hl _ IH]; intros acc; [reflexivity|].
  simpl. rewrite IH. destruct acc as [[d m] g].
  destruct layer as [[op|model train op|params draw op]|]; simpl.
  - now destruct (op d m).
  - now destruct (op model d m).
  - destruct Hl.
  - reflexivity.
Qed.

(** X18: with a pipeline that has no randomised stage, an explicit access to
    a valid index leaves the whole state as it was, generator included,
    so that repeating it returns the same result. *)
Theorem access_repeatable w l z shuffle :
  output_list (self w) = Some l ->
  0 <= z < Z.of_nat (List.length l) ->
  no_randomised (preprocessors (self w)) ->
  snd (layer_op (PyInt z) shuffle w) = w /\
  fst (layer_op (PyInt z) shuffle (snd (layer_op (PyInt z) shuffle w)))
  = fst (layer_op (PyInt z) shuffle w).
Proof.
  intros Hol Hz Hnr.
  assert (Hw : snd (layer_op (PyInt z) shuffle w) = w).
  { rewrite layer_op_int.
    destruct (serve_piped z w l Hol Hz) as [rec [_ ->]]. unfold piped.
    cbv zeta. cbn [snd]. unfold apply_pipeline.
    rewrite (apply_pipeline_no_randomised _ _ Hnr). cbn [snd].
    apply set_rng_same. }
  split; [exact Hw|]. now rewrite Hw.
Qed.

(** ** [add_preprocessing_layers] *)

(** X19: [add_preprocessing_layers] changes the pipeline only: the new
    stages go after the old ones, and every data-dependent stage of the
    whole pipeline is then given the catalog by its own [train].  So
    after two calls the stage at a position that was filled by the first
    call has been trained twice, a stage of the second call once, and a
    stage that is not data-dependent is the one that was added.  (The
    stages are distinct layer objects: the pipeline holds layers by
    value.) *)
Theorem add_preprocessing_layers_twice first second w k :
  let ol := output_list (self w) in
  let old := preprocessors (self w) ++ stages_of first in
  let w2 := snd (add_preprocessing_layers
                   second (snd (add_preprocessing_layers first w))) in
  nth_error (preprocessors (self w2)) k
  = match nth_error (old ++ stages_of second) k with
    | Some (Some (DataDependentLayer model train op)) =>
        Some (Some (DataDependentLayer
                      (if (k <? List.length old)%nat
                       then train ol (train ol model)
                       else train ol model)
                      train op))
    | other => other
    end /\
  self w2 = set_preprocessors (preprocessors (self w2)) (self w) /\
  rng w2 = rng w /\ log w2 = log w /\ files w2 = files w.
Proof.
  cbv zeta.
  assert (Hself :
    self (snd (add_preprocessing_layers
                 second (snd (add_preprocessing_layers first w))))
    = set_preprocessors
        (map (fun s => train_layer (output_list (self w))
                         (train_layer (output_list (self w)) s))
             (preprocessors (self w) ++ stages_of first)
         ++ map (train_layer (output_list (self w))) (stages_of second))
        (self w)).
  { destruct first, second; simpl; rewrite map_app, map_map; reflexivity. }
  rewrite Hself. cbn [preprocessors set_preprocessors].
  split; [|repeat split].
  destruct (Nat.ltb_spec k
              (List.length (preprocessors (self w) ++ stages_of first)))
    as [Hk|Hk].
  - rewrite !nth_error_app1 by (rewrite ?length_map; exact Hk).
    rewrite nth_error_map.
    destruct (nth_error _ k) as [[[]|]|]; reflexivity.
  - rewrite !nth_error_app2 by (rewrite ?length_map; exact Hk).
    rewrite length_map, nth_error_map.
    destruct (nth_error _ _) as [[[]|]|]; reflexivity.
Qed.

(** ** The properties after initialisation *)

(** X11: [input_sources] raises [RuntimeError] while no input sources are
    set; after a successful [initialise_reader] it returns, without
    changing anything, a mapping keyed by the active fields that gives
    each of them its entry in the task schema. *)
Theorem input_sources_after_initialise data_param task_param w w' :
  (truthy_dict (_input_sources (self w)) = false ->
   fst (input_sources w) = Raised RuntimeError) /\
  (initialise_reader data_param task_param w = (Returned tt, w') ->
   exists src,
     input_sources w' = (Returned src, w') /\
     same_keys src (_names (self w')) /\
     forall field, In field (_names (self w')) ->
                   exists l, dict_get task_param field = Some l /\ l <> [] /\
                             dict_get src field = Some (Some l)).
Proof.
  split.
  - intros H. unfold input_sources. mrun.
    destruct (_input_sources (self w)) as [[|kv d]|]; try reflexivity.
    discriminate.
  - intros Hrun.
    destruct (initialise_reader_Returned _ _ _ _ Hrun)
      as [fl [vl [w2 [_ [_ [_ [Hs _]]]]]]].
    destruct (initialise_reader_initialised _ _ _ _ Hrun) as [[Hne _] Hact].
    set (act := active_fields task_param (_names (self w))) in *.
    set (src := dict_of_items
                  (map (fun name => (name, dict_get task_param name)) act))
      in *.
    assert (Hsrc : forall field, In field act ->
                     exists l, dict_get task_param field = Some l /\ l <> [] /\
                               dict_get src field = Some (Some l)).
    { intros field Hf.
      destruct (active_fields_sources _ _ _ Hf) as [s [l Hl]].
      exists (s :: l). split; [exact Hl|]. split; [discriminate|].
      subst src.
      rewrite (dict_of_items_map_get (dict_get task_param) act field Hf).
      now rewrite Hl. }
    exists src. rewrite Hact. split; [|split; [|exact Hsrc]].
    + unfold input_sources. mrun. rewrite Hs. simpl.
      destruct src as [|kv d] eqn:Hd; [|reflexivity]. exfalso.
      destruct act as [|field fs]; [now apply Hne|].
      destruct (Hsrc field (or_introl eq_refl)) as [l [_ [_ H]]]. discriminate.
    + intros x. subst src. rewrite (dict_of_items_keys _ x), map_map. simpl.
      now rewrite map_id.
Qed.

Lemma from_first_record_get {V} (f : image -> V) (rec : record) fields field :
  In field fields ->
  In field (dict_keys rec) ->
  exists img, dict_get rec field = Some img /\
              dict_get (from_first_record f rec fields) field = Some (f img).
Proof.
  intros Hf Hk. destruct (dict_get_In rec field Hk) as [img Himg].
  exists img. split; [exact Himg|]. unfold from_first_record.
  set (items := flat_map _ fields).
  assert (Hin : In field (dict_keys (dict_of_items items))).
  { apply dict_of_items_keys. apply in_map_iff. exists (field, f img).
    split; [reflexivity|]. subst items. apply in_flat_map. exists field.
    split; [exact Hf|]. rewrite Himg. now left. }
  destruct (dict_get_In _ _ Hin) as [v Hv]. rewrite Hv. f_equal.
  apply dict_of_items_get_In in Hv. subst items. apply in_flat_map in Hv.
  destruct Hv as [field' [_ Hv]].
  destruct (dict_get rec field') as [img'|] eqn:Himg'; [|destruct Hv].
  destruct Hv as [Heq|[]]. injection Heq as -> <-. congruence.
Qed.

Lemma from_first_record_keys {V} (f : image -> V) (rec : record) fields :
  (forall field, In field fields -> In field (dict_keys rec)) ->
  same_keys (from_first_record f rec fields) fields.
Proof.
  intros Hall x. unfold from_first_record. rewrite (dict_of_items_keys _ x).
  rewrite in_map_iff. split.
  - intros [[k v] [<- Hin]]. apply in_flat_map in Hin.
    destruct Hin as [field [Hf Hin]].
    destruct (dict_get rec field); [|destruct Hin].
    destruct Hin as [Heq|[]]. now injection Heq as <- _.
  - intros Hx. destruct (dict_get_In rec x (Hall x Hx)) as [img Himg].
    exists (x, f img). split; [reflexivity|]. apply in_flat_map.
    exists x. split; [exact Hx|]. rewrite Himg. now left.
Qed.

(** X20: on an initialised reader with empty caches, [shapes] and
    [tf_dtypes] return mappings keyed by the field names that give each
    field the shape, respectively the inferred dtype, of its image in
    record 0, whatever the other records hold. *)
Theorem shapes_of_first_record w rec0 rest :
  initialised (self w) ->
  output_list (self w) = Some (rec0 :: rest) ->
  (truthy_dict (_shapes (self w)) = false ->
   exists d w1,
     shapes w = (Returned d, w1) /\ same_keys d (_names (self w)) /\
     forall field, In field (_names (self w)) ->
                   exists img, dict_get rec0 field = Some img /\
                               dict_get d field = Some (shape img)) /\
  (truthy_dict (_dtypes (self w)) = false ->
   exists d w1,
     tf_dtypes w = (Returned d, w1) /\ same_keys d (_names (self w)) /\
     forall field, In field (_names (self w)) ->
                   exists img, dict_get rec0 field = Some img /\
                               dict_get d field = Some (infer_tf_dtypes img)).
Proof.
  intros Hinit Hol.
  destruct (initialised_first_record _ Hinit)
    as (rec0' & rest' & Hol' & Hne & Hin).
  rewrite Hol in Hol'. injection Hol' as <- <-.
  split; intros Hc.
  - rewrite (shapes_fresh w rec0 rest Hol Hin Hc). cbv zeta.
    eexists. eexists. split; [reflexivity|].
    split; [now apply from_first_record_keys|].
    intros field Hf. apply from_first_record_get; auto.
  - rewrite (tf_dtypes_fresh w rec0 rest Hol Hin Hc). cbv zeta.
    eexists. eexists. split; [reflexivity|].
    split; [now apply from_first_record_keys|].
    intros field Hf. apply from_first_record_get; auto.
Qed.

(** X21: the caches are never invalidated: when shapes (or dtypes) have been
    cached, a later successful [initialise_reader], whatever catalog it
    builds, leaves [shapes] (or [tf_dtypes]) returning the cached
    mapping. *)
Theorem caches_survive_initialise data_param task_param w w' :
  initialise_reader data_param task_param w = (Returned tt, w') ->
  (forall d, _shapes (self w) = Some d -> d <> [] ->
             shapes w' = (Returned d, w')) /\
  (forall d, _dtypes (self w) = Some d -> d <> [] ->
             tf_dtypes w' = (Returned d, w')).
Proof.
  intros Hrun.
  destruct (initialise_reader_frame _ _ _ _ Hrun) as [_ [_ [Hsh [Hdt _]]]].
  destruct (initialise_reader_initialised _ _ _ _ Hrun)
    as [[_ [l [Hol [Hl _]]]] _].
  assert (Htruthy : truthy_list (output_list (self w')) = true).
  { rewrite Hol. destruct l; [congruence|reflexivity]. }
  split; intros d Hd Hne.
  - apply shapes_cached; [exact Htruthy|congruence|exact Hne].
  - apply tf_dtypes_cached; [exact Htruthy|congruence|exact Hne].
Qed.



End Facts.

(** * The properties on the concrete configuration *)

Lemma demo_world_run :
  initialise_reader demo_data_param demo_task_param demo_world0
  = (Returned tt, demo_world).
Proof. vm_compute. reflexivity. Qed.

Lemma demo_world_initialised : initialised (self demo_world).
Proof. exact (proj1 (initialise_reader_initialised _ _ _ _ demo_world_run)). Qed.

Lemma demo_world_piped_initialised : initialised (self demo_world_piped).
Proof.
  exact (proj2 (add_preprocessing_layers_initialised
                  (inr demo_pipeline) demo_world demo_world_initialised)).
Qed.

Lemma demo_world_dropping_initialised :
  initialised (self demo_world_dropping).
Proof.
  exact (proj2 (add_preprocessing_layers_initialised
                  (inl drop_fields) demo_world demo_world_initialised)).
Qed.

Lemma demo_pipeline_keeps_keys :
  Forall keeps_keys (preprocessors (self demo_world_piped)).
Proof.
  change (Forall keeps_keys demo_pipeline). unfold demo_pipeline.
  apply Forall_cons; [|apply Forall_cons; [|apply Forall_cons;
                                             [|apply Forall_nil]]].
  - intros d m x. reflexivity.
  - exact I.
  - intros p d o x. reflexivity.
Qed.

Lemma demo_files_unique :
  forall m section c,
    In (m, section) demo_data_param ->
    files demo_world0 (csv_file section) = Some c ->
    NoDup (content_ids c).
Proof.
  intros m section c [H|[H|[]]] Hf; injection H as <- <-;
    vm_compute in Hf; injection Hf as <-; vm_compute;
    repeat constructor; simpl; intuition discriminate.
Qed.

Lemma access_valid_index_witness :
  exists d o w',
    layer_op (PyInt 1) true demo_world_piped
    = (Returned (1, Some d, Some o), w') /\
    same_keys d (_names (self demo_world_piped)) /\
    same_keys o (_names (self demo_world_piped)) /\
    self w' = self demo_world_piped.
Proof.
  destruct (access_valid_index demo_world_piped demo_catalog 1 true)
    as [d [o [w' [Hrun [Ho [Hself Hd]]]]]].
  - exact demo_world_piped_initialised.
  - reflexivity.
  - vm_compute. split; [discriminate|reflexivity].
  - exists d, o, w'. split; [exact Hrun|]. split; [|split].
    + apply Hd. exact demo_pipeline_keeps_keys.
    + exact Ho.
    + exact Hself.
Defined.

(** C1 (as stated) fails: with a stage that returns an empty mapping,
    index 0 of an initialised reader is served with a data mapping whose
    key set is not the field names. *)
Lemma access_valid_index_counterexample :
  initialised (self demo_world_dropping) /\
  output_list (self demo_world_dropping) = Some demo_catalog /\
  0 <= 0 < Z.of_nat (List.length demo_catalog) /\
  fst (layer_op (PyInt 0) true demo_world_dropping)
  = Returned (0, Some [], Some [("image", [3]); ("label", [3])]) /\
  ~ same_keys (@nil (string * array)) (_names (self demo_world_dropping)).
Proof.
  split; [exact demo_world_dropping_initialised|].
  split; [reflexivity|]. split; [vm_compute; split; [discriminate|reflexivity]|].
  split; [vm_compute; reflexivity|].
  intros H. apply (H "image"). vm_compute. left. reflexivity.
Qed.

Lemma sequential_access_order_witness :
  exists served,
    fst (sequential_calls (S (List.length demo_catalog)) demo_world)
    = served ++ [Returned sentinel] /\
    map resolved_index served
    = map (fun j => Returned (Z.of_nat j)) (seq 0 (List.length demo_catalog)).
Proof.
  apply (sequential_access_order demo_world demo_catalog); reflexivity.
Defined.

Lemma explicit_access_out_of_range_witness :
  layer_op (PyStr "abc") true demo_world = (Returned sentinel, demo_world) /\
  layer_op (PyInt 2) true demo_world = (Returned sentinel, demo_world).
Proof.
  split.
  - apply (explicit_access_out_of_range (PyStr "abc") true demo_world).
    + discriminate.
    + left. reflexivity.
  - apply (explicit_access_out_of_range (PyInt 2) true demo_world).
    + discriminate.
    + right. exists 2. split; [reflexivity|]. right. exists demo_catalog.
      split; [reflexivity|]. vm_compute. discriminate.
Defined.

(** C3 (as stated) fails: an index that is no number at all, or an
    infinite float, cannot be coerced to an integer, and the access
    raises instead of returning the sentinel. *)
Lemma explicit_access_counterexample :
  (forall z, int PyObject <> Returned z) /\
  fst (layer_op PyObject true demo_world) = Raised TypeError /\
  (forall z, int (PyFloat (S754_infinity false)) <> Returned z) /\
  fst (layer_op (PyFloat (S754_infinity false)) true demo_world)
  = Raised OverflowError.
Proof.
  split; [discriminate|]. split; [reflexivity|].
  split; [discriminate|reflexivity].
Qed.

Lemma pipeline_applied_in_order_witness :
  exists rec,
    nth_error demo_catalog (Z.to_nat 1) = Some rec /\
    layer_op (PyInt 1) true demo_world_piped = piped 1 rec demo_world_piped.
Proof.
  apply (proj1 (pipeline_applied_in_order demo_world_piped demo_catalog
                  eq_refl ltac:(discriminate))).
  vm_compute. split; [discriminate|reflexivity].
Defined.

Lemma merge_row_count_witness :
  shape0 {| columns := ["subject_id"; "T1"; "seg"];
            key_dtype := object;
            rows := [["s1"; "s1_T1.nii"; "s1_seg.nii"];
                     ["s2"; "s2_T1.nii"; "s2_seg.nii"]] |}
  <= Z.of_nat
       (List.length
          (content_lines
             (StrIds [("s1", "s1_seg.nii"); ("s2", "s2_seg.nii")]))).
Proof.
  apply (proj1 (merge_row_count demo_data_param demo_world0
                  demo_files_unique)
               _ (snd (load_and_merge_csv_files demo_data_param demo_world0))
               eq_refl "seg" (demo_section "seg.csv")
               (StrIds [("s1", "s1_seg.nii"); ("s2", "s2_seg.nii")])).
  - right. left. reflexivity.
  - reflexivity.
Defined.

(** C5 (as stated) fails: manifest A lists subject [s1] twice and
    manifest B once; the joint table has two rows, more than B has. *)
Lemma merge_row_count_counterexample :
  fst (load_and_merge_csv_files demo_dup_param demo_world0)
  = Returned {| columns := ["subject_id"; "A"; "B"];
                key_dtype := object;
                rows := [["s1"; "a.nii"; "c.nii"];
                         ["s1"; "b.nii"; "c.nii"]] |} /\
  files demo_world0 "dup.csv"
  = Some (StrIds [("s1", "a.nii"); ("s1", "b.nii")]) /\
  files demo_world0 "one.csv" = Some (StrIds [("s1", "c.nii")]) /\
  ~ (2 <= Z.min 2 1).
Proof.
  split; [vm_compute; reflexivity|]. split; [reflexivity|].
  split; [reflexivity|]. vm_compute. intros H. apply H. reflexivity.
Qed.

Lemma empty_active_field_set_is_fatal_witness :
  active_fields demo_task_param (_names (self demo_world_weight)) = [] /\
  fst (initialise_reader demo_data_param demo_task_param demo_world_weight)
  = Raised AttributeError.
Proof.
  split; [reflexivity|].
  apply (proj2 (proj2 (empty_active_field_set_is_fatal
                         demo_data_param demo_task_param demo_world_weight))).
  reflexivity.
Defined.

Lemma shapes_and_dtypes_cached_witness :
  (fst (shapes demo_world0) = Raised RuntimeError /\
   fst (tf_dtypes demo_world0) = Raised RuntimeError) /\
  (memoized shapes _shapes shape demo_world /\
   memoized tf_dtypes _dtypes infer_tf_dtypes demo_world).
Proof.
  split.
  - apply (proj1 (shapes_and_dtypes_cached demo_world0)). reflexivity.
  - apply (proj2 (shapes_and_dtypes_cached demo_world)).
    exact demo_world_initialised.
Defined.

Lemma cursor_written_only_sequentially_witness :
  current_id (self (snd (layer_op PyNone true demo_world)))
  = current_id (self demo_world) /\
  current_id (self (snd (layer_op (PyInt 1) false demo_world)))
  = current_id (self demo_world).
Proof.
  split.
  - apply (proj1 cursor_written_only_sequentially PyNone true demo_world).
    reflexivity.
  - apply (proj1 cursor_written_only_sequentially (PyInt 1) false demo_world).
    reflexivity.
Defined.

Lemma random_access_on_empty_catalog_witness :
  layer_op PyNone true demo_world_empty = (Raised ValueError, demo_world_empty)
  /\ layer_op (PyInt 0) true demo_world_empty
     = (Returned sentinel, demo_world_empty)
  /\ fst (layer_op PyNone false demo_world_empty) = Returned sentinel.
Proof.
  pose proof (random_access_on_empty_catalog demo_world_empty eq_refl)
    as [Hrandom [Hexplicit Hsequential]].
  split; [exact Hrandom|]. split.
  - apply Hexplicit; [discriminate|]. left. exists 0. reflexivity.
  - rewrite Hsequential. reflexivity.
Defined.

(** * The further properties on the concrete configuration *)

Lemma demo_table_rows :
  demo_table = {| columns := ["subject_id"; "T1"; "seg"];
                  key_dtype := object;
                  rows := [["s1"; "s1_T1.nii"; "s1_seg.nii"];
                           ["s2"; "s2_T1.nii"; "s2_seg.nii"]] |}.
Proof. vm_compute. reflexivity. Qed.

Lemma demo_world_again_run :
  initialise_reader
    demo_ab_param demo_ab_task_param
    {| self := self demo_world_cached; rng := rng demo_world_cached;
       log := log demo_world_cached; files := demo_files_ab |}
  = (Returned tt, demo_world_again).
Proof. vm_compute. reflexivity. Qed.

Lemma demo_files_ab_unique :
  forall m section c,
    In (m, section) demo_ab_param ->
    files demo_world_ab (csv_file section) = Some c ->
    NoDup (content_ids c).
Proof.
  intros m section c [H|[H|[]]] Hf; injection H as <- <-;
    vm_compute in Hf; injection Hf as <-; vm_compute;
    repeat constructor; simpl; intuition discriminate.
Qed.

Lemma infer_tf_dtypes_kinds_witness :
  infer_tf_dtypes {| file_path := ["s1_T1.nii"]; name := ["T1"];
                     interp_order := [3]; output_pixdim := [tt];
                     output_axcodes := [tt] |} = tf_float32.
Proof.
  apply (proj2 (infer_tf_dtypes_kinds _)). simpl. intuition discriminate.
Defined.

Lemma create_image_Returned_witness :
  exists img,
    fst (create_image demo_table 0 (Some ["T1"]) demo_data_param demo_world)
    = Returned img /\
    name img = ["T1"] /\ image_of_row demo_table 0 demo_data_param img.
Proof.
  eexists. split; [vm_compute; reflexivity|].
  destruct (create_image_Returned
              demo_table 0 (Some ["T1"]) demo_data_param demo_world
              _ (snd (create_image demo_table 0 (Some ["T1"]) demo_data_param
                                   demo_world)) eq_refl)
    as [_ [Hname Hrow]].
  split; [reflexivity|exact Hrow].
Defined.

Lemma create_image_missing_modality_witness :
  create_image demo_table 0 (Some ["T1"; "T2"]) demo_data_param demo_world
  = (Raised KeyError,
     add_log [LogFatal "Specified modality names not found in config"]
             demo_world).
Proof.
  apply (create_image_missing_modality demo_table 0 ["T1"; "T2"]).
  exists "T2". split; [right; left; reflexivity|left; reflexivity].
Defined.

Lemma filename_to_image_list_Returned_witness :
  exists vl,
    fst (filename_to_image_list demo_table [("image", Some ["T1"])]
                                demo_data_param demo_world) = Returned vl /\
    List.length vl = List.length (rows demo_table).
Proof.
  eexists. split; [vm_compute; reflexivity|].
  exact (proj1 (proj2 (filename_to_image_list_Returned
                         demo_table [("image", Some ["T1"])] demo_data_param
                         demo_world _
                         (snd (filename_to_image_list
                                 demo_table [("image", Some ["T1"])]
                                 demo_data_param demo_world))
                         eq_refl))).
Defined.

Lemma joint_table_shape_witness :
  columns demo_table = "subject_id" :: dict_keys demo_data_param /\
  rectangular demo_table /\ rows demo_table <> [].
Proof.
  destruct (joint_table_shape
              demo_data_param demo_world0 demo_table
              (snd (load_and_merge_csv_files demo_data_param demo_world0))
              eq_refl) as [Hc [Hr [Hn _]]].
  auto.
Defined.

Lemma joint_table_subjects_witness :
  exists t,
    fst (load_and_merge_csv_files demo_ab_param demo_world_ab) = Returned t /\
    subjects t = ["2"; "3"].
Proof.
  eexists. split; [vm_compute; reflexivity|].
  exact (joint_table_subjects
           "A" (demo_section "A.csv") [("B", demo_section "B.csv")]
           demo_world_ab _
           (snd (load_and_merge_csv_files demo_ab_param demo_world_ab))
           demo_files_ab_unique eq_refl).
Defined.

Lemma merge_of_some_manifests_witness :
  (exists joint w1,
      merge_loop demo_ab_param None demo_world_ab
      = (Returned (Some joint), w1) /\
      fst (load_and_merge_csv_files demo_ab_param demo_world_ab)
      = if size joint =? 0 then Raised IOError else Returned joint) /\
  load_and_merge_csv_files demo_mixed_param demo_world_ab
  = (Raised ValueError, demo_world_ab).
Proof.
  split.
  - apply (proj1 (proj2 (merge_of_some_manifests
                           demo_ab_param demo_world_ab ltac:(discriminate)))).
    + exists int64.
      intros m section c [H|[H|[]]] Hf; injection H as <- <-;
        vm_compute in Hf; injection Hf as <-;
        (split; [discriminate|split; [discriminate|reflexivity]]).
    + intros m section [H|[H|[]]]; injection H as <- <-; discriminate.
  - apply (proj2 (proj2 (proj2 (merge_of_some_manifests
                                  demo_mixed_param demo_world_ab
                                  ltac:(discriminate))))
                 "A" (demo_section "A.csv")
                 (IntIds [(1, "a1.nii"); (2, "a2.nii"); (3, "a3.nii")])
                 "S" (demo_section "S.csv") (StrIds [("s2", "c2.nii")]) []);
      try reflexivity; discriminate.
Defined.

Lemma initialise_reader_outcomes_witness :
  fst (initialise_reader demo_data_param_no_seg demo_task_param demo_world0)
  = Raised ValueError.
Proof.
  apply (proj1 (proj2 (initialise_reader_outcomes
                         demo_data_param_no_seg demo_task_param demo_world0))).
  right. exists "label", ["seg"], "seg".
  split; [vm_compute; right; left; reflexivity|].
  split; [reflexivity|]. split; [left; reflexivity|reflexivity].
Defined.

Lemma initialise_reader_catalog_witness :
  exists fl vl,
    _file_list (self demo_world) = Some fl /\
    output_list (self demo_world) = Some vl /\
    _names (self demo_world) = ["image"; "label"] /\
    List.length vl = List.length (rows fl).
Proof.
  destruct (initialise_reader_catalog _ _ _ _ demo_world_run)
    as [fl [vl [H1 [H2 [H3 [_ [H4 _]]]]]]].
  exists fl, vl. auto.
Defined.

Lemma initialise_reader_keeps_witness :
  current_id (self demo_world_again) = current_id (self demo_world_cached) /\
  _shapes (self demo_world_again) = _shapes (self demo_world_cached).
Proof.
  destruct (initialise_reader_keeps _ _ _ _ demo_world_again_run)
    as [H1 [_ [H2 _]]].
  split; [exact H1|exact H2].
Defined.

Lemma get_subject_id_cases_witness :
  get_subject_id (-1) demo_world = get_subject_id 1 demo_world /\
  get_subject_id 2 demo_world = (Raised IndexError, demo_world).
Proof.
  pose proof (get_subject_id_cases demo_world (-1)) as H1.
  pose proof (get_subject_id_cases demo_world 2) as H2.
  change (_file_list (self demo_world)) with (Some demo_table) in H1, H2.
  assert (Hne : Forall (fun row : list string => row <> []) (rows demo_table)).
  { rewrite demo_table_rows. repeat constructor; discriminate. }
  split.
  - apply (proj1 (proj2 (H1 Hne))). vm_compute.
    split; [discriminate|reflexivity].
  - apply (proj2 (proj2 (H2 Hne))). right. vm_compute. discriminate.
Defined.

Lemma get_subject_id_of_record_witness :
  exists fl vl,
    _file_list (self demo_world) = Some fl /\
    output_list (self demo_world) = Some vl /\
    forall i rec,
      nth_error vl i = Some rec ->
      exists row,
        nth_error (rows fl) i = Some row /\
        get_subject_id (Z.of_nat i) demo_world
        = (Returned (row_key row), demo_world) /\
        forall field img,
          dict_get rec field = Some img ->
          image_of_row fl i demo_data_param img.
Proof.
  exact (get_subject_id_of_record _ _ _ _ demo_world_run).
Defined.

Lemma sequential_access_exhausted_witness :
  fst (sequential_calls
         3 (set_self (set_current_id 1 (self demo_world)) demo_world))
  = repeat (Returned sentinel) 3.
Proof.
  apply (proj1 (sequential_access_exhausted
                  (set_self (set_current_id 1 (self demo_world)) demo_world)
                  demo_catalog 3 eq_refl
                  ltac:(vm_compute; discriminate)
                  ltac:(vm_compute; discriminate))).
Defined.

Lemma access_before_initialise_witness :
  layer_op PyNone true demo_world0 = (Raised TypeError, demo_world0) /\
  current_id (self (snd (layer_op PyNone false demo_world0))) = 0.
Proof.
  destruct (access_before_initialise demo_world0 eq_refl) as [H1 [H2 _]].
  split; [exact H1|]. rewrite H2; [reflexivity|]. vm_compute. discriminate.
Defined.

Lemma explicit_access_by_value_witness :
  layer_op (PyStr "1") true demo_world = layer_op (PyInt 1) false demo_world.
Proof.
  apply (explicit_access_by_value (PyStr "1") 1 true false demo_world).
  - discriminate.
  - reflexivity.
Defined.

Lemma access_repeatable_witness :
  snd (layer_op (PyInt 1) true demo_world) = demo_world.
Proof.
  apply (proj1 (access_repeatable demo_world demo_catalog 1 true eq_refl
                  ltac:(vm_compute; split; [discriminate|reflexivity])
                  ltac:(constructor))).
Defined.

Lemma input_sources_after_initialise_witness :
  fst (input_sources demo_world0) = Raised RuntimeError /\
  exists src, input_sources demo_world = (Returned src, demo_world).
Proof.
  destruct (input_sources_after_initialise
              demo_data_param demo_task_param demo_world0 demo_world)
    as [H1 H2].
  split; [apply H1; reflexivity|].
  destruct (H2 demo_world_run) as [src [Hsrc _]]. eauto.
Defined.

Lemma shapes_of_first_record_witness :
  exists d w1,
    shapes demo_world = (Returned d, w1) /\
    same_keys d (_names (self demo_world)).
Proof.
  destruct (shapes_of_first_record
              demo_world (hd [] demo_catalog) (tl demo_catalog)
              demo_world_initialised eq_refl) as [H _].
  destruct (H eq_refl) as [d [w1 [H1 [H2 _]]]]. eauto.
Defined.

Lemma caches_survive_initialise_witness :
  shapes demo_world_again
  = (Returned [("image", 1%nat); ("label", 1%nat)], demo_world_again).
Proof.
  apply (proj1 (caches_survive_initialise _ _ _ _ demo_world_again_run)).
  - reflexivity.
  - discriminate.
Defined.
